(** * Virtual controller: touch gestures to keyboard events

    A shallow embedding of the touch-gesture layer of the retro player's
    virtual controller: the keyboard event bridge
    ([utils/keyboardEvents.ts]), the touch handler hook of the generic
    virtual buttons ([useTouchHandlers]), the directional pad ([Dpad]),
    the part of the container ([VirtualController]) that keeps the pressed
    set, the button component ([VirtualButton]) as far as it computes, and
    the layout lock ([useControllerLayout]).

    Conventions of the embedding.
    - A JavaScript number is a real number ([R]): [Math.sqrt] is [sqrt],
      [Math.min]/[Math.max] are [Rmin]/[Rmax], [Math.PI] is [PI].  Rounding,
      NaN and infinities are outside the model.
    - A JavaScript string is a [string]; the codes the program handles are
      ASCII identifiers, and [toLowerCase] is modelled on ASCII letters.
    - A JavaScript [Set] is a duplicate-free list in insertion order, which
      is the order [forEach] visits it in.
    - A handler is a function from the state before to the state after and
      the list of effects it performed, in program order.  React state
      ([isDragging], [pressedButtons]) is read by a handler at its value
      after the previous handler; the props of a component are fixed.
    - [setTimeout] registers a pending callback that the environment may
      fire at any later point; [clearTimeout] removes it. *)

From Stdlib Require Import Reals Lra List String Ascii Bool Lia PeanoNat.
Import ListNotations.
Open Scope R_scope.

(* ================================================================== *)
(** * Part I: the program                                              *)
(* ================================================================== *)

(** ** JavaScript primitives *)
Module Js.

(** [a < b] and [a <= b] on numbers, as conditions. *)
Definition ltb (a b : R) : bool := if Rlt_dec a b then true else false.
Definition leb (a b : R) : bool := if Rle_dec a b then true else false.
Definition gtb (a b : R) : bool := ltb b a.
Definition geb (a b : R) : bool := leb b a.

(** [Math.atan2(y, x)] on real numbers: the angle of the vector [(x, y)]
    in the interval from [-PI] (excluded) to [PI]; [atan2(0, 0)] is [0]. *)
Definition atan2 (y x : R) : R :=
  if ltb 0 x then atan (y / x)
  else if ltb x 0 then
         (if leb 0 y then atan (y / x) + PI else atan (y / x) - PI)
  else if ltb 0 y then PI / 2
  else if ltb y 0 then - (PI / 2)
  else 0.

(** [Math.sqrt(Math.pow(a, 2) + Math.pow(b, 2))]. *)
Definition hypot (a b : R) : R := sqrt (a ^ 2 + b ^ 2).

(** Truthiness of a string: the empty string is falsy. *)
Definition truthy (s : string) : bool :=
  match s with EmptyString => false | String _ _ => true end.

(** [s.startsWith(p)]. *)
Definition startsWith (p s : string) : bool := String.prefix p s.

(** [s.slice(n)]: the string without its first [n] characters. *)
Fixpoint slice (n : nat) (s : string) : string :=
  match n, s with
  | O, _ => s
  | S _, EmptyString => EmptyString
  | S m, String _ r => slice m r
  end.

Definition lowerChar (c : ascii) : ascii :=
  let n := nat_of_ascii c in
  if (Nat.leb 65 n && Nat.leb n 90)%bool then ascii_of_nat (n + 32) else c.

(** [s.toLowerCase()] on ASCII text. *)
Fixpoint toLowerCase (s : string) : string :=
  match s with
  | EmptyString => EmptyString
  | String c r => String (lowerChar c) (toLowerCase r)
  end.

(** A [Set] in insertion order. *)
Section InsertionOrderedSet.
Context {A : Type} (eqb : A -> A -> bool).

Definition has (a : A) (s : list A) : bool := existsb (eqb a) s.

Definition add (a : A) (s : list A) : list A :=
  if has a s then s else s ++ [a].

Definition delete (a : A) (s : list A) : list A :=
  filter (fun b => negb (eqb a b)) s.
End InsertionOrderedSet.

(** Pending [setTimeout] callbacks.  A callback is kept as the data its
    closure captured.  Identifiers are positive, hence truthy. *)
Section Timeouts.
Context {A : Type}.

Record timeouts : Type := Timeouts {
  pending : list (nat * A);
  nextId : nat
}.

Definition noTimeouts : timeouts := Timeouts [] 1.

Definition setTimeout (a : A) (ts : timeouts) : nat * timeouts :=
  (nextId ts, Timeouts (pending ts ++ [(nextId ts, a)]) (S (nextId ts))).

Definition clearTimeout (id : nat) (ts : timeouts) : timeouts :=
  Timeouts (filter (fun p => negb (Nat.eqb (fst p) id)) (pending ts))
           (nextId ts).

Definition callbackOf (id : nat) (ts : timeouts) : option A :=
  match find (fun p => Nat.eqb (fst p) id) (pending ts) with
  | Some p => Some (snd p)
  | None => None
  end.

Definition isPending (id : nat) (ts : timeouts) : bool :=
  existsb (fun p => Nat.eqb (fst p) id) (pending ts).
End Timeouts.
Arguments timeouts A : clear implicits.

End Js.

(** ** utils/keyboardEvents.ts *)
Module KeyboardEvents.
Import Js.
Open Scope string_scope.
Open Scope list_scope.

(** A [ControlMapping] object: the properties that are set, by name. *)
Definition ControlMapping : Type := list (string * string).

Fixpoint prop (key : string) (m : ControlMapping) : option string :=
  match m with
  | [] => None
  | (k, v) :: r => if String.eqb key k then Some v else prop key r
  end.

Inductive KeyType : Type := keydown | keyup.

Section Bridge.
(** [DEFAULT_CONTROLS] is imported from [../../types]; the embedding
    takes the table as a parameter. *)
Variable DEFAULT_CONTROLS : ControlMapping.

(** [getKeyboardCode(buttonType, controls)]; [None] is [null]. *)
Definition getKeyboardCode (buttonType : string)
    (controls : option ControlMapping) : option string :=
  let key := buttonType in
  let fallback := prop key DEFAULT_CONTROLS in
  match controls with
  | Some c =>
      match prop key c with
      | Some v => if truthy v then Some v else fallback
      | None => fallback
      end
  | None => fallback
  end.
End Bridge.

(** [getKeyName(code)]. *)
Definition getKeyName (code : string) : string :=
  if startsWith "Key" code then toLowerCase (slice 3 code)
  else if startsWith "Arrow" code then slice 5 code
  else if String.eqb code "Enter" then "Enter"
  else if (String.eqb code "ShiftRight" || String.eqb code "ShiftLeft")%bool
       then "Shift"
  else code.

(** The [KeyboardEvent] handed to [canvas.dispatchEvent]. *)
Record KeyboardEvent : Type := {
  type : KeyType;
  code : string;
  key : string;
  bubbles : bool;
  cancelable : bool
}.

(** [dispatchKeyboardEvent(type, code)]: [canvas] tells whether
    [getCanvas()] finds an element.  The result is the returned boolean
    and the events delivered to the canvas. *)
Definition dispatchKeyboardEvent (canvas : bool) (ty : KeyType)
    (c : string) : bool * list KeyboardEvent :=
  if negb canvas then (false, [])
  else (true, [ {| type := ty; code := c; key := getKeyName c;
                   bubbles := true; cancelable := true |} ]).

(** A call [dispatchKeyboardEvent(type, code)] made by a component, which
    ignores the returned boolean. *)
Record Dispatch : Type := dispatch { d_type : KeyType; d_code : string }.

(** What a sequence of calls delivers to the canvas. *)
Definition delivered (canvas : bool) (calls : list Dispatch)
    : list KeyboardEvent :=
  flat_map (fun d => snd (dispatchKeyboardEvent canvas (d_type d) (d_code d)))
           calls.

End KeyboardEvents.

(** ** The DOM values the handlers read *)
Module Dom.

(** A [Touch] of a [TouchEvent]. *)
Record Touch : Type := {
  identifier : nat;
  clientX : R;
  clientY : R
}.

(** The result of [getBoundingClientRect()]. *)
Record DOMRect : Type := {
  left : R;
  top : R;
  width : R;
  height : R
}.

End Dom.

(** ** The touch handler hook of a generic virtual button
       ([useTouchHandlers]) *)
Module TouchHandlers.
Import Js Dom.

Definition DRAG_HOLD_DELAY : nat := 350.
Definition DRAG_MOVE_THRESHOLD : R := 10.
Definition DRAG_CENTER_THRESHOLD : R := 4 / 10.

(** [UseTouchHandlersProps].  A callback is known by the calls made to
    it; for the optional ones the field tells whether it is configured. *)
Record Props : Type := {
  buttonType : string;
  isSystemButton : bool;
  buttonSize : R;
  displayX : R;
  displayY : R;
  containerWidth : R;
  containerHeight : R;
  onPressDown : bool;
  onPositionChange : bool
}.

(** What a handler does to the outside, in order. *)
Inductive Effect : Type :=
| Vibrate (pattern : list nat)
| OnPress (button : string)
| OnPressDown (button : string)
| OnRelease (button : string)
| OnPositionChange (x y : R).

(** The refs of the hook, and the hold timers registered so far that have
    neither fired nor been cleared (each with the touch coordinates its
    closure holds). *)
Record State : Type := {
  isDraggingRef : bool;
  dragStartRef : R * R;
  dragTimerRef : option nat;
  touchStartPosRef : R * R;
  holdTimers : timeouts (R * R)
}.

Definition initial : State :=
  {| isDraggingRef := false; dragStartRef := (0, 0); dragTimerRef := None;
     touchStartPosRef := (0, 0); holdTimers := noTimeouts |}.

Definition set_isDraggingRef (b : bool) (st : State) : State :=
  {| isDraggingRef := b; dragStartRef := dragStartRef st;
     dragTimerRef := dragTimerRef st;
     touchStartPosRef := touchStartPosRef st; holdTimers := holdTimers st |}.

Definition set_dragStartRef (p : R * R) (st : State) : State :=
  {| isDraggingRef := isDraggingRef st; dragStartRef := p;
     dragTimerRef := dragTimerRef st;
     touchStartPosRef := touchStartPosRef st; holdTimers := holdTimers st |}.

Definition set_touchStartPosRef (p : R * R) (st : State) : State :=
  {| isDraggingRef := isDraggingRef st; dragStartRef := dragStartRef st;
     dragTimerRef := dragTimerRef st;
     touchStartPosRef := p; holdTimers := holdTimers st |}.

Definition set_timer (r : option nat) (ts : timeouts (R * R)) (st : State)
    : State :=
  {| isDraggingRef := isDraggingRef st; dragStartRef := dragStartRef st;
     dragTimerRef := r;
     touchStartPosRef := touchStartPosRef st; holdTimers := ts |}.

Section Hook.
Variable props : Props.
(** Whether [navigator.vibrate] exists. *)
Variable vibrate : bool.

Definition haptic (pattern : list nat) : list Effect :=
  if vibrate then [Vibrate pattern] else [].

Definition clearDragTimer (st : State) : State :=
  match dragTimerRef st with
  | Some id => set_timer None (clearTimeout id (holdTimers st)) st
  | None => st
  end.

Definition startDragging (touchX touchY : R) (st : State)
    : State * list Effect :=
  let st := set_isDraggingRef true st in
  let st :=
    set_dragStartRef
      (touchX - (displayX props / 100) * containerWidth props,
       touchY - (displayY props / 100) * containerHeight props) st in
  (st,
   haptic [10; 30; 10]%nat
   ++ (if negb (isSystemButton props) then [OnRelease (buttonType props)]
       else [])).

(** [touch] is [e.touches[0]], [currentTarget] the rectangle of
    [e.currentTarget] when there is one. *)
Definition handleTouchStart (touch : Touch)
    (currentTarget : option DOMRect) (st : State) : State * list Effect :=
  let st := set_touchStartPosRef (clientX touch, clientY touch) st in
  let effects :=
    haptic [8%nat]
    ++ (if isSystemButton props then [OnPress (buttonType props)]
        else if onPressDown props then [OnPressDown (buttonType props)]
        else []) in
  if onPositionChange props then
    match currentTarget with
    | None => (st, effects)
    | Some rect =>
        let centerX := left rect + width rect / 2 in
        let centerY := top rect + height rect / 2 in
        let distance :=
          hypot (clientX touch - centerX) (clientY touch - centerY) in
        let dragThreshold := buttonSize props * DRAG_CENTER_THRESHOLD in
        if ltb distance dragThreshold then
          let (id, ts) :=
            setTimeout (clientX touch, clientY touch) (holdTimers st) in
          (set_timer (Some id) ts st, effects)
        else (st, effects)
    end
  else (st, effects).

(** The hold timer [id] fires (after [DRAG_HOLD_DELAY]). *)
Definition holdTimerFires (id : nat) (st : State) : State * list Effect :=
  match callbackOf id (holdTimers st) with
  | None => (st, [])
  | Some (touchX, touchY) =>
      let st :=
        set_timer (dragTimerRef st) (clearTimeout id (holdTimers st)) st in
      if negb (isDraggingRef st) then startDragging touchX touchY st
      else (st, [])
  end.

Definition handleTouchMove (touch : Touch) (st : State)
    : State * list Effect :=
  let '(st, effects) :=
    if (onPositionChange props && negb (isDraggingRef st))%bool then
      let moveDistance :=
        hypot (clientX touch - fst (touchStartPosRef st))
              (clientY touch - snd (touchStartPosRef st)) in
      if gtb moveDistance DRAG_MOVE_THRESHOLD then
        startDragging (clientX touch) (clientY touch) (clearDragTimer st)
      else (st, [])
    else (st, []) in
  if (isDraggingRef st && onPositionChange props)%bool then
    let newX := clientX touch - fst (dragStartRef st) in
    let newY := clientY touch - snd (dragStartRef st) in
    let newXPercent := (newX / containerWidth props) * 100 in
    let newYPercent := (newY / containerHeight props) * 100 in
    let margin :=
      (buttonSize props / 2
       / Rmin (containerWidth props) (containerHeight props)) * 100 in
    let constrainedX := Rmax margin (Rmin (100 - margin) newXPercent) in
    let constrainedY := Rmax margin (Rmin (100 - margin) newYPercent) in
    (st, effects ++ [OnPositionChange constrainedX constrainedY])
  else (st, effects).

Definition handleTouchEnd (st : State) : State * list Effect :=
  let st := clearDragTimer st in
  if isDraggingRef st then (set_isDraggingRef false st, [])
  else (st, if negb (isSystemButton props)
            then [OnRelease (buttonType props)] else []).

Definition handleTouchCancel (st : State) : State * list Effect :=
  let st := clearDragTimer st in
  if isDraggingRef st then (set_isDraggingRef false st, [])
  else (st, if negb (isSystemButton props)
            then [OnRelease (buttonType props)] else []).

Definition cleanup (st : State) : State := clearDragTimer st.

(** What can happen to a button. *)
Inductive Event : Type :=
| TouchStart (touch : Touch) (currentTarget : option DOMRect)
| TouchMove (touch : Touch)
| TouchEnd
| TouchCancel
| HoldTimer (id : nat).

Definition step (ev : Event) (st : State) : State * list Effect :=
  match ev with
  | TouchStart touch target => handleTouchStart touch target st
  | TouchMove touch => handleTouchMove touch st
  | TouchEnd => handleTouchEnd st
  | TouchCancel => handleTouchCancel st
  | HoldTimer id => holdTimerFires id st
  end.

(** Running a sequence of events, collecting the effects. *)
Fixpoint run (evs : list Event) (st : State) : State * list Effect :=
  match evs with
  | [] => (st, [])
  | ev :: rest =>
      let (st1, out1) := step ev st in
      let (st2, out2) := run rest st1 in
      (st2, out1 ++ out2)
  end.

(** The states the hook can be in. *)
Inductive reachable : State -> Prop :=
| reachable_initial : reachable initial
| reachable_step : forall st ev,
    reachable st -> reachable (fst (step ev st)).
End Hook.

End TouchHandlers.

(** ** The directional pad ([Dpad]) *)
Module Dpad.
Import Js Dom KeyboardEvents.
Open Scope string_scope.
Open Scope list_scope.

Inductive Direction : Type := up | down | left | right.

Definition Direction_eqb (a b : Direction) : bool :=
  match a, b with
  | up, up | down, down | left, left | right, right => true
  | _, _ => false
  end.

Definition directionName (d : Direction) : string :=
  match d with
  | up => "up" | down => "down" | left => "left" | right => "right"
  end.

Definition DRAG_HOLD_DELAY : nat := 350.
Definition CENTER_TOUCH_RADIUS : R := 25 / 100.

(** [DpadProps], without the colours. *)
Record Props : Type := {
  size : R;
  x : R;
  y : R;
  containerWidth : R;
  containerHeight : R;
  controls : option ControlMapping;
  customPosition : option (R * R);
  onPositionChange : bool
}.

(** What a handler does to the outside, in order ([updateVisuals] only
    restyles the pad and is left out). *)
Inductive Effect : Type :=
| Key (call : Dispatch)
| Vibrate (pattern : list nat)
| OnPositionChange (x y : R).

(** [dragStartRef.current]. *)
Record DragStart : Type := {
  ds_x : R;
  ds_y : R;
  ds_touchX : R;
  ds_touchY : R
}.

(** The refs and the state of the pad, and its pending hold timers. *)
Record State : Type := {
  activeTouchRef : option nat;
  activeDirectionsRef : list Direction;
  isDragging : bool;
  dragTimerRef : option nat;
  dragStartRef : DragStart;
  touchStartPosRef : R * R;
  holdTimers : timeouts (R * R)
}.

Definition initial : State :=
  {| activeTouchRef := None; activeDirectionsRef := []; isDragging := false;
     dragTimerRef := None; dragStartRef := Build_DragStart 0 0 0 0;
     touchStartPosRef := (0, 0); holdTimers := noTimeouts |}.

Definition set_activeTouchRef (t : option nat) (st : State) : State :=
  {| activeTouchRef := t; activeDirectionsRef := activeDirectionsRef st;
     isDragging := isDragging st; dragTimerRef := dragTimerRef st;
     dragStartRef := dragStartRef st; touchStartPosRef := touchStartPosRef st;
     holdTimers := holdTimers st |}.

Definition set_activeDirectionsRef (ds : list Direction) (st : State) : State :=
  {| activeTouchRef := activeTouchRef st; activeDirectionsRef := ds;
     isDragging := isDragging st; dragTimerRef := dragTimerRef st;
     dragStartRef := dragStartRef st; touchStartPosRef := touchStartPosRef st;
     holdTimers := holdTimers st |}.

Definition setIsDragging (b : bool) (st : State) : State :=
  {| activeTouchRef := activeTouchRef st;
     activeDirectionsRef := activeDirectionsRef st;
     isDragging := b; dragTimerRef := dragTimerRef st;
     dragStartRef := dragStartRef st; touchStartPosRef := touchStartPosRef st;
     holdTimers := holdTimers st |}.

Definition set_timer (r : option nat) (ts : timeouts (R * R)) (st : State)
    : State :=
  {| activeTouchRef := activeTouchRef st;
     activeDirectionsRef := activeDirectionsRef st;
     isDragging := isDragging st; dragTimerRef := r;
     dragStartRef := dragStartRef st; touchStartPosRef := touchStartPosRef st;
     holdTimers := ts |}.

Definition set_dragStartRef (d : DragStart) (st : State) : State :=
  {| activeTouchRef := activeTouchRef st;
     activeDirectionsRef := activeDirectionsRef st;
     isDragging := isDragging st; dragTimerRef := dragTimerRef st;
     dragStartRef := d; touchStartPosRef := touchStartPosRef st;
     holdTimers := holdTimers st |}.

Definition set_touchStartPosRef (p : R * R) (st : State) : State :=
  {| activeTouchRef := activeTouchRef st;
     activeDirectionsRef := activeDirectionsRef st;
     isDragging := isDragging st; dragTimerRef := dragTimerRef st;
     dragStartRef := dragStartRef st; touchStartPosRef := p;
     holdTimers := holdTimers st |}.

(** [getDirectionsFromTouch(touchX, touchY, rect)]; it reads no prop. *)
Definition getDirectionsFromTouch (touchX touchY : R) (rect : DOMRect)
    : list Direction :=
  let centerX := Dom.left rect + width rect / 2 in
  let centerY := top rect + height rect / 2 in
  let dx := touchX - centerX in
  let dy := touchY - centerY in
  let distance := sqrt (dx * dx + dy * dy) in
  let deadZone := (width rect / 2) * (15 / 100) in
  if ltb distance deadZone then []
  else
    let directions := [] in
    let angle := atan2 dy dx * (180 / PI) in
    let directions :=
      if (geb angle (-150) && leb angle (-30))%bool
      then add Direction_eqb up directions else directions in
    let directions :=
      if (geb angle 30 && leb angle 150)%bool
      then add Direction_eqb down directions else directions in
    let directions :=
      if (geb angle 120 || leb angle (-120))%bool
      then add Direction_eqb left directions else directions in
    let directions :=
      if (geb angle (-60) && leb angle 60)%bool
      then add Direction_eqb right directions else directions in
    directions.

Section Pad.
Variable props : Props.
(** Whether [navigator.vibrate] exists. *)
Variable vibrate : bool.

Definition displayX : R :=
  match customPosition props with Some p => fst p | None => x props end.
Definition displayY : R :=
  match customPosition props with Some p => snd p | None => y props end.

(** [getKeyCode(direction)]. *)
Definition getKeyCode (direction : Direction) : string :=
  match controls props with
  | None =>
      match direction with
      | up => "ArrowUp"
      | down => "ArrowDown"
      | left => "ArrowLeft"
      | right => "ArrowRight"
      end
  | Some c =>
      match prop (directionName direction) c with
      | Some v => if truthy v then v else ""
      | None => ""
      end
  end.

(** The body of the [forEach] that releases a direction. *)
Definition releaseKey (dir : Direction) : list Effect :=
  let keyCode := getKeyCode dir in
  if truthy keyCode then [Key (dispatch keyup keyCode)] else [].

(** The body of the [forEach] that engages a direction. *)
Definition engageKey (dir : Direction) : list Effect :=
  let keyCode := getKeyCode dir in
  if truthy keyCode
  then (if vibrate then [Vibrate [5%nat]] else [])
       ++ [Key (dispatch keydown keyCode)]
  else [].

(** [updateDirections(newDirections)]. *)
Definition updateDirections (newDirections : list Direction) (st : State)
    : State * list Effect :=
  let prev := activeDirectionsRef st in
  let ups :=
    flat_map (fun dir => if negb (has Direction_eqb dir newDirections)
                         then releaseKey dir else []) prev in
  let downs :=
    flat_map (fun dir => if negb (has Direction_eqb dir prev)
                         then engageKey dir else []) newDirections in
  (set_activeDirectionsRef newDirections st, ups ++ downs).

Definition clearDragTimer (st : State) : State :=
  match dragTimerRef st with
  | Some id => set_timer None (clearTimeout id (holdTimers st)) st
  | None => st
  end.

Definition startDragging (touchX touchY : R) (st : State)
    : State * list Effect :=
  let st := setIsDragging true st in
  let st :=
    set_dragStartRef
      {| ds_x := displayX; ds_y := displayY;
         ds_touchX := touchX; ds_touchY := touchY |} st in
  let ups := flat_map releaseKey (activeDirectionsRef st) in
  let st := set_activeDirectionsRef [] st in
  (st, ups ++ (if vibrate then [Vibrate [10; 30; 10]%nat] else [])).

(** [first] is [e.changedTouches[0]]; [rect] is
    [dpadRef.current?.getBoundingClientRect()]. *)
Definition handleTouchStart (first : Touch) (rect : option DOMRect)
    (st : State) : State * list Effect :=
  match activeTouchRef st with
  | Some _ => (st, [])
  | None =>
      let touch := first in
      let st := set_activeTouchRef (Some (identifier touch)) st in
      let st := set_touchStartPosRef (clientX touch, clientY touch) st in
      match rect with
      | None => (st, [])
      | Some rect =>
          let centerX := Dom.left rect + width rect / 2 in
          let centerY := top rect + height rect / 2 in
          let distFromCenter :=
            hypot (clientX touch - centerX) (clientY touch - centerY) in
          let centerRadius := size props * CENTER_TOUCH_RADIUS in
          let st :=
            if (ltb distFromCenter centerRadius && onPositionChange props)%bool
            then
              let (id, ts) :=
                setTimeout (clientX touch, clientY touch) (holdTimers st) in
              set_timer (Some id) ts st
            else st in
          if negb (isDragging st) then
            updateDirections
              (getDirectionsFromTouch (clientX touch) (clientY touch) rect) st
          else (st, [])
      end
  end.

(** The hold timer [id] fires (after [DRAG_HOLD_DELAY]). *)
Definition holdTimerFires (id : nat) (st : State) : State * list Effect :=
  match callbackOf id (holdTimers st) with
  | None => (st, [])
  | Some (touchX, touchY) =>
      startDragging touchX touchY
        (set_timer (dragTimerRef st) (clearTimeout id (holdTimers st)) st)
  end.

(** The loop over [e.changedTouches] looking for the tracked touch. *)
Definition findTouch (active : option nat) (changedTouches : list Touch)
    : option Touch :=
  match active with
  | None => None
  | Some id => find (fun t => Nat.eqb (identifier t) id) changedTouches
  end.

Definition handleTouchMove (changedTouches : list Touch)
    (rect : option DOMRect) (st : State) : State * list Effect :=
  match findTouch (activeTouchRef st) changedTouches with
  | None => (st, [])
  | Some touch =>
      if (isDragging st && onPositionChange props)%bool then
        let deltaX := clientX touch - ds_touchX (dragStartRef st) in
        let deltaY := clientY touch - ds_touchY (dragStartRef st) in
        let newXPercent :=
          ds_x (dragStartRef st) + (deltaX / containerWidth props) * 100 in
        let newYPercent :=
          ds_y (dragStartRef st) + (deltaY / containerHeight props) * 100 in
        let margin :=
          (size props / 2
           / Rmin (containerWidth props) (containerHeight props)) * 100 in
        let constrainedX := Rmax margin (Rmin (100 - margin) newXPercent) in
        let constrainedY := Rmax margin (Rmin (100 - margin) newYPercent) in
        (st, [OnPositionChange constrainedX constrainedY])
      else
        let moveDistance :=
          hypot (clientX touch - fst (touchStartPosRef st))
                (clientY touch - snd (touchStartPosRef st)) in
        let st := if gtb moveDistance 15 then clearDragTimer st else st in
        match rect with
        | Some rect =>
            updateDirections
              (getDirectionsFromTouch (clientX touch) (clientY touch) rect) st
        | None => (st, [])
        end
  end.

(** Registered for both [touchend] and [touchcancel]. *)
Definition handleTouchEnd (changedTouches : list Touch) (st : State)
    : State * list Effect :=
  let st := clearDragTimer st in
  let touchEnded :=
    match findTouch (activeTouchRef st) changedTouches with
    | Some _ => true
    | None => false
    end in
  if touchEnded then
    let st := set_activeTouchRef None st in
    if isDragging st then (setIsDragging false st, [])
    else
      let ups := flat_map releaseKey (activeDirectionsRef st) in
      (set_activeDirectionsRef [] st, ups)
  else (st, []).

(** What can happen to the pad. *)
Inductive Event : Type :=
| TouchStart (first : Touch) (rect : option DOMRect)
| TouchMove (changedTouches : list Touch) (rect : option DOMRect)
| TouchEnd (changedTouches : list Touch)
| TouchCancel (changedTouches : list Touch)
| HoldTimer (id : nat).

Definition step (ev : Event) (st : State) : State * list Effect :=
  match ev with
  | TouchStart first rect => handleTouchStart first rect st
  | TouchMove touches rect => handleTouchMove touches rect st
  | TouchEnd touches => handleTouchEnd touches st
  | TouchCancel touches => handleTouchEnd touches st
  | HoldTimer id => holdTimerFires id st
  end.

(** Running a sequence of events, collecting the effects. *)
Fixpoint run (evs : list Event) (st : State) : State * list Effect :=
  match evs with
  | [] => (st, [])
  | ev :: rest =>
      let (st1, out1) := step ev st in
      let (st2, out2) := run rest st1 in
      (st2, out1 ++ out2)
  end.

(** The states the pad can be in. *)
Inductive reachable : State -> Prop :=
| reachable_initial : reachable initial
| reachable_step : forall st ev,
    reachable st -> reachable (fst (step ev st)).

End Pad.

End Dpad.

(** ** The container ([VirtualController]): pressed set and key dispatch *)
Module VirtualController.
Import Js KeyboardEvents.
Open Scope string_scope.
Open Scope list_scope.

Definition SYSTEM_BUTTONS : list string := ["start"; "select"; "menu"].

(** [list.includes(s)]. *)
Definition includes (l : list string) (s : string) : bool :=
  existsb (String.eqb s) l.
Arguments includes : simpl never.

(** [!keyboardCode] for a [string | null]. *)
Definition noCode (keyboardCode : option string) : bool :=
  match keyboardCode with
  | Some c => negb (truthy c)
  | None => true
  end.

(** The [isRunning] prop as last rendered, the [pressedButtons] state, and
    the pending tap-release timers of [handlePress] (each with the
    [keyboardCode] and [buttonType] its closure holds). *)
Record State : Type := {
  isRunning : bool;
  pressedButtons : list string;
  tapTimers : timeouts (string * string)
}.

Definition initial (running : bool) : State :=
  {| isRunning := running; pressedButtons := []; tapTimers := noTimeouts |}.

Definition setPressedButtons (f : list string -> list string) (st : State)
    : State :=
  {| isRunning := isRunning st; pressedButtons := f (pressedButtons st);
     tapTimers := tapTimers st |}.

Definition set_tapTimers (ts : timeouts (string * string)) (st : State)
    : State :=
  {| isRunning := isRunning st; pressedButtons := pressedButtons st;
     tapTimers := ts |}.

Definition set_isRunning (b : bool) (st : State) : State :=
  {| isRunning := b; pressedButtons := pressedButtons st;
     tapTimers := tapTimers st |}.

Section Container.
Variable DEFAULT_CONTROLS : ControlMapping.
(** The [controls] prop. *)
Variable controls : option ControlMapping.

Definition getButtonKeyboardCode (buttonType : string) : option string :=
  getKeyboardCode DEFAULT_CONTROLS buttonType controls.

(** [handlePress(buttonType)]: tap, with the release 100 ms later. *)
Definition handlePress (buttonType : string) (st : State)
    : State * list Dispatch :=
  let isSystemButton := includes SYSTEM_BUTTONS buttonType in
  if (negb isSystemButton && negb (isRunning st))%bool then (st, [])
  else
    match getButtonKeyboardCode buttonType with
    | None => (st, [])
    | Some keyboardCode =>
        if negb (truthy keyboardCode) then (st, [])
        else
          let st :=
            setPressedButtons (fun prev => add String.eqb buttonType prev) st in
          let (_, ts) := setTimeout (keyboardCode, buttonType) (tapTimers st) in
          (set_tapTimers ts st, [dispatch keydown keyboardCode])
    end.

(** The callback [handlePress] scheduled fires. *)
Definition tapTimerFires (id : nat) (st : State) : State * list Dispatch :=
  match callbackOf id (tapTimers st) with
  | None => (st, [])
  | Some (keyboardCode, buttonType) =>
      let st := set_tapTimers (clearTimeout id (tapTimers st)) st in
      (setPressedButtons (fun prev => delete String.eqb buttonType prev) st,
       [dispatch keyup keyboardCode])
  end.

(** [handlePressDown(buttonType)]. *)
Definition handlePressDown (buttonType : string) (st : State)
    : State * list Dispatch :=
  if negb (isRunning st) then (st, [])
  else
    let isSystemButton := includes SYSTEM_BUTTONS buttonType in
    if isSystemButton then (st, [])
    else
      match getButtonKeyboardCode buttonType with
      | None => (st, [])
      | Some keyboardCode =>
          if negb (truthy keyboardCode) then (st, [])
          else
            (setPressedButtons
               (fun prev => if has String.eqb buttonType prev then prev
                            else add String.eqb buttonType prev) st,
             [dispatch keydown keyboardCode])
      end.

(** [handleRelease(buttonType)]. *)
Definition handleRelease (buttonType : string) (st : State)
    : State * list Dispatch :=
  let isSystemButton := includes SYSTEM_BUTTONS buttonType in
  if isSystemButton then (st, [])
  else
    match getButtonKeyboardCode buttonType with
    | None => (st, [])
    | Some keyboardCode =>
        if negb (truthy keyboardCode) then (st, [])
        else
          (setPressedButtons
             (fun prev => if negb (has String.eqb buttonType prev) then prev
                          else delete String.eqb buttonType prev) st,
           [dispatch keyup keyboardCode])
    end.

(** The [forEach] of the release-all effect over the rendered set. *)
Fixpoint releaseEach (rendered : list string) (st : State)
    : State * list Dispatch :=
  match rendered with
  | [] => (st, [])
  | buttonType :: rest =>
      let (st1, out1) :=
        if negb (includes SYSTEM_BUTTONS buttonType)
        then handleRelease buttonType st else (st, []) in
      let (st2, out2) := releaseEach rest st1 in
      (st2, out1 ++ out2)
  end.

(** The effect on [isRunning, pressedButtons, handleRelease]. *)
Definition releaseAllEffect (st : State) : State * list Dispatch :=
  if (negb (isRunning st) && Nat.ltb 0 (List.length (pressedButtons st)))%bool
  then
    let (st1, out) := releaseEach (pressedButtons st) st in
    (setPressedButtons (fun _ => []) st1, out)
  else (st, []).

(** What can happen to the container: a button callback, a new value of
    the [isRunning] prop, a tap-release timer. *)
Inductive Event : Type :=
| Press (buttonType : string)
| PressDown (buttonType : string)
| Release (buttonType : string)
| Running (running : bool)
| TapTimer (id : nat).

Definition handle (ev : Event) (st : State) : State * list Dispatch :=
  match ev with
  | Press b => handlePress b st
  | PressDown b => handlePressDown b st
  | Release b => handleRelease b st
  | Running r => (set_isRunning r st, [])
  | TapTimer id => tapTimerFires id st
  end.

(** A handler, then the render it causes, whose effects run. *)
Definition step (ev : Event) (st : State) : State * list Dispatch :=
  let (st1, out1) := handle ev st in
  let (st2, out2) := releaseAllEffect st1 in
  (st2, out1 ++ out2).

Fixpoint run (evs : list Event) (st : State) : State * list Dispatch :=
  match evs with
  | [] => (st, [])
  | ev :: rest =>
      let (st1, out1) := step ev st in
      let (st2, out2) := run rest st1 in
      (st2, out1 ++ out2)
  end.

Inductive reachable : State -> Prop :=
| reachable_initial : forall running, reachable (initial running)
| reachable_step : forall st ev,
    reachable st -> reachable (fst (step ev st)).

End Container.

End VirtualController.

(** ** A generic button inside the container

    The container renders each button with [onPress={handlePress}],
    [onPressDown={handlePressDown}] and [onRelease={handleRelease}]; the
    button's gestures are resolved by the touch handler hook. *)
Module VirtualButton.
Import Js Dom KeyboardEvents.
Open Scope list_scope.

Record State : Type := {
  hook : TouchHandlers.State;
  container : VirtualController.State
}.

Section Wiring.
Variable DEFAULT_CONTROLS : ControlMapping.
Variable controls : option ControlMapping.
Variable props : TouchHandlers.Props.
Variable vibrate : bool.

Definition initial (running : bool) : State :=
  {| hook := TouchHandlers.initial;
     container := VirtualController.initial running |}.

(** The container's side of one effect of the hook. *)
Definition callback (e : TouchHandlers.Effect)
    : option VirtualController.Event :=
  match e with
  | TouchHandlers.OnPress b => Some (VirtualController.Press b)
  | TouchHandlers.OnPressDown b => Some (VirtualController.PressDown b)
  | TouchHandlers.OnRelease b => Some (VirtualController.Release b)
  | TouchHandlers.Vibrate _ => None
  | TouchHandlers.OnPositionChange _ _ => None
  end.

Fixpoint callbacks (es : list TouchHandlers.Effect)
    : list VirtualController.Event :=
  match es with
  | [] => []
  | e :: rest =>
      match callback e with
      | Some ev => ev :: callbacks rest
      | None => callbacks rest
      end
  end.

Inductive Event : Type :=
| Gesture (ev : TouchHandlers.Event)
| Container (ev : VirtualController.Event).

Definition step (ev : Event) (st : State) : State * list Dispatch :=
  match ev with
  | Gesture g =>
      let (h, effects) := TouchHandlers.step props vibrate g (hook st) in
      let (c, out) :=
        VirtualController.run DEFAULT_CONTROLS controls (callbacks effects)
                              (container st) in
      ({| hook := h; container := c |}, out)
  | Container e =>
      let (c, out) :=
        VirtualController.step DEFAULT_CONTROLS controls e (container st) in
      ({| hook := hook st; container := c |}, out)
  end.

Fixpoint run (evs : list Event) (st : State) : State * list Dispatch :=
  match evs with
  | [] => (st, [])
  | ev :: rest =>
      let (st1, out1) := step ev st in
      let (st2, out2) := run rest st1 in
      (st2, out1 ++ out2)
  end.

Inductive reachable : State -> Prop :=
| reachable_initial : forall running, reachable (initial running)
| reachable_step : forall st ev,
    reachable st -> reachable (fst (step ev st)).

End Wiring.

End VirtualButton.

(** ** The button component ([VirtualButton]) *)
Module ButtonComponent.
Import Js.
Open Scope string_scope.
Open Scope list_scope.

(** The fields of a [ButtonConfig] the component computes with. *)
Record ButtonConfig : Type := {
  type : string;
  x : R;
  y : R;
  size : R
}.

Section Component.
Variable config : ButtonConfig.
Variable customPosition : option (R * R).
Variable containerWidth containerHeight : R.

Definition isSystemButton : bool :=
  (String.eqb (type config) "start" || String.eqb (type config) "select"
   || String.eqb (type config) "menu")%bool.

Definition displayX : R :=
  match customPosition with Some p => fst p | None => x config end.
Definition displayY : R :=
  match customPosition with Some p => snd p | None => y config end.

(** The props handed to [useTouchHandlers]; [onPressDown] and
    [onPositionChange] tell whether the optional callbacks were given. *)
Definition hookProps (onPressDown onPositionChange : bool)
    : TouchHandlers.Props :=
  {| TouchHandlers.buttonType := type config;
     TouchHandlers.isSystemButton := isSystemButton;
     TouchHandlers.buttonSize := size config;
     TouchHandlers.displayX := displayX;
     TouchHandlers.displayY := displayY;
     TouchHandlers.containerWidth := containerWidth;
     TouchHandlers.containerHeight := containerHeight;
     TouchHandlers.onPressDown := onPressDown;
     TouchHandlers.onPositionChange := onPositionChange |}.

End Component.

End ButtonComponent.

(** ** The layout lock ([useControllerLayout]) *)
Module ControllerLayout.

Inductive Effect : Type := OnPause | OnResume.

(** The [isLocked] state; the layout starts locked. *)
Definition initial : bool := true.

(** [toggleLock()]. *)
Definition toggleLock (isLocked : bool) : bool * list Effect :=
  let newValue := negb isLocked in
  (newValue, if newValue then [OnResume] else [OnPause]).

Fixpoint toggles (n : nat) (isLocked : bool) : bool * list Effect :=
  match n with
  | O => (isLocked, [])
  | S m =>
      let (l1, out1) := toggleLock isLocked in
      let (l2, out2) := toggles m l1 in
      (l2, out1 ++ out2)
  end.

End ControllerLayout.

(* ================================================================== *)
(** * Part II: the statements under examination and the scenarios      *)
(* ================================================================== *)

(** ** Key names *)
Module KeyNameSpec.
Import Js KeyboardEvents.
Open Scope string_scope.

(** [stripPrefix p s] is the rest of [s] after a leading [p], if [s] starts
    with [p]. *)
Fixpoint stripPrefix (p s : string) : option string :=
  match p, s with
  | EmptyString, _ => Some s
  | String _ _, EmptyString => None
  | String a p', String b s' =>
      if Ascii.eqb a b then stripPrefix p' s' else None
  end.

(** The derivation of the key name with a transformation [f] applied to
    what follows a leading "Key". *)
Definition derivation (f : string -> string) (code : string) : string :=
  match stripPrefix "Key" code with
  | Some rest => f rest
  | None =>
      match stripPrefix "Arrow" code with
      | Some rest => rest
      | None =>
          if String.eqb code "Enter" then "Enter"
          else if String.eqb code "ShiftLeft" then "Shift"
          else if String.eqb code "ShiftRight" then "Shift"
          else code
      end
  end.

(** The derivation as worded: the "Key" prefix is stripped and nothing
    else happens to the rest. *)
Definition keyNameStripOnly : string -> string := derivation (fun rest => rest).

(** The derivation with the rest after "Key" put in lower case. *)
Definition keyNameLowered : string -> string := derivation toLowerCase.

End KeyNameSpec.

(** ** Reported drag positions *)
Module DragSpec.

(** The margin of a control of the given size in a container: half the
    size as a percentage of the smaller container dimension. *)
Definition margin (size containerWidth containerHeight : R) : R :=
  (size / 2 / Rmin containerWidth containerHeight) * 100.

(** A reported position lies between the margin and 100 minus the margin
    in both axes. *)
Definition withinMargins (size containerWidth containerHeight x y : R)
    : Prop :=
  let m := margin size containerWidth containerHeight in
  (m <= x <= 100 - m) /\ (m <= y <= 100 - m).

(** A reported position is not below the margin in either axis. *)
Definition aboveMargin (size containerWidth containerHeight x y : R) : Prop :=
  let m := margin size containerWidth containerHeight in
  m <= x /\ m <= y.

End DragSpec.

(** ** Gestures on a generic button *)
Module ButtonSpec.
Import Js Dom TouchHandlers.

(** The distance of a touch from the centre of a rectangle. *)
Definition distanceFromCenter (touch : Touch) (rect : DOMRect) : R :=
  hypot (clientX touch - (left rect + width rect / 2))
        (clientY touch - (top rect + height rect / 2)).

(** The distance of a touch from the recorded touch-start point. *)
Definition distanceFromStart (touch : Touch) (st : State) : R :=
  hypot (clientX touch - fst (touchStartPosRef st))
        (clientY touch - snd (touchStartPosRef st)).





(** The effects of a touch-start (the tap pulse, then the press) and the
    position a drag reports for a touch. *)
Definition startEffects (p : Props) (vibrate : bool) : list Effect :=
  haptic vibrate [8%nat]
  ++ (if isSystemButton p then [OnPress (buttonType p)]
      else if onPressDown p then [OnPressDown (buttonType p)] else []).

Definition reported (p : Props) (touch : Touch) (st : State) : Effect :=
  let m :=
    (buttonSize p / 2 / Rmin (containerWidth p) (containerHeight p)) * 100 in
  OnPositionChange
    (Rmax m (Rmin (100 - m)
       ((clientX touch - fst (dragStartRef st)) / containerWidth p * 100)))
    (Rmax m (Rmin (100 - m)
       ((clientY touch - snd (dragStartRef st)) / containerHeight p * 100))).

(** A button of size 100 at the middle of a 400 by 800 container, with its
    rectangle, and a touch 30 pixels right of its centre. *)
Definition button100 : Props :=
  {| buttonType := "a"; isSystemButton := false; buttonSize := 100;
     displayX := 50; displayY := 50;
     containerWidth := 400; containerHeight := 800;
     onPressDown := true; onPositionChange := true |}.

Definition rect100 : DOMRect :=
  {| left := 150; top := 350; width := 100; height := 100 |}.

Definition touchAt (x y : R) : Touch :=
  {| identifier := 0; clientX := x; clientY := y |}.



(** A button of size 180 in a 100 by 100 container. *)
Definition button180 : Props :=
  {| buttonType := "a"; isSystemButton := false; buttonSize := 180;
     displayX := 50; displayY := 50;
     containerWidth := 100; containerHeight := 100;
     onPressDown := true; onPositionChange := true |}.

Definition rect180 : DOMRect :=
  {| left := -40; top := -40; width := 180; height := 180 |}.

End ButtonSpec.

(** ** The pressed set of the container *)
Module ContainerSpec.
Import Js KeyboardEvents VirtualController.
Open Scope string_scope.
Open Scope list_scope.

(** A mapping that gives the button "a" the key X and the start button
    the Enter key, with no built-in defaults behind it. *)
Definition someControls : option ControlMapping :=
  Some [("a", "KeyX"); ("start", "Enter")].

Definition noDefaults : ControlMapping := [].

(** The running container with "a" held. *)
Definition holdingA : State :=
  fst (run noDefaults someControls [PressDown "a"] (initial true)).

(** The running container with "a" held and a tap on start under way. *)
Definition holdingA_tappedStart : State :=
  fst (run noDefaults someControls [PressDown "a"; Press "start"]
           (initial true)).

(** What the release-all effect dispatches for one rendered button. *)
Definition releaseOut (DEFAULT_CONTROLS : ControlMapping)
    (controls : option ControlMapping) (buttonType : string)
    : list Dispatch :=
  if includes SYSTEM_BUTTONS buttonType then []
  else
    match getButtonKeyboardCode DEFAULT_CONTROLS controls buttonType with
    | Some code => if truthy code then [dispatch keyup code] else []
    | None => []
    end.

(** Every button of the pressed set has a key code. *)
Definition coded (DEFAULT_CONTROLS : ControlMapping)
    (controls : option ControlMapping) (st : State) : Prop :=
  forall b, In b (pressedButtons st) ->
    noCode (getButtonKeyboardCode DEFAULT_CONTROLS controls b) = false.

(** A handler call is idle: it changes nothing and dispatches nothing. *)
Definition idle (result : State * list Dispatch) (st : State) : Prop :=
  result = (st, []).

End ContainerSpec.

(** ** The pad: direction sets and their key events *)
Module PadSpec.
Import Js Dom KeyboardEvents Dpad.
Open Scope string_scope.
Open Scope list_scope.

(** The calls to the keyboard bridge among the effects of a handler. *)
Fixpoint keyEvents (out : list Effect) : list Dispatch :=
  match out with
  | [] => []
  | Key call :: rest => call :: keyEvents rest
  | _ :: rest => keyEvents rest
  end.

(** The directions of [prev] that are not in [next], and those of [next]
    that are not in [prev]. *)
Definition leaving (prev next : list Direction) : list Direction :=
  filter (fun d => negb (has Direction_eqb d next)) prev.

Definition entering (prev next : list Direction) : list Direction :=
  filter (fun d => negb (has Direction_eqb d prev)) next.

(** A direction has a key code. *)
Definition mapped (p : Props) (d : Direction) : bool :=
  truthy (getKeyCode p d).

(** The key events of a recomputation as worded: one keyup per leaving
    direction, one keydown per entering direction, and nothing else. *)
Definition deltaAsWorded (p : Props) (prev next : list Direction)
    (out : list Effect) : Prop :=
  keyEvents out
  = map (fun d => dispatch keyup (getKeyCode p d)) (leaving prev next)
    ++ map (fun d => dispatch keydown (getKeyCode p d)) (entering prev next).

(** The same over the directions that have a key code. *)
Definition deltaOfMapped (p : Props) (prev next : list Direction)
    (out : list Effect) : Prop :=
  keyEvents out
  = map (fun d => dispatch keyup (getKeyCode p d))
        (filter (mapped p) (leaving prev next))
    ++ map (fun d => dispatch keydown (getKeyCode p d))
           (filter (mapped p) (entering prev next)).

(** The distance of a touch from the centre of the pad's rectangle, the
    dead zone, and the angle of the touch in degrees. *)
Definition centerX (rect : DOMRect) : R := Dom.left rect + width rect / 2.
Definition centerY (rect : DOMRect) : R := top rect + height rect / 2.

Definition padDistance (touchX touchY : R) (rect : DOMRect) : R :=
  sqrt ((touchX - centerX rect) * (touchX - centerX rect)
        + (touchY - centerY rect) * (touchY - centerY rect)).

Definition deadZone (rect : DOMRect) : R := (width rect / 2) * (15 / 100).

Definition padAngle (touchX touchY : R) (rect : DOMRect) : R :=
  atan2 (touchY - centerY rect) (touchX - centerX rect) * (180 / PI).

(** While dragging, no direction is active, the position callback is
    configured and a touch is tracked; without a tracked touch no direction
    is active and no hold timer is pending; a pending hold timer is the one
    the pad holds, and was registered with the position callback
    configured. *)
Record Inv (p : Props) (st : State) : Prop := {
  inv_drag :
    isDragging st = true ->
    activeDirectionsRef st = [] /\ onPositionChange p = true
    /\ activeTouchRef st <> None;
  inv_idle :
    activeTouchRef st = None ->
    activeDirectionsRef st = [] /\ pending (holdTimers st) = [];
  inv_timers :
    forall q, In q (pending (holdTimers st)) ->
      onPositionChange p = true /\ dragTimerRef st = Some (fst q)
}.

(** The pad of the container in portrait: size 180 at (14, 62) of a 400 by
    800 container, default keys; and the same pad with a mapping that
    leaves "up" without a key. *)
Definition pad : Props :=
  {| size := 180; x := 14; y := 62;
     containerWidth := 400; containerHeight := 800;
     controls := None; customPosition := None; onPositionChange := true |}.

Definition padWithoutUp : Props :=
  {| size := 180; x := 14; y := 62;
     containerWidth := 400; containerHeight := 800;
     controls := Some [("up", ""); ("down", "KeyS");
                       ("left", "KeyA"); ("right", "KeyD")];
     customPosition := None; onPositionChange := true |}.

(** The rectangle of that pad: centre (56, 496). *)
Definition padRect : DOMRect :=
  {| Dom.left := -34; top := 406; width := 180; height := 180 |}.

Definition finger (x y : R) : Touch :=
  {| identifier := 7; clientX := x; clientY := y |}.

End PadSpec.

(** ** Scenarios on the pad and on wired buttons *)
Module ScenarioSpec.
Import Js Dom KeyboardEvents PadSpec ButtonSpec.
Open Scope string_scope.
Open Scope list_scope.

(** The pad after a touch landed on its centre, (56, 496), and the result
    of that touch then moving 20 pixels to the right. *)
Definition padArmed : Dpad.State :=
  fst (Dpad.handleTouchStart pad false (finger (56 + 0) 496) (Some padRect)
         Dpad.initial).

Definition padMoved : Dpad.State * list Dpad.Effect :=
  Dpad.handleTouchMove pad false [finger (56 + 20) 496] (Some padRect)
    padArmed.

(** The distance of a pad touch from the recorded touch-start point. *)
Definition padMoveDistance (touch : Touch) (st : Dpad.State) : R :=
  hypot (clientX touch - fst (Dpad.touchStartPosRef st))
        (clientY touch - snd (Dpad.touchStartPosRef st)).

(** A touch-start on the pad registers a hold timer: one more callback
    is pending after the handler than before. *)
Definition padArmsHoldTimer (p : Dpad.Props) (vibrate : bool) (first : Touch)
    (rect : option DOMRect) (st : Dpad.State) : Prop :=
  List.length
    (pending (Dpad.holdTimers
                (fst (Dpad.handleTouchStart p vibrate first rect st))))
  = S (List.length (pending (Dpad.holdTimers st))).

(** The pad after a touch landed 20 pixels right of its centre. *)
Definition padRightHeld : Dpad.State :=
  fst (Dpad.handleTouchStart pad false (finger (56 + 20) 496) (Some padRect)
         Dpad.initial).

(** The start button, a system button, of size 100. *)
Definition startButton : TouchHandlers.Props :=
  {| TouchHandlers.buttonType := "start";
     TouchHandlers.isSystemButton := true;
     TouchHandlers.buttonSize := 100;
     TouchHandlers.displayX := 50; TouchHandlers.displayY := 50;
     TouchHandlers.containerWidth := 400;
     TouchHandlers.containerHeight := 800;
     TouchHandlers.onPressDown := true;
     TouchHandlers.onPositionChange := true |}.

(** A drag session is active on a wired button while the button is in the
    pressed set. *)
Definition engagedWhileDragging (button : string) (st : VirtualButton.State)
    : Prop :=
  TouchHandlers.isDraggingRef (VirtualButton.hook st) = true
  /\ has String.eqb button
         (VirtualController.pressedButtons (VirtualButton.container st))
     = true.

(** A finger lands near the edge of a button and slides 15 pixels. *)
Definition landAndSlide : list VirtualButton.Event :=
  [VirtualButton.Gesture
     (TouchHandlers.TouchStart (touchAt (200 + 45) 400) (Some rect100));
   VirtualButton.Gesture (TouchHandlers.TouchMove (touchAt (200 + 60) 400))].

(** The same, and then a second finger lands on the button: the
    touch-start handler runs again, [e.touches[0]] being the first finger
    where it is now. *)
Definition landSlideAndLandAgain : list VirtualButton.Event :=
  landAndSlide
  ++ [VirtualButton.Gesture
        (TouchHandlers.TouchStart (touchAt (200 + 60) 400) (Some rect100))].

End ScenarioSpec.

(** ** Press and release calls of a gesture *)
Module GestureSpec.
Import Js Dom TouchHandlers.
Open Scope list_scope.

(** The press, press-down and release callbacks among the effects of the
    hook, in order. *)
Fixpoint pressCalls (out : list Effect) : list Effect :=
  match out with
  | [] => []
  | OnPress b :: rest => OnPress b :: pressCalls rest
  | OnPressDown b :: rest => OnPressDown b :: pressCalls rest
  | OnRelease b :: rest => OnRelease b :: pressCalls rest
  | _ :: rest => pressCalls rest
  end.

(** What happens between the start and the end of a touch: moves of the
    finger and hold timers firing. *)
Definition duringTouch (ev : Event) : Prop :=
  match ev with
  | TouchMove _ => True
  | HoldTimer _ => True
  | _ => False
  end.

(** What ends a touch. *)
Definition endsTouch (ev : Event) : Prop :=
  match ev with
  | TouchEnd => True
  | TouchCancel => True
  | _ => False
  end.

(** The calls of one whole touch on a button: the press of a system
    button, or the press-down (when configured) and the release of another
    button. *)
Definition callsOfTouch (p : Props) : list Effect :=
  if isSystemButton p then [OnPress (buttonType p)]
  else (if onPressDown p then [OnPressDown (buttonType p)] else [])
       ++ [OnRelease (buttonType p)].

(** The release a drag entry or a touch end calls. *)
Definition releaseCall (p : Props) : list Effect :=
  if isSystemButton p then [] else [OnRelease (buttonType p)].

End GestureSpec.

(** ** Keys held after a sequence of dispatches *)
Module HeldSpec.
Import KeyboardEvents.

(** Whether the key [c] is down after the calls, [h] telling whether it
    was before: the last keydown or keyup of [c] decides. *)
Fixpoint heldFrom (h : bool) (calls : list Dispatch) (c : string) : bool :=
  match calls with
  | [] => h
  | d :: rest =>
      heldFrom (if String.eqb (d_code d) c
                then match d_type d with keydown => true | keyup => false end
                else h) rest c
  end.

Definition held (calls : list Dispatch) (c : string) : bool :=
  heldFrom false calls c.

End HeldSpec.

(** ** Buttons as the container renders them *)
Module WiredSpec.
Import Js KeyboardEvents VirtualController.
Open Scope list_scope.

(** The hook props of a button rendered by the container, which always
    passes [onPressDown] and [onPositionChange]. *)
Definition wiredProps (config : ButtonComponent.ButtonConfig)
    (customPosition : option (R * R)) (containerWidth containerHeight : R)
    : TouchHandlers.Props :=
  ButtonComponent.hookProps config customPosition containerWidth
    containerHeight true true.

(** The dispatches of one whole touch on a game button: the keydown when
    the emulator is running, and the keyup; nothing without a key code. *)
Definition dispatchesOfTouch (DEFAULT_CONTROLS : ControlMapping)
    (controls : option ControlMapping) (buttonType : string)
    (running : bool) : list Dispatch :=
  match getButtonKeyboardCode DEFAULT_CONTROLS controls buttonType with
  | Some code =>
      if truthy code
      then (if running then [dispatch keydown code] else [])
           ++ [dispatch keyup code]
      else []
  | None => []
  end.

(** The button "a" of size 100 as a [ButtonConfig]. *)
Definition configA : ButtonComponent.ButtonConfig :=
  {| ButtonComponent.type := "a"; ButtonComponent.x := 50;
     ButtonComponent.y := 50; ButtonComponent.size := 100 |}.

End WiredSpec.

(** ** Keys of the container's buttons *)
Module ContainerKeySpec.
Import Js KeyboardEvents VirtualController.
Open Scope string_scope.
Open Scope list_scope.

(** The game button [b] has the key code [c], and no other button type
    shares it. *)
Definition ownsCode (DEFAULT_CONTROLS : ControlMapping)
    (controls : option ControlMapping) (b c : string) : Prop :=
  includes SYSTEM_BUTTONS b = false
  /\ getButtonKeyboardCode DEFAULT_CONTROLS controls b = Some c
  /\ truthy c = true
  /\ forall b',
       getButtonKeyboardCode DEFAULT_CONTROLS controls b' = Some c -> b' = b.

(** Every pending tap-release timer holds a button type and the key code
    the mapping gives it. *)
Definition tapsCoded (DEFAULT_CONTROLS : ControlMapping)
    (controls : option ControlMapping) (st : State) : Prop :=
  forall q, In q (pending (tapTimers st)) ->
    getButtonKeyboardCode DEFAULT_CONTROLS controls (snd (snd q))
    = Some (fst (snd q)).

(** The identifiers of the pending tap-release timers are below the next
    identifier. *)
Definition tapsFresh (st : State) : Prop :=
  forall q, In q (pending (tapTimers st)) ->
    (fst q < nextId (tapTimers st))%nat.

End ContainerKeySpec.

(** ** Shape of the active set and touches the pad does not track *)
Module PadShapeSpec.
Import Js Dom Dpad.
Open Scope list_scope.

(** A set of directions a pad can hold: no direction twice, at most two
    directions, and no two opposite directions. *)
Definition wellFormed (ds : list Direction) : Prop :=
  NoDup ds
  /\ (List.length ds <= 2)%nat
  /\ ~ (In up ds /\ In down ds)
  /\ ~ (In left ds /\ In right ds).

(** None of the touches has the identifier [id]. *)
Definition foreignTo (id : nat) (touches : list Touch) : Prop :=
  forall t, In t touches -> identifier t <> id.

(** A touch event that does not concern the touch [id]: a touch-start,
    or a move, end or cancel whose changed touches do not include it. *)
Definition foreignEvent (id : nat) (ev : Event) : Prop :=
  match ev with
  | TouchStart _ _ => True
  | TouchMove touches _ => foreignTo id touches
  | TouchEnd touches => foreignTo id touches
  | TouchCancel touches => foreignTo id touches
  | HoldTimer _ => False
  end.

(** A second finger. *)
Definition otherFinger (x y : R) : Touch :=
  {| identifier := 8; clientX := x; clientY := y |}.

End PadShapeSpec.

(** ** Callbacks a button may call, and the layout lock *)
Module HookCallSpec.
Import Js Dom TouchHandlers.
Open Scope list_scope.

(** An effect the hook of a button with props [p] may have: a system
    button only presses, another button only presses down (when the
    callback is given) and releases, always with its own type; a
    position is reported only to a configured callback. *)
Definition allowed (p : Props) (vibrate : bool) (e : Effect) : Prop :=
  match e with
  | Vibrate _ => vibrate = true
  | OnPress b => isSystemButton p = true /\ b = buttonType p
  | OnPressDown b =>
      isSystemButton p = false /\ onPressDown p = true /\ b = buttonType p
  | OnRelease b => isSystemButton p = false /\ b = buttonType p
  | OnPositionChange _ _ => onPositionChange p = true
  end.

(** The button "a" of size 100 without a position callback. *)
Definition fixedButton : Props :=
  {| buttonType := "a"; isSystemButton := false; buttonSize := 100;
     displayX := 50; displayY := 50;
     containerWidth := 400; containerHeight := 800;
     onPressDown := true; onPositionChange := false |}.

End HookCallSpec.

(** Text of ASCII characters only. *)
Module KeyTextSpec.

Fixpoint asciiOnly (s : string) : bool :=
  match s with
  | EmptyString => true
  | String c r => (Nat.ltb (nat_of_ascii c) 128 && asciiOnly r)%bool
  end.

End KeyTextSpec.

Module LockSpec.
Import ControllerLayout.
Open Scope list_scope.

(** The numbers of calls to [onPause] and to [onResume]. *)
Fixpoint pauses (out : list Effect) : nat :=
  match out with
  | [] => 0
  | OnPause :: rest => S (pauses rest)
  | OnResume :: rest => pauses rest
  end.

Fixpoint resumes (out : list Effect) : nat :=
  match out with
  | [] => 0
  | OnPause :: rest => resumes rest
  | OnResume :: rest => S (resumes rest)
  end.

End LockSpec.

(** ** A system button as the container renders it *)
Module WiredSystemSpec.
Open Scope string_scope.

(** The start button of size 100 as a [ButtonConfig]. *)
Definition configStart : ButtonComponent.ButtonConfig :=
  {| ButtonComponent.type := "start"; ButtonComponent.x := 50;
     ButtonComponent.y := 90; ButtonComponent.size := 100 |}.

End WiredSystemSpec.

(* ================================================================== *)
(** * Part III: properties                                             *)
(* ================================================================== *)

(** ** Comparisons and square roots *)
Module JsFacts.
Import Js.

Lemma ltb_true_iff (a b : R) : ltb a b = true <-> a < b.
Proof. unfold ltb; destruct (Rlt_dec a b); split; intros; try easy. Qed.

Lemma ltb_false_iff (a b : R) : ltb a b = false <-> b <= a.
Proof.
  unfold ltb; destruct (Rlt_dec a b); split; intros; try easy; lra.
Qed.

Lemma leb_true_iff (a b : R) : leb a b = true <-> a <= b.
Proof. unfold leb; destruct (Rle_dec a b); split; intros; try easy. Qed.

Lemma leb_false_iff (a b : R) : leb a b = false <-> b < a.
Proof.
  unfold leb; destruct (Rle_dec a b); split; intros; try easy; lra.
Qed.

Lemma gtb_true_iff (a b : R) : gtb a b = true <-> a > b.
Proof. unfold gtb; rewrite ltb_true_iff; lra. Qed.

Lemma gtb_false_iff (a b : R) : gtb a b = false <-> a <= b.
Proof. unfold gtb; rewrite ltb_false_iff; lra. Qed.

Lemma geb_true_iff (a b : R) : geb a b = true <-> a >= b.
Proof. unfold geb; rewrite leb_true_iff; lra. Qed.

Lemma geb_false_iff (a b : R) : geb a b = false <-> a < b.
Proof. unfold geb; rewrite leb_false_iff; lra. Qed.

Lemma hypot_nonneg (a b : R) : 0 <= hypot a b.
Proof. apply sqrt_pos. Qed.

Lemma hypot_axis_x (a : R) : 0 <= a -> hypot a 0 = a.
Proof.
  intros Ha; unfold hypot.
  replace (a ^ 2 + 0 ^ 2) with (a * a) by ring.
  now apply sqrt_square.
Qed.

Lemma hypot_0_0 : hypot 0 0 = 0.
Proof. apply hypot_axis_x; lra. Qed.

(** The angle [atan2] returns lies between [-PI] and [PI]. *)
Lemma atan2_range (y x : R) : - PI < atan2 y x <= PI.
Proof.
  pose proof PI_RGT_0 as Hpi.
  unfold atan2.
  destruct (ltb 0 x) eqn:Hx.
  - pose proof (atan_bound (y / x)); lra.
  - destruct (ltb x 0) eqn:Hx'.
    + apply ltb_true_iff in Hx'.
      assert (Hinv : / x < 0) by now apply Rinv_lt_0_compat.
      destruct (leb 0 y) eqn:Hy.
      * apply leb_true_iff in Hy.
        assert (y / x <= 0).
        { unfold Rdiv. replace 0 with (y * 0) by ring.
          apply Rmult_le_compat_l; lra. }
        assert (atan (y / x) <= 0).
        { rewrite <- atan_0. destruct H as [H | H].
          - left. now apply atan_increasing.
          - rewrite H. right. reflexivity. }
        pose proof (atan_bound (y / x)); lra.
      * apply leb_false_iff in Hy.
        assert (0 < y / x).
        { unfold Rdiv. replace (y * / x) with ((- y) * (- / x)) by ring.
          apply Rmult_lt_0_compat; lra. }
        assert (0 < atan (y / x)).
        { rewrite <- atan_0. now apply atan_increasing. }
        pose proof (atan_bound (y / x)); lra.
    + destruct (ltb 0 y); [lra |].
      destruct (ltb y 0); lra.
Qed.

End JsFacts.

(** ** The bridge ([dispatchKeyboardEvent]) *)
Module BridgeFacts.
Import KeyboardEvents.

(** Without a canvas a call reports failure and delivers nothing. *)
Lemma dispatch_without_canvas (ty : KeyType) (c : string) :
  dispatchKeyboardEvent false ty c = (false, []).
Proof. reflexivity. Qed.

Lemma delivered_without_canvas (calls : list Dispatch) :
  delivered false calls = [].
Proof. induction calls as [| d calls IH]; simpl; [reflexivity | exact IH]. Qed.

(** With a canvas every call delivers one bubbling, cancelable event with
    the code and the key name derived from it. *)
Lemma delivered_with_canvas (calls : list Dispatch) :
  delivered true calls
  = map (fun d => {| type := d_type d; code := d_code d;
                     key := getKeyName (d_code d);
                     bubbles := true; cancelable := true |}) calls.
Proof.
  unfold delivered.
  induction calls as [| d calls IH]; [reflexivity |].
  cbn [flat_map map]. rewrite IH. reflexivity.
Qed.

End BridgeFacts.

(** ** Key names ([getKeyName]) *)
Module KeyNameFacts.
Import Js KeyboardEvents KeyNameSpec.
Open Scope string_scope.

Lemma stripPrefix_spec (p s rest : string) :
  stripPrefix p s = Some rest <-> s = p ++ rest.
Proof.
  revert s; induction p as [| a p IH]; intros s; simpl.
  - split; congruence.
  - destruct s as [| b s].
    + split; congruence.
    + destruct (Ascii.eqb_spec a b) as [-> | Hne].
      * rewrite IH. split; congruence.
      * split; congruence.
Qed.

Lemma startsWith_stripPrefix (p s : string) :
  stripPrefix p s =
  if startsWith p s then Some (slice (String.length p) s) else None.
Proof.
  unfold startsWith.
  revert s; induction p as [| a p IH]; intros s; simpl.
  - now destruct s.
  - destruct s as [| b s]; simpl; [reflexivity |].
    destruct (Ascii.eqb_spec a b) as [-> | Hne].
    + destruct (ascii_dec b b); [apply IH | congruence].
    + destruct (ascii_dec a b); [congruence | reflexivity].
Qed.

(** C9, as amended.  For every code, the key name is: the rest after a
    leading "Key" put in lower case; else the rest after a leading "Arrow";
    else "Enter" for "Enter"; else "Shift" for "ShiftLeft" and "ShiftRight";
    else the code itself. *)
Theorem getKeyName_lowered (code : string) :
  getKeyName code = keyNameLowered code.
Proof.
  unfold getKeyName, keyNameLowered, derivation.
  rewrite !startsWith_stripPrefix.
  destruct (startsWith "Key" code); [reflexivity |].
  destruct (startsWith "Arrow" code); [reflexivity |].
  destruct (String.eqb code "Enter"); [reflexivity |].
  destruct (String.eqb code "ShiftRight") eqn:HR;
    destruct (String.eqb code "ShiftLeft") eqn:HL; simpl; reflexivity.
Qed.

(** C9, as worded, fails: the code "KeyZ" gets the key name "z", not the
    stripped "Z". *)
Lemma getKeyName_KeyZ_not_stripped :
  getKeyName "KeyZ" = "z" /\ keyNameStripOnly "KeyZ" = "Z"
  /\ getKeyName "KeyZ" <> keyNameStripOnly "KeyZ".
Proof. repeat split. vm_compute. discriminate. Qed.

End KeyNameFacts.

(** ** Clamping of drag positions *)
Module DragFacts.
Import Js Dom DragSpec.

Lemma clamp_lower (m v : R) : m <= Rmax m (Rmin (100 - m) v).
Proof. apply Rmax_l. Qed.

Lemma clamp_upper (m v : R) : m <= 50 -> Rmax m (Rmin (100 - m) v) <= 100 - m.
Proof.
  intros Hm. apply Rmax_lub; [lra | apply Rmin_l].
Qed.

Lemma margin_le_50 (size cw ch : R) :
  0 < cw -> 0 < ch -> size <= Rmin cw ch -> margin size cw ch <= 50.
Proof.
  intros Hw Hh Hs. unfold margin.
  assert (Hk : 0 < Rmin cw ch) by (apply Rmin_glb_lt; assumption).
  set (k := Rmin cw ch) in *.
  replace (size / 2 / k * 100) with (50 * (size * / k)) by (field; lra).
  assert (size * / k <= 1).
  { apply (Rmult_le_reg_r k); [assumption |].
    rewrite Rmult_assoc, Rinv_l by lra. lra. }
  lra.
Qed.

(** What the hook reports during a drag is a clamped pair. *)
Lemma hook_position_clamped (p : TouchHandlers.Props) (vibrate : bool)
    (touch : Touch) (st : TouchHandlers.State) (x y : R) :
  In (TouchHandlers.OnPositionChange x y)
     (snd (TouchHandlers.handleTouchMove p vibrate touch st)) ->
  let m := margin (TouchHandlers.buttonSize p)
                  (TouchHandlers.containerWidth p)
                  (TouchHandlers.containerHeight p) in
  exists vx vy,
    x = Rmax m (Rmin (100 - m) vx) /\ y = Rmax m (Rmin (100 - m) vy).
Proof.
  unfold TouchHandlers.handleTouchMove, TouchHandlers.startDragging,
    TouchHandlers.haptic, margin.
  intros H.
  repeat match type of H with
  | context [if ?c then _ else _] => destruct c; simpl in H
  end;
  repeat (rewrite ?in_app_iff in H; simpl in H);
  intuition (try discriminate);
  match goal with
  | E : TouchHandlers.OnPositionChange _ _ = TouchHandlers.OnPositionChange _ _
    |- _ => injection E as <- <-; eexists; eexists; split; reflexivity
  end.
Qed.

Lemma releaseKey_no_position (p : Dpad.Props) (d : Dpad.Direction) (x y : R) :
  ~ In (Dpad.OnPositionChange x y) (Dpad.releaseKey p d).
Proof.
  unfold Dpad.releaseKey. destruct (truthy _); simpl; intuition discriminate.
Qed.

Lemma engageKey_no_position (p : Dpad.Props) (vibrate : bool)
    (d : Dpad.Direction) (x y : R) :
  ~ In (Dpad.OnPositionChange x y) (Dpad.engageKey p vibrate d).
Proof.
  unfold Dpad.engageKey. destruct (truthy _), vibrate; simpl;
    intuition discriminate.
Qed.

Lemma updateDirections_no_position (p : Dpad.Props) (vibrate : bool)
    (ds : list Dpad.Direction) (st : Dpad.State) (x y : R) :
  ~ In (Dpad.OnPositionChange x y)
       (snd (Dpad.updateDirections p vibrate ds st)).
Proof.
  unfold Dpad.updateDirections; simpl.
  rewrite in_app_iff, !in_flat_map.
  intros [[d [_ H]] | [d [_ H]]];
    destruct (negb _); simpl in H; try contradiction.
  - now apply releaseKey_no_position in H.
  - now apply engageKey_no_position in H.
Qed.

(** What the pad reports is a clamped pair, and it reports only while
    dragging. *)
Lemma pad_position_clamped (p : Dpad.Props) (vibrate : bool)
    (touches : list Touch) (rect : option DOMRect) (st : Dpad.State)
    (x y : R) :
  In (Dpad.OnPositionChange x y)
     (snd (Dpad.handleTouchMove p vibrate touches rect st)) ->
  (Dpad.isDragging st = true /\ Dpad.onPositionChange p = true)
  /\ let m := margin (Dpad.size p) (Dpad.containerWidth p)
                     (Dpad.containerHeight p) in
     exists vx vy,
       x = Rmax m (Rmin (100 - m) vx) /\ y = Rmax m (Rmin (100 - m) vy).
Proof.
  unfold Dpad.handleTouchMove, margin.
  destruct (Dpad.findTouch _ _) as [touch |]; simpl; [| contradiction].
  destruct (Dpad.isDragging st) eqn:Hd, (Dpad.onPositionChange p) eqn:Hp;
    simpl.
  - intros [E | []]. injection E as <- <-.
    split; [now split |]. eexists; eexists; split; reflexivity.
  - destruct rect; simpl; [| contradiction].
    intros H. now apply updateDirections_no_position in H.
  - destruct rect; simpl; [| contradiction].
    intros H. now apply updateDirections_no_position in H.
  - destruct rect; simpl; [| contradiction].
    intros H. now apply updateDirections_no_position in H.
Qed.

End DragFacts.

(** ** The touch handler hook *)
Module HookFacts.
Import Js Dom JsFacts TouchHandlers DragSpec ButtonSpec.

Section Steps.
Variable p : Props.
Variable vibrate : bool.

Lemma handleTouchStart_arms (touch : Touch) (rect : DOMRect) (st : State) :
  onPositionChange p = true ->
  distanceFromCenter touch rect < (4 / 10) * buttonSize p ->
  handleTouchStart p vibrate touch (Some rect) st
  = (set_timer (Some (nextId (holdTimers st)))
       (snd (setTimeout (clientX touch, clientY touch) (holdTimers st)))
       (set_touchStartPosRef (clientX touch, clientY touch) st),
     startEffects p vibrate).
Proof.
  intros Hp Hd. unfold handleTouchStart, startEffects. rewrite Hp. simpl.
  replace (ltb _ _) with true; [reflexivity |].
  symmetry. apply ltb_true_iff.
  unfold distanceFromCenter, DRAG_CENTER_THRESHOLD in *. lra.
Qed.

Lemma handleTouchStart_unarmed (touch : Touch) (target : option DOMRect)
    (st : State) :
  (onPositionChange p = false \/ target = None
   \/ exists rect, target = Some rect
        /\ (4 / 10) * buttonSize p <= distanceFromCenter touch rect) ->
  handleTouchStart p vibrate touch target st
  = (set_touchStartPosRef (clientX touch, clientY touch) st,
     startEffects p vibrate).
Proof.
  unfold handleTouchStart, startEffects.
  intros [Hp | [-> | [rect [-> Hd]]]].
  - now rewrite Hp.
  - now destruct (onPositionChange p).
  - destruct (onPositionChange p); [| reflexivity].
    replace (ltb _ _) with false; [reflexivity |].
    symmetry. apply ltb_false_iff.
    unfold distanceFromCenter, DRAG_CENTER_THRESHOLD in *. lra.
Qed.

Lemma handleTouchMove_far (touch : Touch) (st : State) :
  onPositionChange p = true ->
  isDraggingRef st = false ->
  distanceFromStart touch st > 10 ->
  handleTouchMove p vibrate touch st
  = let st' :=
      fst (startDragging p vibrate (clientX touch) (clientY touch)
             (clearDragTimer st)) in
    (st',
     snd (startDragging p vibrate (clientX touch) (clientY touch)
            (clearDragTimer st))
     ++ [reported p touch st']).
Proof.
  intros Hp Hd Hfar. unfold handleTouchMove. rewrite Hp, Hd. simpl.
  replace (gtb _ _) with true.
  2:{ symmetry. apply gtb_true_iff.
      unfold distanceFromStart, DRAG_MOVE_THRESHOLD in *. lra. }
  simpl. reflexivity.
Qed.

Lemma handleTouchMove_dragging (touch : Touch) (st : State) :
  onPositionChange p = true ->
  isDraggingRef st = true ->
  handleTouchMove p vibrate touch st = (st, [reported p touch st]).
Proof.
  intros Hp Hd. unfold handleTouchMove. rewrite Hp, Hd. simpl.
  rewrite Hd. reflexivity.
Qed.

End Steps.

End HookFacts.

(** ** Generic button: arming the hold timer, starting a drag, reported
       positions *)
Module ButtonFacts.
Import Js Dom JsFacts TouchHandlers DragSpec ButtonSpec DragFacts HookFacts.

(** Replaces a [hypot a b] of the goal whose arguments are [v] and [0]. *)
Ltac hypot_is v :=
  match goal with
  | |- context [hypot ?a ?b] =>
      replace a with v by lra; replace b with 0 by lra;
      rewrite (hypot_axis_x v) by lra
  end.

Lemma isPending_clearTimeout {A : Type} (id : nat) (ts : timeouts A) :
  isPending id (clearTimeout id ts) = false.
Proof.
  unfold isPending, clearTimeout; simpl.
  induction (pending ts) as [| q l IH]; simpl; [reflexivity |].
  destruct (Nat.eqb (fst q) id) eqn:E; simpl; [exact IH |].
  now rewrite E.
Qed.


Lemma distance_button100 (d : R) :
  0 <= d -> distanceFromCenter (touchAt (200 + d) 400) rect100 = d.
Proof.
  intros Hd. unfold distanceFromCenter, touchAt, rect100; simpl.
  hypot_is d. reflexivity.
Qed.




(** The hook after a touch that landed 45 pixels from the centre of the
    button of size 100: no hold timer was registered. *)
Lemma touch_at_edge_unarmed :
  handleTouchStart button100 false (touchAt (200 + 45) 400) (Some rect100)
                   initial
  = (set_touchStartPosRef (200 + 45, 400) initial,
     [OnPressDown "a"%string]).
Proof.
  rewrite handleTouchStart_unarmed; [reflexivity |].
  right; right. exists rect100. split; [reflexivity |].
  rewrite distance_button100 by lra. simpl. lra.
Qed.




End ButtonFacts.

(** ** Reported drag positions and the margins *)
Module DragPositionFacts.
Import Js Dom JsFacts DragSpec ButtonSpec DragFacts HookFacts ButtonFacts.

Lemma clamped_pair_margins (size cw ch x y : R) :
  0 < cw -> 0 < ch ->
  (exists vx vy,
     x = Rmax (margin size cw ch) (Rmin (100 - margin size cw ch) vx)
     /\ y = Rmax (margin size cw ch) (Rmin (100 - margin size cw ch) vy)) ->
  aboveMargin size cw ch x y
  /\ (size <= Rmin cw ch -> withinMargins size cw ch x y).
Proof.
  intros Hw Hh [vx [vy [-> ->]]]. unfold aboveMargin, withinMargins.
  split.
  - split; apply clamp_lower.
  - intros Hs. pose proof (margin_le_50 size cw ch Hw Hh Hs) as Hm.
    repeat split; try apply clamp_lower; now apply clamp_upper.
Qed.

(** C4, as amended.  For positive container dimensions, every position a
    drag reports, on a generic button and on the pad, is at least the
    margin in both axes; it is at most 100 minus the margin in both axes
    when the control is no larger than the smaller container dimension. *)
Theorem drag_position_margins :
  (forall (p : TouchHandlers.Props) (vibrate : bool) (touch : Touch)
          (st : TouchHandlers.State) (x y : R),
      0 < TouchHandlers.containerWidth p ->
      0 < TouchHandlers.containerHeight p ->
      In (TouchHandlers.OnPositionChange x y)
         (snd (TouchHandlers.handleTouchMove p vibrate touch st)) ->
      aboveMargin (TouchHandlers.buttonSize p)
                  (TouchHandlers.containerWidth p)
                  (TouchHandlers.containerHeight p) x y
      /\ (TouchHandlers.buttonSize p
          <= Rmin (TouchHandlers.containerWidth p)
                  (TouchHandlers.containerHeight p) ->
          withinMargins (TouchHandlers.buttonSize p)
                        (TouchHandlers.containerWidth p)
                        (TouchHandlers.containerHeight p) x y))
  /\
  (forall (p : Dpad.Props) (vibrate : bool) (touches : list Touch)
          (rect : option DOMRect) (st : Dpad.State) (x y : R),
      0 < Dpad.containerWidth p ->
      0 < Dpad.containerHeight p ->
      In (Dpad.OnPositionChange x y)
         (snd (Dpad.handleTouchMove p vibrate touches rect st)) ->
      aboveMargin (Dpad.size p) (Dpad.containerWidth p)
                  (Dpad.containerHeight p) x y
      /\ (Dpad.size p
          <= Rmin (Dpad.containerWidth p) (Dpad.containerHeight p) ->
          withinMargins (Dpad.size p) (Dpad.containerWidth p)
                        (Dpad.containerHeight p) x y)).
Proof.
  split.
  - intros p vibrate touch st x y Hw Hh Hin.
    apply clamped_pair_margins; try assumption.
    exact (hook_position_clamped p vibrate touch st x y Hin).
  - intros p vibrate touches rect st x y Hw Hh Hin.
    apply clamped_pair_margins; try assumption.
    exact (proj2 (pad_position_clamped p vibrate touches rect st x y Hin)).
Qed.

(** C4 on the button of size 100 in the 400 by 800 container, at the move
    that starts its drag: the reported position is within the margins. *)
Lemma drag_position_margins_witness :
  exists x y,
    In (TouchHandlers.OnPositionChange x y)
       (snd (TouchHandlers.handleTouchMove button100 false
               (touchAt (200 + 60) 400)
               (TouchHandlers.set_touchStartPosRef (200 + 45, 400)
                  TouchHandlers.initial)))
    /\ withinMargins 100 400 800 x y.
Proof.
  assert (Hfar : distanceFromStart (touchAt (200 + 60) 400)
                   (TouchHandlers.set_touchStartPosRef (200 + 45, 400)
                      TouchHandlers.initial) > 10).
  { unfold distanceFromStart; simpl. hypot_is 15. lra. }
  pose proof (handleTouchMove_far button100 false (touchAt (200 + 60) 400)
                (TouchHandlers.set_touchStartPosRef (200 + 45, 400)
                   TouchHandlers.initial) eq_refl eq_refl Hfar) as E.
  assert (Hin : In (reported button100 (touchAt (200 + 60) 400)
                      (fst (TouchHandlers.startDragging button100 false
                              (200 + 60) 400
                              (TouchHandlers.clearDragTimer
                                 (TouchHandlers.set_touchStartPosRef
                                    (200 + 45, 400) TouchHandlers.initial)))))
                   (snd (TouchHandlers.handleTouchMove button100 false
                           (touchAt (200 + 60) 400)
                           (TouchHandlers.set_touchStartPosRef
                              (200 + 45, 400) TouchHandlers.initial))))
    by (rewrite E; simpl; auto).
  unfold reported in Hin.
  eexists; eexists; split; [exact Hin |].
  apply (proj1 drag_position_margins button100 false _ _ _ _
           ltac:(simpl; lra) ltac:(simpl; lra) Hin).
  simpl. rewrite Rmin_left by lra. lra.
Defined.

Lemma distance_rect180_center :
  distanceFromCenter (touchAt 50 50) rect180 = 0.
Proof.
  unfold distanceFromCenter, touchAt, rect180; simpl.
  hypot_is 0. reflexivity.
Qed.

(** C4, as worded, fails: in a 100 by 100 container a button of size 180
    has margin 90, and the drag started by a touch at the centre that moves
    20 pixels reports (90, 90), above 100 minus the margin. *)
Lemma drag_position_beyond_margin :
  0 < TouchHandlers.containerWidth button180
  /\ 0 < TouchHandlers.containerHeight button180
  /\ exists x y,
       In (TouchHandlers.OnPositionChange x y)
          (snd (TouchHandlers.run button180 false
                  [TouchHandlers.TouchStart (touchAt 50 50) (Some rect180);
                   TouchHandlers.TouchMove (touchAt (50 + 20) 50)]
                  TouchHandlers.initial))
       /\ x = 90 /\ y = 90
       /\ ~ withinMargins 180 100 100 x y.
Proof.
  split; [simpl; lra |]. split; [simpl; lra |].
  unfold TouchHandlers.run, TouchHandlers.step.
  rewrite handleTouchStart_arms;
    [| reflexivity | rewrite distance_rect180_center; simpl; lra].
  rewrite handleTouchMove_far; [| reflexivity | reflexivity |].
  2:{ unfold distanceFromStart; simpl. hypot_is 20. lra. }
  unfold reported, margin. simpl.
  eexists; eexists. split.
  { right. right. left. reflexivity. }
  assert (Hm : Rmin 100 100 = 100) by (apply Rmin_left; lra).
  rewrite Hm.
  assert (Hx : Rmax (180 / 2 / 100 * 100)
                 (Rmin (100 - 180 / 2 / 100 * 100)
                    ((50 + 20 - (50 + 20 - 50 / 100 * 100)) / 100 * 100))
               = 90).
  { rewrite Rmin_left by lra. rewrite Rmax_left by lra. lra. }
  assert (Hy : Rmax (180 / 2 / 100 * 100)
                 (Rmin (100 - 180 / 2 / 100 * 100)
                    ((50 - (50 - 50 / 100 * 100)) / 100 * 100))
               = 90).
  { rewrite Rmin_left by lra. rewrite Rmax_left by lra. lra. }
  split; [exact Hx |]. split; [exact Hy |].
  rewrite Hx, Hy. unfold withinMargins, margin. rewrite Hm. lra.
Qed.

End DragPositionFacts.

(** ** The container: pressed set and dispatch *)
Module ContainerFacts.
Import Js KeyboardEvents VirtualController ContainerSpec.
Open Scope string_scope.
Open Scope list_scope.

Lemma setPressedButtons_id (st : State) :
  setPressedButtons (fun prev => prev) st = st.
Proof. now destruct st. Qed.

Section Handlers.
Variable DEFAULT_CONTROLS : ControlMapping.
Variable controls : option ControlMapping.

(** C6, as amended.  For a game button with a key code: a press-down while
    it is already in the pressed set (the emulator running) leaves the
    state as it is and still dispatches its keydown; a release while it is
    not in the pressed set leaves the state as it is and still dispatches
    its keyup. *)
Theorem redundant_press_and_release_still_dispatch (buttonType code : string)
    (st : State) :
  includes SYSTEM_BUTTONS buttonType = false ->
  getButtonKeyboardCode DEFAULT_CONTROLS controls buttonType = Some code ->
  truthy code = true ->
  (isRunning st = true ->
   has String.eqb buttonType (pressedButtons st) = true ->
   handlePressDown DEFAULT_CONTROLS controls buttonType st
   = (st, [dispatch keydown code]))
  /\ (has String.eqb buttonType (pressedButtons st) = false ->
      handleRelease DEFAULT_CONTROLS controls buttonType st
      = (st, [dispatch keyup code])).
Proof.
  intros Hsys Hcode Htruthy. split.
  - intros Hrun Hhas. unfold handlePressDown.
    rewrite Hrun, Hsys, Hcode, Htruthy. simpl. f_equal.
    destruct st as [r pressed ts]; unfold setPressedButtons; simpl in *.
    now rewrite Hhas.
  - intros Hhas. unfold handleRelease.
    rewrite Hsys, Hcode, Htruthy. simpl. f_equal.
    destruct st as [r pressed ts]; unfold setPressedButtons; simpl in *.
    now rewrite Hhas.
Qed.

End Handlers.

(** C6 for the button "a" mapped to the key X: pressed again while held,
    and released while not held. *)
Lemma redundant_press_and_release_still_dispatch_witness :
  handlePressDown noDefaults someControls "a" holdingA
  = (holdingA, [dispatch keydown "KeyX"])
  /\ handleRelease noDefaults someControls "a" (initial true)
     = (initial true, [dispatch keyup "KeyX"]).
Proof.
  split.
  - exact (proj1 (redundant_press_and_release_still_dispatch
                    noDefaults someControls "a" "KeyX" holdingA
                    eq_refl eq_refl eq_refl) eq_refl eq_refl).
  - exact (proj2 (redundant_press_and_release_still_dispatch
                    noDefaults someControls "a" "KeyX" (initial true)
                    eq_refl eq_refl eq_refl) eq_refl).
Defined.

(** C6, as worded, fails: with "a" held in the running container, a
    further press-down of "a" is not idle, it dispatches a keydown; and a
    release of "a" while it is not held is not idle, it dispatches a
    keyup. *)
Lemma redundant_press_and_release_not_idle :
  has String.eqb "a" (pressedButtons holdingA) = true
  /\ ~ idle (handlePressDown noDefaults someControls "a" holdingA) holdingA
  /\ has String.eqb "a" (pressedButtons (initial true)) = false
  /\ ~ idle (handleRelease noDefaults someControls "a" (initial true))
            (initial true).
Proof.
  unfold idle. repeat split; try reflexivity; intros H; discriminate H.
Qed.

End ContainerFacts.

(** ** The container when the emulator stops *)
Module StopFacts.
Import Js KeyboardEvents VirtualController ContainerSpec.
Open Scope string_scope.
Open Scope list_scope.

Lemma In_add (a x : string) (s : list string) :
  In x (add String.eqb a s) -> x = a \/ In x s.
Proof.
  unfold add. destruct (has String.eqb a s); [now right |].
  rewrite in_app_iff. simpl. intuition.
Qed.

Lemma In_delete (a x : string) (s : list string) :
  In x (delete String.eqb a s) -> In x s.
Proof. unfold delete. rewrite filter_In. tauto. Qed.

Section Container.
Variable DEFAULT_CONTROLS : ControlMapping.
Variable controls : option ControlMapping.

Lemma handleRelease_frame (b : string) (st : State) :
  isRunning (fst (handleRelease DEFAULT_CONTROLS controls b st))
  = isRunning st
  /\ tapTimers (fst (handleRelease DEFAULT_CONTROLS controls b st))
     = tapTimers st
  /\ snd (handleRelease DEFAULT_CONTROLS controls b st)
     = releaseOut DEFAULT_CONTROLS controls b.
Proof.
  unfold handleRelease, releaseOut.
  destruct (includes SYSTEM_BUTTONS b); [now simpl |].
  destruct (getButtonKeyboardCode DEFAULT_CONTROLS controls _) as [c |];
    [| now simpl].
  destruct (truthy c); now simpl.
Qed.

Lemma releaseEach_frame (rendered : list string) (st : State) :
  isRunning (fst (releaseEach DEFAULT_CONTROLS controls rendered st))
  = isRunning st
  /\ tapTimers (fst (releaseEach DEFAULT_CONTROLS controls rendered st))
     = tapTimers st
  /\ snd (releaseEach DEFAULT_CONTROLS controls rendered st)
     = flat_map (releaseOut DEFAULT_CONTROLS controls) rendered.
Proof.
  revert st; induction rendered as [| b rest IH]; intros st.
  - simpl; auto.
  - cbn [releaseEach flat_map].
    pose proof (handleRelease_frame b st) as F.
    unfold releaseOut at 1 in F. unfold releaseOut at 1.
    destruct (includes SYSTEM_BUTTONS b) eqn:Hsys; cbn [negb].
    + specialize (IH st).
      destruct (releaseEach DEFAULT_CONTROLS controls rest st) as [st2 out2].
      simpl in *. tauto.
    + destruct (handleRelease DEFAULT_CONTROLS controls b st) as [st1 out1].
      specialize (IH st1).
      destruct (releaseEach DEFAULT_CONTROLS controls rest st1) as [st2 out2].
      simpl in *.
      destruct F as [F1 [F2 F3]], IH as [I1 [I2 I3]].
      repeat split; congruence.
Qed.

(** The effect either finds nothing to do or empties the pressed set. *)
Lemma releaseAllEffect_cases (st : State) :
  (releaseAllEffect DEFAULT_CONTROLS controls st = (st, [])
   /\ (isRunning st = true \/ pressedButtons st = []))
  \/ (isRunning st = false
      /\ pressedButtons (fst (releaseAllEffect DEFAULT_CONTROLS controls st))
         = []
      /\ isRunning (fst (releaseAllEffect DEFAULT_CONTROLS controls st))
         = false
      /\ tapTimers (fst (releaseAllEffect DEFAULT_CONTROLS controls st))
         = tapTimers st
      /\ snd (releaseAllEffect DEFAULT_CONTROLS controls st)
         = flat_map (releaseOut DEFAULT_CONTROLS controls) (pressedButtons st)).
Proof.
  unfold releaseAllEffect.
  destruct (isRunning st) eqn:Hr; cbn [negb andb]; [left; auto |].
  destruct (Nat.ltb 0 (List.length (pressedButtons st))) eqn:Hl.
  - right.
    pose proof (releaseEach_frame (pressedButtons st) st) as F.
    destruct (releaseEach DEFAULT_CONTROLS controls (pressedButtons st) st)
      as [st1 out].
    simpl in *. destruct F as [F1 [F2 F3]]. repeat split; congruence.
  - left. split; [reflexivity | right].
    destruct (pressedButtons st); [reflexivity | discriminate Hl].
Qed.

Lemma handle_coded (ev : Event) (st : State) :
  coded DEFAULT_CONTROLS controls st ->
  coded DEFAULT_CONTROLS controls
    (fst (handle DEFAULT_CONTROLS controls ev st)).
Proof.
  intros Hc. destruct ev as [b | b | b | r | id]; simpl.
  - unfold handlePress.
    destruct (negb _ && negb _)%bool; [exact Hc |].
    destruct (getButtonKeyboardCode DEFAULT_CONTROLS controls b)
      as [c |] eqn:Ec; [| exact Hc].
    destruct (truthy c) eqn:Et; simpl; [| exact Hc].
    intros x Hx. apply In_add in Hx as [-> | Hx]; [| now apply Hc].
    rewrite Ec. simpl. now rewrite Et.
  - unfold handlePressDown.
    destruct (isRunning st); simpl; [| exact Hc].
    destruct (includes SYSTEM_BUTTONS b); [exact Hc |].
    destruct (getButtonKeyboardCode DEFAULT_CONTROLS controls b)
      as [c |] eqn:Ec; [| exact Hc].
    destruct (truthy c) eqn:Et; simpl; [| exact Hc].
    intros x Hx. simpl in Hx.
    destruct (has String.eqb b (pressedButtons st)); [now apply Hc |].
    apply In_add in Hx as [-> | Hx]; [| now apply Hc].
    rewrite Ec. simpl. now rewrite Et.
  - unfold handleRelease.
    destruct (includes SYSTEM_BUTTONS b); [exact Hc |].
    destruct (getButtonKeyboardCode DEFAULT_CONTROLS controls b)
      as [c |] eqn:Ec; [| exact Hc].
    destruct (truthy c) eqn:Et; simpl; [| exact Hc].
    intros x Hx. simpl in Hx.
    destruct (negb (has String.eqb b (pressedButtons st)));
      [now apply Hc |].
    apply In_delete in Hx. now apply Hc.
  - exact Hc.
  - unfold tapTimerFires.
    destruct (callbackOf id (tapTimers st)) as [[c b] |]; [| exact Hc].
    intros x Hx. simpl in Hx. apply In_delete in Hx. now apply Hc.
Qed.

Lemma step_coded (ev : Event) (st : State) :
  coded DEFAULT_CONTROLS controls st ->
  coded DEFAULT_CONTROLS controls (fst (step DEFAULT_CONTROLS controls ev st)).
Proof.
  intros Hc. unfold step.
  pose proof (handle_coded ev st Hc) as H1.
  destruct (handle DEFAULT_CONTROLS controls ev st) as [st1 out1]; simpl in H1.
  destruct (releaseAllEffect_cases st1) as [[E _] | [_ [E _]]].
  - now rewrite E.
  - destruct (releaseAllEffect DEFAULT_CONTROLS controls st1)
      as [st2 out2]; simpl in *.
    intros b Hb. rewrite E in Hb. contradiction.
Qed.

Lemma reachable_coded (st : State) :
  reachable DEFAULT_CONTROLS controls st ->
  coded DEFAULT_CONTROLS controls st.
Proof.
  induction 1 as [running | st ev _ IH].
  - intros b [].
  - now apply step_coded.
Qed.

(** While the emulator is not running the pressed set is empty, so the
    effect has nothing left to do between events. *)
Lemma reachable_stopped_empty (st : State) :
  reachable DEFAULT_CONTROLS controls st ->
  isRunning st = false -> pressedButtons st = [].
Proof.
  induction 1 as [running | st ev _ IH]; [reflexivity |].
  unfold step.
  destruct (handle DEFAULT_CONTROLS controls ev st) as [st1 out1].
  destruct (releaseAllEffect_cases st1) as [[E [Hr | Hp]] | [_ [E _]]].
  - rewrite E. simpl. congruence.
  - rewrite E. simpl. auto.
  - destruct (releaseAllEffect DEFAULT_CONTROLS controls st1)
      as [st2 out2]; simpl in *. auto.
Qed.

(** A tap-release timer that fires dispatches its keyup, whatever the
    state. *)
Lemma tap_timer_dispatches (st1 : State) (id : nat) (code b : string) :
  callbackOf id (tapTimers st1) = Some (code, b) ->
  In (dispatch keyup code)
     (snd (step DEFAULT_CONTROLS controls (TapTimer id) st1)).
Proof.
  intros Hcb. unfold step. cbn [handle]. unfold tapTimerFires. rewrite Hcb.
  destruct (releaseAllEffect DEFAULT_CONTROLS controls _) as [st2 out2].
  simpl. now left.
Qed.

(** C5.  When [isRunning] goes from true to false, the pressed set
    becomes empty; for every game button that was in it a keyup for its
    key code is dispatched, and nothing but keyups is dispatched; the
    pending tap-release timers are kept, and a tap-release timer that
    fires dispatches its keyup whatever the running state. *)
Theorem stop_releases_game_buttons (st : State) :
  reachable DEFAULT_CONTROLS controls st ->
  isRunning st = true ->
  pressedButtons
    (fst (step DEFAULT_CONTROLS controls (Running false) st)) = []
  /\ (forall b, In b (pressedButtons st) ->
        includes SYSTEM_BUTTONS b = false ->
        exists code,
          getButtonKeyboardCode DEFAULT_CONTROLS controls b = Some code
          /\ truthy code = true
          /\ In (dispatch keyup code)
                (snd (step DEFAULT_CONTROLS controls (Running false) st)))
  /\ (forall d,
        In d (snd (step DEFAULT_CONTROLS controls (Running false) st)) ->
        d_type d = keyup)
  /\ tapTimers (fst (step DEFAULT_CONTROLS controls (Running false) st))
     = tapTimers st
  /\ (forall st1 id code b,
        callbackOf id (tapTimers st1) = Some (code, b) ->
        In (dispatch keyup code)
           (snd (step DEFAULT_CONTROLS controls (TapTimer id) st1))).
Proof.
  intros Hreach Hrun.
  pose proof (reachable_coded st Hreach) as Hcoded.
  assert (Hstep :
    step DEFAULT_CONTROLS controls (Running false) st
    = releaseAllEffect DEFAULT_CONTROLS controls (set_isRunning false st)).
  { unfold step. cbn [handle].
    now destruct (releaseAllEffect DEFAULT_CONTROLS controls _). }
  rewrite Hstep.
  destruct (releaseAllEffect_cases (set_isRunning false st))
    as [[E [Hr | Hp]] | [_ [Hnil [_ [Ht Hout]]]]].
  - discriminate Hr.
  - rewrite E. simpl in *. rewrite Hp.
    split; [reflexivity |]. split; [intros b [] |].
    split; [intros d [] |]. split; [reflexivity |].
    apply tap_timer_dispatches.
  - rewrite Hout. simpl in *.
    split; [exact Hnil |]. split; [| split; [| split; [exact Ht |]]].
    + intros b Hb Hsys. specialize (Hcoded b Hb).
      destruct (getButtonKeyboardCode DEFAULT_CONTROLS controls b)
        as [code |] eqn:Ec; [| discriminate Hcoded].
      simpl in Hcoded. apply negb_false_iff in Hcoded.
      exists code. repeat split; try assumption.
      apply in_flat_map. exists b. split; [exact Hb |].
      unfold releaseOut. rewrite Hsys, Ec, Hcoded. now left.
    + intros d Hd. apply in_flat_map in Hd as [b [_ Hd]].
      unfold releaseOut in Hd.
      destruct (includes SYSTEM_BUTTONS b); [contradiction |].
      destruct (getButtonKeyboardCode DEFAULT_CONTROLS controls b)
        as [c |]; [| contradiction].
      destruct (truthy c); [| contradiction].
      destruct Hd as [<- | []]. reflexivity.
    + apply tap_timer_dispatches.
Qed.

End Container.

Lemma holdingA_tappedStart_reachable :
  reachable noDefaults someControls holdingA_tappedStart.
Proof.
  exact (reachable_step noDefaults someControls _ (Press "start")
           (reachable_step noDefaults someControls _ (PressDown "a")
              (reachable_initial noDefaults someControls true))).
Qed.

(** C5 with "a" held and a tap on start under way: stopping the emulator
    empties the pressed set and dispatches the keyup of "a"; the tap's
    timer then still dispatches the keyup of start. *)
Lemma stop_releases_game_buttons_witness :
  pressedButtons holdingA_tappedStart = ["a"; "start"]
  /\ pressedButtons
       (fst (step noDefaults someControls (Running false)
               holdingA_tappedStart)) = []
  /\ In (dispatch keyup "KeyX")
        (snd (step noDefaults someControls (Running false)
                holdingA_tappedStart))
  /\ In (dispatch keyup "Enter")
        (snd (step noDefaults someControls (TapTimer 1)
                (fst (step noDefaults someControls (Running false)
                        holdingA_tappedStart)))).
Proof.
  pose proof (stop_releases_game_buttons noDefaults someControls
                holdingA_tappedStart holdingA_tappedStart_reachable eq_refl)
    as [H1 [H2 [_ [_ H5]]]].
  split; [reflexivity |]. split; [exact H1 |]. split.
  - destruct (H2 "a" (or_introl eq_refl) eq_refl) as [code [Hc [_ Hin]]].
    injection Hc as <-. exact Hin.
  - apply (H5 _ 1%nat "Enter" "start"). reflexivity.
Defined.

End StopFacts.

(** ** The pad: recomputing the direction set *)
Module DirectionFacts.
Import Js Dom KeyboardEvents Dpad PadSpec.
Open Scope string_scope.
Open Scope list_scope.

Lemma keyEvents_app (a b : list Effect) :
  keyEvents (a ++ b) = keyEvents a ++ keyEvents b.
Proof.
  induction a as [| e a IH]; simpl; [reflexivity |].
  destruct e; simpl; now rewrite IH.
Qed.

Section Pad.
Variable p : Props.
Variable vibrate : bool.

Lemma keyEvents_releaseKey (d : Direction) :
  keyEvents (releaseKey p d)
  = if mapped p d then [dispatch keyup (getKeyCode p d)] else [].
Proof. unfold releaseKey, mapped. now destruct (truthy _). Qed.

Lemma keyEvents_engageKey (d : Direction) :
  keyEvents (engageKey p vibrate d)
  = if mapped p d then [dispatch keydown (getKeyCode p d)] else [].
Proof.
  unfold engageKey, mapped. destruct (truthy _); [| reflexivity].
  now destruct vibrate.
Qed.

(** The key events of a guarded [forEach] are those of the directions that
    pass the guard and have a key code. *)
Lemma keyEvents_forEach (guard : Direction -> bool)
    (body : Direction -> list Effect) (ty : KeyType) (ds : list Direction) :
  (forall d, keyEvents (body d)
             = if mapped p d then [dispatch ty (getKeyCode p d)] else []) ->
  keyEvents (flat_map (fun d => if guard d then body d else []) ds)
  = map (fun d => dispatch ty (getKeyCode p d))
        (filter (mapped p) (filter guard ds)).
Proof.
  intros Hbody. induction ds as [| d ds IH]; simpl; [reflexivity |].
  rewrite keyEvents_app, IH.
  destruct (guard d); simpl; [| reflexivity].
  rewrite Hbody. now destruct (mapped p d).
Qed.

Lemma default_keys_mapped (d : Direction) :
  controls p = None -> mapped p d = true.
Proof.
  intros Hc. unfold mapped, getKeyCode. rewrite Hc. now destruct d.
Qed.

Lemma filter_all {A : Type} (f : A -> bool) (l : list A) :
  (forall a, f a = true) -> filter f l = l.
Proof.
  intros Hf. induction l as [| a l IH]; simpl; [reflexivity |].
  now rewrite Hf, IH.
Qed.

Lemma has_In (d : Direction) (ds : list Direction) :
  has Direction_eqb d ds = true <-> In d ds.
Proof.
  unfold has. rewrite existsb_exists. split.
  - intros [e [He Heq]]. now destruct d, e.
  - intros Hd. exists d. split; [exact Hd | now destruct d].
Qed.

(** The key events of a recomputation, over the directions that have a
    key code. *)
Lemma updateDirections_keyEvents (next : list Direction) (st : State) :
  deltaOfMapped p (activeDirectionsRef st) next
    (snd (updateDirections p vibrate next st)).
Proof.
  unfold deltaOfMapped, updateDirections, leaving, entering; simpl.
  rewrite keyEvents_app.
  rewrite (keyEvents_forEach
             (fun d => negb (has Direction_eqb d next))
             (releaseKey p) keyup) by apply keyEvents_releaseKey.
  rewrite (keyEvents_forEach
             (fun d => negb (has Direction_eqb d (activeDirectionsRef st)))
             (engageKey p vibrate) keydown) by apply keyEvents_engageKey.
  reflexivity.
Qed.

(** C1, as amended.  A recomputation makes the new set the active set,
    and its key events are exactly: a keyup for each direction that leaves
    the set and has a key code, then a keydown for each direction that
    enters it and has a key code, each direction counted once; a direction
    in both sets is in neither group, so that of two consecutive
    recomputations the second dispatches only the difference between the
    two computed sets.  With the default keys every direction has a key
    code, and the key events are one keyup per leaving and one keydown per
    entering direction. *)
Theorem updateDirections_delta (next : list Direction) (st : State) :
  activeDirectionsRef (fst (updateDirections p vibrate next st)) = next
  /\ deltaOfMapped p (activeDirectionsRef st) next
       (snd (updateDirections p vibrate next st))
  /\ (forall d, In d (activeDirectionsRef st) -> In d next ->
        ~ In d (leaving (activeDirectionsRef st) next)
        /\ ~ In d (entering (activeDirectionsRef st) next))
  /\ (NoDup (activeDirectionsRef st) -> NoDup next ->
      NoDup (leaving (activeDirectionsRef st) next)
      /\ NoDup (entering (activeDirectionsRef st) next))
  /\ (forall later,
        deltaOfMapped p next later
          (snd (updateDirections p vibrate later
                  (fst (updateDirections p vibrate next st)))))
  /\ (controls p = None ->
      deltaAsWorded p (activeDirectionsRef st) next
        (snd (updateDirections p vibrate next st))).
Proof.
  pose proof (updateDirections_keyEvents next st) as Hdelta.
  split; [reflexivity |]. split; [exact Hdelta |].
  split; [| split; [| split]].
  - intros d Hprev Hnext. unfold leaving, entering.
    rewrite !filter_In.
    apply has_In in Hprev, Hnext. rewrite Hprev, Hnext. simpl.
    split; intros [_ H]; discriminate H.
  - intros Hp Hn. unfold leaving, entering.
    split; now apply NoDup_filter.
  - intros later.
    exact (updateDirections_keyEvents later
             (fst (updateDirections p vibrate next st))).
  - intros Hc. unfold deltaAsWorded. unfold deltaOfMapped in Hdelta.
    rewrite Hdelta.
    now rewrite !filter_all by (intros d; now apply default_keys_mapped).
Qed.

End Pad.

(** C1 on the pad with default keys: from the set {up} to the set
    {up, right}, the only key event is the keydown of right. *)
Lemma updateDirections_delta_witness :
  keyEvents
    (snd (updateDirections pad false [up; right]
            (set_activeDirectionsRef [up] initial)))
  = [dispatch keydown "ArrowRight"].
Proof.
  exact (proj2 (proj2 (proj2 (proj2 (proj2
           (updateDirections_delta pad false [up; right]
              (set_activeDirectionsRef [up] initial)))))) eq_refl).
Defined.

(** C1, as worded, fails: with a mapping that leaves "up" without a key
    code, the recomputation from the empty set to {up} dispatches
    nothing. *)
Lemma updateDirections_unmapped_direction_silent :
  snd (updateDirections padWithoutUp false [up] initial) = []
  /\ ~ deltaAsWorded padWithoutUp (activeDirectionsRef initial) [up]
         (snd (updateDirections padWithoutUp false [up] initial)).
Proof.
  split; [reflexivity |].
  unfold deltaAsWorded. simpl. discriminate.
Qed.

End DirectionFacts.

(** ** The pad: directions from a touch *)
Module AngleFacts.
Import Js Dom JsFacts KeyboardEvents Dpad PadSpec DirectionFacts.
Open Scope list_scope.

Lemma In_add_direction (a d : Direction) (s : list Direction) :
  In d (add Direction_eqb a s) <-> d = a \/ In d s.
Proof.
  unfold add. destruct (has Direction_eqb a s) eqn:Hh.
  - apply has_In in Hh. split; [now right |].
    intros [-> | H]; assumption.
  - rewrite in_app_iff. simpl. intuition.
Qed.

(** The angle in degrees lies between -180 and 180. *)
Lemma padAngle_range (touchX touchY : R) (rect : DOMRect) :
  -180 < padAngle touchX touchY rect <= 180.
Proof.
  unfold padAngle.
  pose proof (atan2_range (touchY - centerY rect) (touchX - centerX rect))
    as [Hlo Hhi].
  pose proof PI_RGT_0 as Hpi.
  assert (Hk : 0 < 180 / PI) by (apply Rdiv_lt_0_compat; lra).
  assert (E : PI * (180 / PI) = 180) by (field; lra).
  split.
  - replace (-180) with (- PI * (180 / PI)) by lra.
    now apply Rmult_lt_compat_r.
  - rewrite <- E at 2. apply Rmult_le_compat_r; lra.
Qed.

(** The function in terms of the distance, the dead zone and the angle. *)
Lemma getDirectionsFromTouch_unfold (touchX touchY : R) (rect : DOMRect) :
  getDirectionsFromTouch touchX touchY rect
  = if ltb (padDistance touchX touchY rect) (deadZone rect) then []
    else
      let angle := padAngle touchX touchY rect in
      let ds := [] in
      let ds := if (geb angle (-150) && leb angle (-30))%bool
                then add Direction_eqb up ds else ds in
      let ds := if (geb angle 30 && leb angle 150)%bool
                then add Direction_eqb down ds else ds in
      let ds := if (geb angle 120 || leb angle (-120))%bool
                then add Direction_eqb left ds else ds in
      if (geb angle (-60) && leb angle 60)%bool
      then add Direction_eqb right ds else ds.
Proof. reflexivity. Qed.

Lemma directions_membership (touchX touchY : R) (rect : DOMRect) :
  deadZone rect <= padDistance touchX touchY rect ->
  let angle := padAngle touchX touchY rect in
  let ds := getDirectionsFromTouch touchX touchY rect in
  (In up ds <-> -150 <= angle <= -30)
  /\ (In down ds <-> 30 <= angle <= 150)
  /\ (In left ds <-> 120 <= angle \/ angle <= -120)
  /\ (In right ds <-> -60 <= angle <= 60).
Proof.
  intros Hd angle ds. subst ds.
  rewrite getDirectionsFromTouch_unfold.
  apply ltb_false_iff in Hd. rewrite Hd. fold angle. cbv zeta.
  assert (Hu : (geb angle (-150) && leb angle (-30))%bool = true
               <-> -150 <= angle <= -30).
  { rewrite andb_true_iff, geb_true_iff, leb_true_iff. lra. }
  assert (Hdn : (geb angle 30 && leb angle 150)%bool = true
                <-> 30 <= angle <= 150).
  { rewrite andb_true_iff, geb_true_iff, leb_true_iff. lra. }
  assert (Hl : (geb angle 120 || leb angle (-120))%bool = true
               <-> 120 <= angle \/ angle <= -120).
  { rewrite orb_true_iff, geb_true_iff, leb_true_iff. lra. }
  assert (Hr : (geb angle (-60) && leb angle 60)%bool = true
               <-> -60 <= angle <= 60).
  { rewrite andb_true_iff, geb_true_iff, leb_true_iff. lra. }
  rewrite <- Hu, <- Hdn, <- Hl, <- Hr.
  destruct (geb angle (-150) && leb angle (-30))%bool;
    destruct (geb angle 30 && leb angle 150)%bool;
    destruct (geb angle 120 || leb angle (-120))%bool;
    destruct (geb angle (-60) && leb angle 60)%bool;
    repeat rewrite In_add_direction; simpl;
    repeat split; intros H;
    try reflexivity; try discriminate H;
    try (decompose [or] H; try discriminate; contradiction);
    auto.
Qed.

Lemma padDistance_center (rect : DOMRect) :
  padDistance (centerX rect) (centerY rect) rect = 0.
Proof.
  unfold padDistance.
  replace (_ + _) with 0 by ring. apply sqrt_0.
Qed.

(** The computed set has no direction twice. *)
Lemma getDirectionsFromTouch_NoDup (touchX touchY : R) (rect : DOMRect) :
  NoDup (getDirectionsFromTouch touchX touchY rect).
Proof.
  rewrite getDirectionsFromTouch_unfold.
  destruct (ltb _ _); [constructor |]. cbv zeta.
  destruct (geb _ (-150) && leb _ (-30))%bool;
    destruct (geb _ 30 && leb _ 150)%bool;
    destruct (geb _ 120 || leb _ (-120))%bool;
    destruct (geb _ (-60) && leb _ 60)%bool;
    cbn; repeat constructor; simpl; intuition discriminate.
Qed.

End AngleFacts.

(** ** The pad: what holds in every reachable state *)
Module PadInvariant.
Import Js Dom JsFacts KeyboardEvents Dpad PadSpec.
Open Scope list_scope.

Section Pad.
Variable p : Props.
Variable vibrate : bool.

Lemma Inv_initial : Inv p initial.
Proof. split; simpl; intros; try discriminate; try contradiction; auto. Qed.

Lemma filter_none {A : Type} (f : A -> bool) (l : list A) :
  (forall a, In a l -> f a = false) -> filter f l = [].
Proof.
  induction l as [| a l IH]; simpl; intros H; [reflexivity |].
  rewrite (H a) by now left. apply IH. intros b Hb. apply H. now right.
Qed.

Lemma clearDragTimer_fields (st : State) :
  activeTouchRef (clearDragTimer st) = activeTouchRef st
  /\ activeDirectionsRef (clearDragTimer st) = activeDirectionsRef st
  /\ isDragging (clearDragTimer st) = isDragging st
  /\ dragTimerRef (clearDragTimer st) = None.
Proof.
  unfold clearDragTimer. destruct (dragTimerRef st) eqn:E; simpl; auto.
Qed.

Lemma clearDragTimer_pending (st : State) :
  Inv p st -> pending (holdTimers (clearDragTimer st)) = [].
Proof.
  intros HI. unfold clearDragTimer.
  destruct (dragTimerRef st) as [id |] eqn:E; simpl.
  - apply filter_none. intros q Hq.
    destruct (inv_timers p st HI q Hq) as [_ Hr].
    rewrite E in Hr. injection Hr as ->.
    now rewrite Nat.eqb_refl.
  - destruct (pending (holdTimers st)) as [| q l] eqn:Ep; [reflexivity |].
    destruct (inv_timers p st HI q) as [_ Hr]; [rewrite Ep; now left |].
    rewrite E in Hr. discriminate Hr.
Qed.

Lemma clearDragTimer_Inv (st : State) : Inv p st -> Inv p (clearDragTimer st).
Proof.
  intros HI.
  pose proof (clearDragTimer_fields st) as [F1 [F2 [F3 F4]]].
  pose proof (clearDragTimer_pending st HI) as Fp.
  split.
  - rewrite F1, F2, F3. apply (inv_drag p st HI).
  - rewrite F1, F2. intros H. split; [apply (inv_idle p st HI H) | exact Fp].
  - rewrite Fp. intros q [].
Qed.

Lemma not_dragging_when_idle (st : State) :
  Inv p st -> activeTouchRef st = None -> isDragging st = false.
Proof.
  intros HI Ha. destruct (isDragging st) eqn:Hd; [| reflexivity].
  destruct (inv_drag p st HI Hd) as [_ [_ Hn]]. contradiction.
Qed.

Lemma handleTouchStart_Inv (first : Touch) (rect : option DOMRect)
    (st : State) :
  Inv p st -> Inv p (fst (handleTouchStart p vibrate first rect st)).
Proof.
  intros HI. unfold handleTouchStart.
  destruct (activeTouchRef st) as [a |] eqn:Ha; [exact HI |].
  pose proof (not_dragging_when_idle st HI Ha) as Hd.
  destruct (inv_idle p st HI Ha) as [_ Hp].
  destruct rect as [rect |]; simpl.
  - destruct (ltb _ _ && onPositionChange p)%bool eqn:Hc; simpl;
      rewrite Hd; simpl.
    + apply andb_true_iff in Hc as [_ Hc].
      split; simpl.
      * rewrite Hd. discriminate.
      * discriminate.
      * rewrite Hp. simpl. intros q [<- | []]. simpl. auto.
    + split; simpl.
      * rewrite Hd. discriminate.
      * discriminate.
      * rewrite Hp. intros q [].
  - split; simpl.
    + rewrite Hd. discriminate.
    + discriminate.
    + rewrite Hp. intros q [].
Qed.

Lemma callbackOf_In {A : Type} (id : nat) (ts : timeouts A) (a : A) :
  callbackOf id ts = Some a -> In (id, a) (pending ts).
Proof.
  unfold callbackOf.
  destruct (find _ (pending ts)) as [q |] eqn:E; [| discriminate].
  intros H. injection H as <-.
  apply find_some in E as [Hin Heq].
  apply Nat.eqb_eq in Heq. subst id. now destruct q.
Qed.

Lemma holdTimerFires_Inv (id : nat) (st : State) :
  Inv p st -> Inv p (fst (holdTimerFires p vibrate id st)).
Proof.
  intros HI. unfold holdTimerFires.
  destruct (callbackOf id (holdTimers st)) as [[tx ty] |] eqn:E;
    [| exact HI].
  apply callbackOf_In in E.
  destruct (inv_timers p st HI _ E) as [Hpos _].
  assert (Ha : activeTouchRef st <> None).
  { intros Ha. destruct (inv_idle p st HI Ha) as [_ Hp].
    rewrite Hp in E. contradiction. }
  split; simpl.
  - auto.
  - intros H. contradiction.
  - intros q Hq. apply filter_In in Hq as [Hq _].
    apply (inv_timers p st HI q Hq).
Qed.

Lemma findTouch_tracked (active : option nat) (touches : list Touch)
    (t : Touch) :
  findTouch active touches = Some t -> active <> None.
Proof. destruct active; [discriminate | discriminate]. Qed.

Lemma handleTouchMove_Inv (touches : list Touch) (rect : option DOMRect)
    (st : State) :
  Inv p st -> Inv p (fst (handleTouchMove p vibrate touches rect st)).
Proof.
  intros HI. unfold handleTouchMove.
  destruct (findTouch (activeTouchRef st) touches) as [touch |] eqn:Ef;
    [| exact HI].
  apply findTouch_tracked in Ef.
  destruct (isDragging st && onPositionChange p)%bool eqn:Hc; [exact HI |].
  assert (Hd : isDragging st = false).
  { destruct (isDragging st) eqn:Hd; [| reflexivity].
    destruct (inv_drag p st HI Hd) as [_ [Hpos _]].
    rewrite Hpos in Hc. discriminate Hc. }
  set (st1 := if gtb _ 15 then clearDragTimer st else st).
  assert (H1 : Inv p st1 /\ activeTouchRef st1 = activeTouchRef st
               /\ isDragging st1 = false).
  { subst st1. destruct (gtb _ 15).
    - pose proof (clearDragTimer_fields st) as [F1 [_ [F3 _]]].
      split; [now apply clearDragTimer_Inv |]. split; congruence.
    - auto. }
  destruct H1 as [HI1 [Ha1 Hd1]].
  destruct rect as [rect |]; [| exact HI1].
  split; simpl.
  - rewrite Hd1. discriminate.
  - rewrite Ha1. intros H. contradiction.
  - apply (inv_timers p st1 HI1).
Qed.

Lemma handleTouchEnd_Inv (touches : list Touch) (st : State) :
  Inv p st -> Inv p (fst (handleTouchEnd p touches st)).
Proof.
  intros HI. unfold handleTouchEnd.
  pose proof (clearDragTimer_Inv st HI) as HI1.
  pose proof (clearDragTimer_pending st HI) as Hp1.
  pose proof (clearDragTimer_fields st) as [F1 [F2 [F3 F4]]].
  set (st1 := clearDragTimer st) in *.
  destruct (findTouch (activeTouchRef st1) touches); [| exact HI1].
  simpl. destruct (isDragging st1) eqn:Hd; simpl.
  - split; simpl.
    + discriminate.
    + intros _. split; [apply (inv_drag p st1 HI1 Hd) | exact Hp1].
    + rewrite Hp1. intros q [].
  - split; simpl.
    + rewrite Hd. discriminate.
    + auto.
    + rewrite Hp1. intros q [].
Qed.

Lemma step_Inv (ev : Event) (st : State) :
  Inv p st -> Inv p (fst (step p vibrate ev st)).
Proof.
  destruct ev; simpl.
  - apply handleTouchStart_Inv.
  - apply handleTouchMove_Inv.
  - apply handleTouchEnd_Inv.
  - apply handleTouchEnd_Inv.
  - apply holdTimerFires_Inv.
Qed.

(** The active set stays a set. *)
Lemma step_NoDup (ev : Event) (st : State) :
  NoDup (activeDirectionsRef st) ->
  NoDup (activeDirectionsRef (fst (step p vibrate ev st))).
Proof.
  intros Hn.
  destruct (clearDragTimer_fields st) as [_ [F2 _]].
  destruct ev as [first rect | touches rect | touches | touches | id];
    simpl.
  - unfold handleTouchStart.
    destruct (activeTouchRef st); [exact Hn |].
    destruct rect; simpl; [| exact Hn].
    destruct (ltb _ _ && onPositionChange p)%bool; simpl;
      destruct (isDragging st); simpl;
      try exact Hn; apply AngleFacts.getDirectionsFromTouch_NoDup.
  - unfold handleTouchMove.
    destruct (findTouch _ _); [| exact Hn].
    destruct (isDragging st && onPositionChange p)%bool; [exact Hn |].
    destruct rect, (gtb _ 15); simpl;
      try apply AngleFacts.getDirectionsFromTouch_NoDup;
      try exact Hn; now rewrite F2.
  - unfold handleTouchEnd.
    destruct (findTouch _ _); simpl; [| now rewrite F2].
    destruct (isDragging (clearDragTimer st)); simpl;
      [now rewrite F2 | constructor].
  - unfold handleTouchEnd.
    destruct (findTouch _ _); simpl; [| now rewrite F2].
    destruct (isDragging (clearDragTimer st)); simpl;
      [now rewrite F2 | constructor].
  - unfold holdTimerFires.
    destruct (callbackOf id (holdTimers st)) as [[tx ty] |]; simpl;
      [constructor | exact Hn].
Qed.

Lemma reachable_NoDup (st : State) :
  reachable p vibrate st -> NoDup (activeDirectionsRef st).
Proof.
  induction 1 as [| st ev _ IH]; [constructor | now apply step_NoDup].
Qed.

Lemma reachable_Inv (st : State) : reachable p vibrate st -> Inv p st.
Proof.
  induction 1 as [| st ev _ IH]; [apply Inv_initial | now apply step_Inv].
Qed.

Lemma reachable_run (evs : list Event) (st : State) :
  reachable p vibrate st -> reachable p vibrate (fst (run p vibrate evs st)).
Proof.
  revert st; induction evs as [| ev evs IH]; intros st Hr; simpl;
    [exact Hr |].
  pose proof (reachable_step p vibrate st ev Hr) as H1.
  destruct (step p vibrate ev st) as [st1 out1]; simpl in H1.
  specialize (IH st1 H1).
  destruct (run p vibrate evs st1) as [st2 out2]; simpl in *. exact IH.
Qed.

End Pad.

End PadInvariant.

(** ** The pad: dead zone and angle ranges *)
Module DeadZoneFacts.
Import Js Dom JsFacts KeyboardEvents Dpad PadSpec DirectionFacts AngleFacts
       PadInvariant.
Open Scope string_scope.
Open Scope list_scope.

(** Decides the comparisons of the goal whose sides are numerals. *)
Ltac decide_cmp :=
  unfold gtb, geb;
  repeat match goal with
  | |- context [ltb ?a ?b] =>
      first [ rewrite (proj2 (ltb_true_iff a b)) by lra
            | rewrite (proj2 (ltb_false_iff a b)) by lra ]
  | |- context [leb ?a ?b] =>
      first [ rewrite (proj2 (leb_true_iff a b)) by lra
            | rewrite (proj2 (leb_false_iff a b)) by lra ]
  end.

Lemma in_dead_zone_empty (touchX touchY : R) (rect : DOMRect) :
  padDistance touchX touchY rect < deadZone rect ->
  getDirectionsFromTouch touchX touchY rect = [].
Proof.
  intros H. rewrite getDirectionsFromTouch_unfold.
  now rewrite (proj2 (ltb_true_iff _ _) H).
Qed.

Lemma center_empty (rect : DOMRect) :
  0 < width rect ->
  getDirectionsFromTouch (centerX rect) (centerY rect) rect = [].
Proof.
  intros Hw. apply in_dead_zone_empty.
  rewrite padDistance_center. unfold deadZone. lra.
Qed.

(** A recomputation to the empty set dispatches no keydown, and nothing
    at all when no direction was active. *)
Lemma updateDirections_empty (p : Props) (vibrate : bool) (st : State) :
  (forall call,
      In call (keyEvents (snd (updateDirections p vibrate [] st))) ->
      d_type call = keyup)
  /\ (activeDirectionsRef st = [] ->
      snd (updateDirections p vibrate [] st) = []).
Proof.
  split.
  - pose proof (updateDirections_keyEvents p vibrate [] st) as Hd.
    unfold deltaOfMapped in Hd. rewrite Hd. simpl. rewrite app_nil_r.
    intros call Hc. apply in_map_iff in Hc as [d [<- _]]. reflexivity.
  - intros Ha. unfold updateDirections. simpl. now rewrite Ha.
Qed.

(** A touch that lands on the centre of a pad of positive width dispatches
    nothing. *)
Lemma touch_start_at_center_silent (p : Props) (vibrate : bool)
    (st : State) (id : nat) (rect : DOMRect) :
  reachable p vibrate st ->
  0 < width rect ->
  snd (handleTouchStart p vibrate
         {| identifier := id; clientX := centerX rect;
            clientY := centerY rect |} (Some rect) st) = [].
Proof.
  intros Hr Hw. apply reachable_Inv in Hr.
  unfold handleTouchStart.
  destruct (activeTouchRef st) eqn:Ha; [reflexivity |].
  pose proof (not_dragging_when_idle p st Hr Ha) as Hd.
  destruct (inv_idle p st Hr Ha) as [Hact _].
  cbn [clientX clientY identifier].
  change (Dom.left rect + width rect / 2) with (centerX rect).
  change (top rect + height rect / 2) with (centerY rect).
  rewrite (center_empty rect Hw).
  destruct (ltb _ _ && onPositionChange p)%bool; simpl; rewrite Hd; simpl;
    now rewrite Hact.
Qed.

(** C3.  A touch closer to the centre of the pad's rectangle than 15% of
    the half-width gives the empty set; otherwise, with the angle of the
    touch in degrees, up is in the set iff the angle is in [-150, -30],
    down iff it is in [30, 150], left iff it is in [120, 180] or
    [-180, -120], right iff it is in [-60, 60].  On a pad of positive width
    the exact centre gives the empty set, and a touch landing there
    dispatches nothing. *)
Theorem directions_from_touch (touchX touchY : R) (rect : DOMRect) :
  (padDistance touchX touchY rect < deadZone rect ->
   getDirectionsFromTouch touchX touchY rect = [])
  /\ (deadZone rect <= padDistance touchX touchY rect ->
      (In up (getDirectionsFromTouch touchX touchY rect)
       <-> -150 <= padAngle touchX touchY rect <= -30)
      /\ (In down (getDirectionsFromTouch touchX touchY rect)
          <-> 30 <= padAngle touchX touchY rect <= 150)
      /\ (In left (getDirectionsFromTouch touchX touchY rect)
          <-> 120 <= padAngle touchX touchY rect <= 180
              \/ -180 <= padAngle touchX touchY rect <= -120)
      /\ (In right (getDirectionsFromTouch touchX touchY rect)
          <-> -60 <= padAngle touchX touchY rect <= 60))
  /\ (0 < width rect ->
      padDistance (centerX rect) (centerY rect) rect = 0
      /\ getDirectionsFromTouch (centerX rect) (centerY rect) rect = []
      /\ forall p vibrate st id,
           reachable p vibrate st ->
           snd (handleTouchStart p vibrate
                  {| identifier := id; clientX := centerX rect;
                     clientY := centerY rect |} (Some rect) st) = []).
Proof.
  split; [apply in_dead_zone_empty |]. split.
  - intros Hd.
    destruct (directions_membership touchX touchY rect Hd)
      as [Hu [Hdn [Hl Hr]]].
    pose proof (padAngle_range touchX touchY rect) as Hrange.
    split; [exact Hu |]. split; [exact Hdn |]. split; [| exact Hr].
    split; intros H; [apply Hl in H; lra | apply Hl; lra].
  - intros Hw. split; [apply padDistance_center |].
    split; [now apply center_empty |].
    intros p vibrate st id Hr. now apply touch_start_at_center_silent.
Qed.

Lemma padAngle_up_right (k : R) :
  0 < k ->
  padAngle (centerX padRect + k) (centerY padRect - k) padRect = -45.
Proof.
  intros Hk. unfold padAngle, atan2.
  replace (centerX padRect + k - centerX padRect) with k by ring.
  replace (centerY padRect - k - centerY padRect) with (- k) by ring.
  rewrite (proj2 (ltb_true_iff 0 k)) by lra.
  replace (- k / k) with (- (1)) by (field; lra).
  rewrite atan_opp, atan_1.
  pose proof PI_RGT_0. field. lra.
Qed.

Lemma padDistance_up_right :
  deadZone padRect
  <= padDistance (centerX padRect + 50) (centerY padRect - 50) padRect.
Proof.
  unfold padDistance, deadZone.
  replace (centerX padRect + 50 - centerX padRect) with 50 by ring.
  replace (centerY padRect - 50 - centerY padRect) with (- (50)) by ring.
  simpl.
  replace (180 / 2 * (15 / 100)) with (sqrt ((27 / 2) * (27 / 2))).
  - apply sqrt_le_1_alt. lra.
  - rewrite sqrt_square; lra.
Qed.

(** C3 on the diagonal: a touch up and to the right of the centre, at
    -45 degrees, has exactly up and right active. *)
Lemma directions_from_touch_witness :
  In up (getDirectionsFromTouch (centerX padRect + 50)
           (centerY padRect - 50) padRect)
  /\ In right (getDirectionsFromTouch (centerX padRect + 50)
                 (centerY padRect - 50) padRect)
  /\ ~ In down (getDirectionsFromTouch (centerX padRect + 50)
                  (centerY padRect - 50) padRect)
  /\ ~ In left (getDirectionsFromTouch (centerX padRect + 50)
                  (centerY padRect - 50) padRect).
Proof.
  destruct (directions_from_touch (centerX padRect + 50)
              (centerY padRect - 50) padRect) as [_ [H _]].
  destruct (H padDistance_up_right) as [Hu [Hd [Hl Hr]]].
  rewrite (padAngle_up_right 50) in Hu, Hd, Hl, Hr by lra.
  split; [apply Hu; lra |]. split; [apply Hr; lra |].
  split; intros Hin; [apply Hd in Hin | apply Hl in Hin]; lra.
Defined.

End DeadZoneFacts.

(** ** The pad: a move beyond the threshold *)
Module PadMoveFacts.
Import Js Dom JsFacts KeyboardEvents Dpad PadSpec DirectionFacts AngleFacts
       PadInvariant DeadZoneFacts ButtonFacts ScenarioSpec.
Open Scope string_scope.
Open Scope list_scope.

Section Pad.
Variable p : Props.
Variable vibrate : bool.

Lemma pad_handleTouchMove_far (touches : list Touch) (rect : option DOMRect)
    (st : State) (touch : Touch) :
  findTouch (activeTouchRef st) touches = Some touch ->
  isDragging st = false ->
  padMoveDistance touch st > 15 ->
  handleTouchMove p vibrate touches rect st
  = match rect with
    | Some r =>
        updateDirections p vibrate
          (getDirectionsFromTouch (clientX touch) (clientY touch) r)
          (clearDragTimer st)
    | None => (clearDragTimer st, [])
    end.
Proof.
  intros Hf Hd Hfar. unfold handleTouchMove. rewrite Hf, Hd. simpl.
  unfold padMoveDistance in Hfar.
  now rewrite (proj2 (gtb_true_iff _ _) Hfar).
Qed.

Lemma touch_handlers_keep_not_dragging (ev : Event) (st : State) :
  isDragging st = false ->
  (forall id, ev <> HoldTimer id) ->
  isDragging (fst (step p vibrate ev st)) = false.
Proof.
  intros Hd Hev. destruct ev as [first rect | touches rect | touches
                                 | touches | id]; simpl.
  - unfold handleTouchStart.
    destruct (activeTouchRef st); [exact Hd |].
    destruct rect; simpl; [| exact Hd].
    destruct (ltb _ _ && onPositionChange p)%bool; simpl; rewrite Hd;
      simpl; exact Hd.
  - unfold handleTouchMove.
    destruct (findTouch _ _); [| exact Hd].
    rewrite Hd. simpl.
    destruct (gtb _ 15), rect; simpl; try exact Hd;
      destruct (clearDragTimer_fields st) as [_ [_ [F _]]]; congruence.
  - unfold handleTouchEnd.
    destruct (clearDragTimer_fields st) as [_ [_ [F _]]].
    destruct (findTouch _ _); simpl; [| congruence].
    rewrite F, Hd. simpl. congruence.
  - unfold handleTouchEnd.
    destruct (clearDragTimer_fields st) as [_ [_ [F _]]].
    destruct (findTouch _ _); simpl; [| congruence].
    rewrite F, Hd. simpl. congruence.
  - now destruct (Hev id).
Qed.

(** A touch-start the pad accepts registers a hold timer exactly when the
    pad's rectangle is there, the position callback is configured and the
    touch is less than 25% of the pad's size from the centre. *)
Lemma pad_hold_timer_armed_iff (first : Touch) (rect : option DOMRect)
    (st : State) :
  activeTouchRef st = None ->
  (padArmsHoldTimer p vibrate first rect st
   <-> exists r, rect = Some r /\ onPositionChange p = true
         /\ hypot (clientX first - centerX r) (clientY first - centerY r)
            < (25 / 100) * size p).
Proof.
  intros Ha. unfold padArmsHoldTimer, handleTouchStart. rewrite Ha.
  destruct rect as [r |]; simpl.
  - fold (centerX r). fold (centerY r).
    destruct (ltb _ _) eqn:Hl; destruct (onPositionChange p) eqn:Hp;
      simpl; destruct (isDragging st); simpl;
      rewrite ?length_app; simpl;
      (split; [intros H | intros [r' [E [Hp' Hd]]]]);
      try lia; try discriminate;
      try (exists r; repeat split; try reflexivity;
           apply ltb_true_iff in Hl; unfold CENTER_TOUCH_RADIUS in Hl; lra);
      try (injection E as <-; apply ltb_false_iff in Hl;
           unfold CENTER_TOUCH_RADIUS in Hl; lra).
  - split; [intros H; lia | intros [r' [E _]]; discriminate E].
Qed.

(** C8, as amended.  On the pad, a move of the tracked touch farther than
    15 pixels from the touch-start point, while not dragging, cancels the
    hold timer the pad holds and does not enter drag mode: direction
    detection goes on, the active set becoming the set computed from the
    touch.  Drag mode is entered by the hold timer firing and by nothing
    else; the hold timer is registered by an accepted touch-start that
    lands less than 25% of the pad's size from the centre, with the
    position callback configured. *)
Theorem pad_move_cancels_hold_timer :
  (forall (touches : list Touch) (rect : option DOMRect) (st : State)
          (touch : Touch),
      findTouch (activeTouchRef st) touches = Some touch ->
      isDragging st = false ->
      padMoveDistance touch st > 15 ->
      isDragging (fst (handleTouchMove p vibrate touches rect st)) = false
      /\ dragTimerRef (fst (handleTouchMove p vibrate touches rect st))
         = None
      /\ (forall id, dragTimerRef st = Some id ->
            isPending id
              (holdTimers (fst (handleTouchMove p vibrate touches rect st)))
            = false)
      /\ (forall r, rect = Some r ->
            activeDirectionsRef
              (fst (handleTouchMove p vibrate touches rect st))
            = getDirectionsFromTouch (clientX touch) (clientY touch) r))
  /\ (forall (ev : Event) (st : State),
        isDragging st = false ->
        isDragging (fst (step p vibrate ev st)) = true ->
        exists id, ev = HoldTimer id)
  /\ (forall (first : Touch) (rect : option DOMRect) (st : State),
        activeTouchRef st = None ->
        (padArmsHoldTimer p vibrate first rect st
         <-> exists r, rect = Some r /\ onPositionChange p = true
               /\ hypot (clientX first - centerX r)
                        (clientY first - centerY r)
                  < (25 / 100) * size p)).
Proof.
  split; [| split; [| exact pad_hold_timer_armed_iff]].
  - intros touches rect st touch Hf Hd Hfar.
    rewrite (pad_handleTouchMove_far touches rect st touch Hf Hd Hfar).
    destruct (clearDragTimer_fields st) as [_ [_ [F3 F4]]].
    assert (Hp : forall id, dragTimerRef st = Some id ->
                   isPending id (holdTimers (clearDragTimer st)) = false).
    { intros id E. unfold clearDragTimer. rewrite E. simpl.
      apply isPending_clearTimeout. }
    destruct rect as [r |]; simpl;
      (split; [congruence |]; split; [congruence |];
       split; [assumption |]; intros r' E; inversion E; reflexivity).
  - intros ev st Hd Hd'.
    destruct ev as [first rect | touches rect | touches | touches | id];
      try (rewrite touch_handlers_keep_not_dragging in Hd';
           [discriminate Hd' | exact Hd | intros id; discriminate]).
    now exists id.
Qed.

End Pad.

Lemma padDistance_right (k : R) :
  0 <= k -> padDistance (56 + k) 496 padRect = k.
Proof.
  intros Hk. unfold padDistance, centerX, centerY, padRect; simpl.
  replace (56 + k - (-34 + 180 / 2)) with k by lra.
  replace (496 - (406 + 180 / 2)) with 0 by lra.
  replace (k * k + 0 * 0) with (k * k) by ring.
  now apply sqrt_square.
Qed.

Lemma padAngle_right (k : R) :
  0 < k -> padAngle (56 + k) 496 padRect = 0.
Proof.
  intros Hk. unfold padAngle, atan2, centerX, centerY, padRect; simpl.
  replace (56 + k - (-34 + 180 / 2)) with k by lra.
  replace (496 - (406 + 180 / 2)) with 0 by lra.
  rewrite (proj2 (ltb_true_iff 0 k)) by lra.
  replace (0 / k) with 0 by (field; lra).
  rewrite atan_0. ring.
Qed.

Lemma directions_center : getDirectionsFromTouch (56 + 0) 496 padRect = [].
Proof.
  apply in_dead_zone_empty. rewrite padDistance_right by lra.
  unfold deadZone, padRect; simpl. lra.
Qed.

Lemma directions_right :
  getDirectionsFromTouch (56 + 20) 496 padRect = [right].
Proof.
  rewrite getDirectionsFromTouch_unfold.
  rewrite padDistance_right by lra. rewrite padAngle_right by lra.
  unfold deadZone, padRect; simpl. decide_cmp. reflexivity.
Qed.

Lemma padArmed_eq :
  padArmed
  = {| activeTouchRef := Some 7%nat; activeDirectionsRef := [];
       isDragging := false; dragTimerRef := Some 1%nat;
       dragStartRef := Build_DragStart 0 0 0 0;
       touchStartPosRef := (56 + 0, 496);
       holdTimers := Timeouts [(1%nat, (56 + 0, 496))] 2 |}.
Proof.
  unfold padArmed, handleTouchStart. simpl.
  rewrite directions_center.
  hypot_is 0. unfold CENTER_TOUCH_RADIUS. decide_cmp. reflexivity.
Qed.

(** C8 on the pad with a touch that landed on the centre and moved 20
    pixels: the hold timer is cancelled, the pad is not dragging, and the
    direction set is the one computed from the touch. *)
Lemma pad_move_cancels_hold_timer_witness :
  isDragging (fst padMoved) = false
  /\ dragTimerRef (fst padMoved) = None
  /\ isPending 1 (holdTimers (fst padMoved)) = false
  /\ activeDirectionsRef (fst padMoved) = [right].
Proof.
  assert (Hf : findTouch (activeTouchRef padArmed) [finger (56 + 20) 496]
               = Some (finger (56 + 20) 496))
    by (rewrite padArmed_eq; reflexivity).
  assert (Hd : isDragging padArmed = false)
    by (rewrite padArmed_eq; reflexivity).
  assert (Hfar : padMoveDistance (finger (56 + 20) 496) padArmed > 15).
  { rewrite padArmed_eq. unfold padMoveDistance; simpl. hypot_is 20. lra. }
  destruct (proj1 (pad_move_cancels_hold_timer pad false)
              [finger (56 + 20) 496] (Some padRect) padArmed
              (finger (56 + 20) 496) Hf Hd Hfar) as [H1 [H2 [H3 H4]]].
  unfold padMoved.
  split; [exact H1 |]. split; [exact H2 |]. split.
  - apply H3. rewrite padArmed_eq. reflexivity.
  - rewrite (H4 padRect eq_refl). apply directions_right.
Defined.

(** C8, as worded, fails: with the hold timer pending after a touch on the
    centre, a move of 20 pixels does not enter drag mode; it cancels the
    timer, and direction detection engages right. *)
Lemma pad_move_beyond_threshold_no_drag :
  isPending 1 (holdTimers padArmed) = true
  /\ padMoveDistance (finger (56 + 20) 496) padArmed > 15
  /\ isDragging (fst padMoved) = false
  /\ pending (holdTimers (fst padMoved)) = []
  /\ activeDirectionsRef (fst padMoved) = [right]
  /\ keyEvents (snd padMoved) = [dispatch keydown "ArrowRight"].
Proof.
  assert (Hfar : padMoveDistance (finger (56 + 20) 496) padArmed > 15).
  { rewrite padArmed_eq. unfold padMoveDistance; simpl. hypot_is 20. lra. }
  assert (E : padMoved
              = updateDirections pad false [right] (clearDragTimer padArmed)).
  { unfold padMoved.
    rewrite (pad_handleTouchMove_far pad false _ _ padArmed
               (finger (56 + 20) 496)); try assumption;
      try (rewrite padArmed_eq; reflexivity).
    simpl. now rewrite directions_right. }
  rewrite E, padArmed_eq.
  split; [reflexivity |]. split; [rewrite <- padArmed_eq; exact Hfar |].
  repeat split.
Qed.

End PadMoveFacts.

(** ** Entering drag mode *)
Module DragEntryFacts.
Import Js Dom JsFacts KeyboardEvents PadSpec ButtonSpec ScenarioSpec
       ContainerSpec DirectionFacts DragFacts PadInvariant HookFacts
       ButtonFacts StopFacts.
Open Scope string_scope.
Open Scope list_scope.

(** *** On the pad *)
Section Pad.
Variable p : Dpad.Props.
Variable vibrate : bool.

Lemma keyEvents_releaseAll (ds : list Dpad.Direction) :
  keyEvents (flat_map (Dpad.releaseKey p) ds)
  = map (fun d => dispatch keyup (Dpad.getKeyCode p d))
        (filter (mapped p) ds).
Proof.
  induction ds as [| d ds IH]; simpl; [reflexivity |].
  rewrite keyEvents_app, IH, keyEvents_releaseKey.
  now destruct (mapped p d).
Qed.

(** Entering drag mode on the pad: a keyup for every active direction
    that has a key code, and the active set emptied. *)
Lemma pad_startDragging (touchX touchY : R) (st : Dpad.State) :
  Dpad.isDragging (fst (Dpad.startDragging p vibrate touchX touchY st))
  = true
  /\ Dpad.activeDirectionsRef
       (fst (Dpad.startDragging p vibrate touchX touchY st)) = []
  /\ keyEvents (snd (Dpad.startDragging p vibrate touchX touchY st))
     = map (fun d => dispatch keyup (Dpad.getKeyCode p d))
           (filter (mapped p) (Dpad.activeDirectionsRef st)).
Proof.
  unfold Dpad.startDragging. simpl.
  split; [reflexivity |]. split; [reflexivity |].
  rewrite keyEvents_app, keyEvents_releaseAll.
  destruct vibrate; simpl; now rewrite app_nil_r.
Qed.

Lemma pad_dragging_nothing_active (st : Dpad.State) :
  Dpad.reachable p vibrate st ->
  Dpad.isDragging st = true -> Dpad.activeDirectionsRef st = [].
Proof.
  intros Hr Hd. apply reachable_Inv in Hr.
  now destruct (inv_drag p st Hr Hd).
Qed.

Lemma pad_position_after_release (st : Dpad.State) (touches : list Touch)
    (rect : option DOMRect) (x y : R) :
  Dpad.reachable p vibrate st ->
  In (Dpad.OnPositionChange x y)
     (snd (Dpad.handleTouchMove p vibrate touches rect st)) ->
  Dpad.isDragging st = true /\ Dpad.activeDirectionsRef st = [].
Proof.
  intros Hr Hin.
  destruct (pad_position_clamped p vibrate touches rect st x y Hin)
    as [[Hd _] _].
  split; [exact Hd | now apply pad_dragging_nothing_active].
Qed.

End Pad.

(** *** On a generic button *)
Section Button.
Variable DEFAULT_CONTROLS : ControlMapping.
Variable controls : option ControlMapping.
Variable props : TouchHandlers.Props.
Variable vibrate : bool.

Lemma hook_startDragging (touchX touchY : R) (st : TouchHandlers.State) :
  TouchHandlers.isDraggingRef
    (fst (TouchHandlers.startDragging props vibrate touchX touchY st)) = true
  /\ (TouchHandlers.isSystemButton props = false ->
      In (TouchHandlers.OnRelease (TouchHandlers.buttonType props))
         (snd (TouchHandlers.startDragging props vibrate touchX touchY st)))
  /\ (TouchHandlers.isSystemButton props = true ->
      forall b,
        ~ In (TouchHandlers.OnRelease b)
             (snd (TouchHandlers.startDragging props vibrate
                     touchX touchY st))).
Proof.
  unfold TouchHandlers.startDragging, TouchHandlers.haptic. simpl.
  split; [reflexivity |]. split.
  - intros Hs. rewrite Hs. simpl. rewrite in_app_iff. right. now left.
  - intros Hs b. rewrite Hs. simpl. rewrite app_nil_r.
    destruct vibrate; simpl; intuition discriminate.
Qed.

Lemma has_delete (b : string) (s : list string) :
  has String.eqb b (delete String.eqb b s) = false.
Proof.
  unfold has, delete. induction s as [| a s IH]; simpl; [reflexivity |].
  destruct (String.eqb b a) eqn:E; simpl; [exact IH |].
  now rewrite E.
Qed.

Lemma has_In_string (b : string) (s : list string) :
  has String.eqb b s = true <-> In b s.
Proof.
  unfold has. rewrite existsb_exists. split.
  - intros [a [Ha E]]. apply String.eqb_eq in E. now subst.
  - intros Hb. exists b. split; [exact Hb | apply String.eqb_refl].
Qed.

(** The release callback of the container takes a game button out of the
    pressed set when every pressed button has a key code. *)
Lemma release_step_unpresses (b : string) (st : VirtualController.State) :
  coded DEFAULT_CONTROLS controls st ->
  VirtualController.includes VirtualController.SYSTEM_BUTTONS b = false ->
  has String.eqb b
      (VirtualController.pressedButtons
         (fst (VirtualController.step DEFAULT_CONTROLS controls
                 (VirtualController.Release b) st))) = false.
Proof.
  intros Hc Hsys. unfold VirtualController.step.
  cbn [VirtualController.handle].
  assert (H1 : has String.eqb b
                 (VirtualController.pressedButtons
                    (fst (VirtualController.handleRelease
                            DEFAULT_CONTROLS controls b st))) = false).
  { unfold VirtualController.handleRelease. rewrite Hsys.
    destruct (has String.eqb b (VirtualController.pressedButtons st))
      eqn:Hh.
    - specialize (Hc b (proj1 (has_In_string b _) Hh)).
      destruct (VirtualController.getButtonKeyboardCode
                  DEFAULT_CONTROLS controls b) as [c |];
        [| discriminate Hc].
      simpl in Hc. rewrite Hc. simpl. rewrite Hh. simpl.
      apply has_delete.
    - destruct (VirtualController.getButtonKeyboardCode
                  DEFAULT_CONTROLS controls b) as [c |]; [| exact Hh].
      destruct (negb (truthy c)); [exact Hh |].
      simpl. now rewrite Hh. }
  destruct (VirtualController.handleRelease DEFAULT_CONTROLS controls b st)
    as [st1 out1]; simpl in H1.
  destruct (releaseAllEffect_cases DEFAULT_CONTROLS controls st1)
    as [[E _] | [_ [E _]]].
  - now rewrite E.
  - destruct (VirtualController.releaseAllEffect
                DEFAULT_CONTROLS controls st1) as [st2 out2].
    simpl in *. now rewrite E.
Qed.

Lemma container_reachable_run (evs : list VirtualController.Event)
    (st : VirtualController.State) :
  VirtualController.reachable DEFAULT_CONTROLS controls st ->
  VirtualController.reachable DEFAULT_CONTROLS controls
    (fst (VirtualController.run DEFAULT_CONTROLS controls evs st)).
Proof.
  revert st; induction evs as [| ev evs IH]; intros st Hr; simpl;
    [exact Hr |].
  pose proof (VirtualController.reachable_step
                DEFAULT_CONTROLS controls st ev Hr) as H1.
  destruct (VirtualController.step DEFAULT_CONTROLS controls ev st)
    as [st1 out1]; simpl in H1.
  specialize (IH st1 H1).
  destruct (VirtualController.run DEFAULT_CONTROLS controls evs st1)
    as [st2 out2]; simpl in *. exact IH.
Qed.

Lemma wired_container_reachable (st : VirtualButton.State) :
  VirtualButton.reachable DEFAULT_CONTROLS controls props vibrate st ->
  VirtualController.reachable DEFAULT_CONTROLS controls
    (VirtualButton.container st).
Proof.
  induction 1 as [running | st ev _ IH]; [constructor |].
  destruct ev as [g | e]; simpl.
  - destruct (TouchHandlers.step props vibrate g (VirtualButton.hook st))
      as [h effects].
    pose proof (container_reachable_run (VirtualButton.callbacks effects)
                  (VirtualButton.container st) IH) as H1.
    destruct (VirtualController.run DEFAULT_CONTROLS controls
                (VirtualButton.callbacks effects)
                (VirtualButton.container st)) as [c out]. exact H1.
  - pose proof (VirtualController.reachable_step
                  DEFAULT_CONTROLS controls _ e IH) as H1.
    destruct (VirtualController.step DEFAULT_CONTROLS controls e
                (VirtualButton.container st)) as [c out]. exact H1.
Qed.

Lemma wired_reachable_run (evs : list VirtualButton.Event)
    (st : VirtualButton.State) :
  VirtualButton.reachable DEFAULT_CONTROLS controls props vibrate st ->
  VirtualButton.reachable DEFAULT_CONTROLS controls props vibrate
    (fst (VirtualButton.run DEFAULT_CONTROLS controls props vibrate evs st)).
Proof.
  revert st; induction evs as [| ev evs IH]; intros st Hr; simpl;
    [exact Hr |].
  pose proof (VirtualButton.reachable_step
                DEFAULT_CONTROLS controls props vibrate st ev Hr) as H1.
  destruct (VirtualButton.step DEFAULT_CONTROLS controls props vibrate ev st)
    as [st1 out1]; simpl in H1.
  specialize (IH st1 H1).
  destruct (VirtualButton.run DEFAULT_CONTROLS controls props vibrate evs st1)
    as [st2 out2]; simpl in *. exact IH.
Qed.

(** When a gesture turns dragging on for a non-system button, what the
    hook calls back is the release of the button. *)
Lemma hook_drag_entry_callbacks (g : TouchHandlers.Event)
    (hst : TouchHandlers.State) :
  TouchHandlers.isSystemButton props = false ->
  TouchHandlers.isDraggingRef hst = false ->
  TouchHandlers.isDraggingRef
    (fst (TouchHandlers.step props vibrate g hst)) = true ->
  VirtualButton.callbacks (snd (TouchHandlers.step props vibrate g hst))
  = [VirtualController.Release (TouchHandlers.buttonType props)].
Proof.
  intros Hs Hd.
  assert (Hclear : TouchHandlers.isDraggingRef
                     (TouchHandlers.clearDragTimer hst) = false).
  { unfold TouchHandlers.clearDragTimer.
    now destruct (TouchHandlers.dragTimerRef hst). }
  destruct g as [touch target | touch | | | id]; simpl.
  - unfold TouchHandlers.handleTouchStart.
    destruct (TouchHandlers.onPositionChange props);
      [destruct target; [destruct (ltb _ _) |] |];
      simpl; congruence.
  - unfold TouchHandlers.handleTouchMove. rewrite Hd.
    destruct (TouchHandlers.onPositionChange props); simpl;
      [| rewrite Hd; simpl; congruence].
    destruct (gtb _ _); simpl; [| rewrite Hd; simpl; congruence].
    intros _. unfold TouchHandlers.haptic. rewrite Hs.
    now destruct vibrate.
  - unfold TouchHandlers.handleTouchEnd. rewrite Hclear. simpl.
    congruence.
  - unfold TouchHandlers.handleTouchCancel. rewrite Hclear. simpl.
    congruence.
  - unfold TouchHandlers.holdTimerFires.
    destruct (callbackOf id (TouchHandlers.holdTimers hst)) as [[tx ty] |];
      simpl; [| congruence].
    rewrite Hd. simpl. intros _.
    unfold TouchHandlers.haptic. rewrite Hs. now destruct vibrate.
Qed.

(** On a wired non-system button, the gesture that turns dragging on
    leaves the button out of the pressed set. *)
Lemma wired_drag_entry_unpresses (g : TouchHandlers.Event)
    (st : VirtualButton.State) :
  VirtualButton.reachable DEFAULT_CONTROLS controls props vibrate st ->
  TouchHandlers.isSystemButton props = false ->
  VirtualController.includes VirtualController.SYSTEM_BUTTONS
    (TouchHandlers.buttonType props) = false ->
  TouchHandlers.isDraggingRef (VirtualButton.hook st) = false ->
  TouchHandlers.isDraggingRef
    (VirtualButton.hook
       (fst (VirtualButton.step DEFAULT_CONTROLS controls props vibrate
               (VirtualButton.Gesture g) st))) = true ->
  has String.eqb (TouchHandlers.buttonType props)
      (VirtualController.pressedButtons
         (VirtualButton.container
            (fst (VirtualButton.step DEFAULT_CONTROLS controls props vibrate
                    (VirtualButton.Gesture g) st)))) = false.
Proof.
  intros Hr Hs Hsys Hd.
  apply wired_container_reachable in Hr.
  apply reachable_coded in Hr.
  pose proof (hook_drag_entry_callbacks g (VirtualButton.hook st) Hs Hd)
    as Hcb.
  pose proof (release_step_unpresses (TouchHandlers.buttonType props)
                (VirtualButton.container st) Hr Hsys) as Hrel.
  cbn [VirtualButton.step].
  destruct (TouchHandlers.step props vibrate g (VirtualButton.hook st))
    as [h effects]; simpl in Hcb.
  intros Hd'.
  assert (Hd'' : TouchHandlers.isDraggingRef h = true).
  { destruct (VirtualController.run DEFAULT_CONTROLS controls
                (VirtualButton.callbacks effects)
                (VirtualButton.container st)); exact Hd'. }
  rewrite (Hcb Hd''). cbn [VirtualController.run].
  destruct (VirtualController.step DEFAULT_CONTROLS controls
              (VirtualController.Release (TouchHandlers.buttonType props))
              (VirtualButton.container st)) as [c out].
  exact Hrel.
Qed.

End Button.

(** C2, as amended.  Entering drag mode on the pad dispatches a keyup for
    every active direction that has a key code and empties the active set;
    on the pad no reachable state is dragging with a direction active, and
    a drag position is only reported from such a state.  Entering drag mode
    on a generic non-system button calls the button's release callback
    (on a system button it calls no release callback), and when the
    gesture that turns dragging on has run the non-system button is not in
    the container's pressed set. *)
Theorem drag_entry_releases_input :
  (forall (p : Dpad.Props) (vibrate : bool) (touchX touchY : R)
          (st : Dpad.State),
      Dpad.isDragging (fst (Dpad.startDragging p vibrate touchX touchY st))
      = true
      /\ Dpad.activeDirectionsRef
           (fst (Dpad.startDragging p vibrate touchX touchY st)) = []
      /\ keyEvents (snd (Dpad.startDragging p vibrate touchX touchY st))
         = map (fun d => dispatch keyup (Dpad.getKeyCode p d))
               (filter (mapped p) (Dpad.activeDirectionsRef st)))
  /\ (forall (p : Dpad.Props) (vibrate : bool) (st : Dpad.State),
        Dpad.reachable p vibrate st ->
        Dpad.isDragging st = true -> Dpad.activeDirectionsRef st = [])
  /\ (forall (p : Dpad.Props) (vibrate : bool) (st : Dpad.State)
             (touches : list Touch) (rect : option DOMRect) (x y : R),
        Dpad.reachable p vibrate st ->
        In (Dpad.OnPositionChange x y)
           (snd (Dpad.handleTouchMove p vibrate touches rect st)) ->
        Dpad.isDragging st = true /\ Dpad.activeDirectionsRef st = [])
  /\ (forall (props : TouchHandlers.Props) (vibrate : bool)
             (touchX touchY : R) (st : TouchHandlers.State),
        TouchHandlers.isDraggingRef
          (fst (TouchHandlers.startDragging props vibrate touchX touchY st))
        = true
        /\ (TouchHandlers.isSystemButton props = false ->
            In (TouchHandlers.OnRelease (TouchHandlers.buttonType props))
               (snd (TouchHandlers.startDragging props vibrate
                       touchX touchY st)))
        /\ (TouchHandlers.isSystemButton props = true ->
            forall b,
              ~ In (TouchHandlers.OnRelease b)
                   (snd (TouchHandlers.startDragging props vibrate
                           touchX touchY st))))
  /\ (forall (DEFAULT_CONTROLS : ControlMapping)
             (controls : option ControlMapping)
             (props : TouchHandlers.Props) (vibrate : bool)
             (g : TouchHandlers.Event) (st : VirtualButton.State),
        VirtualButton.reachable DEFAULT_CONTROLS controls props vibrate st ->
        TouchHandlers.isSystemButton props = false ->
        VirtualController.includes VirtualController.SYSTEM_BUTTONS
          (TouchHandlers.buttonType props) = false ->
        TouchHandlers.isDraggingRef (VirtualButton.hook st) = false ->
        TouchHandlers.isDraggingRef
          (VirtualButton.hook
             (fst (VirtualButton.step DEFAULT_CONTROLS controls props
                     vibrate (VirtualButton.Gesture g) st))) = true ->
        has String.eqb (TouchHandlers.buttonType props)
            (VirtualController.pressedButtons
               (VirtualButton.container
                  (fst (VirtualButton.step DEFAULT_CONTROLS controls props
                          vibrate (VirtualButton.Gesture g) st)))) = false).
Proof.
  split; [exact pad_startDragging |].
  split; [exact pad_dragging_nothing_active |].
  split; [exact pad_position_after_release |].
  split; [exact hook_startDragging |].
  exact wired_drag_entry_unpresses.
Qed.

Lemma padRightHeld_eq :
  padRightHeld
  = {| Dpad.activeTouchRef := Some 7%nat;
       Dpad.activeDirectionsRef := [Dpad.right];
       Dpad.isDragging := false; Dpad.dragTimerRef := Some 1%nat;
       Dpad.dragStartRef := Dpad.Build_DragStart 0 0 0 0;
       Dpad.touchStartPosRef := (56 + 20, 496);
       Dpad.holdTimers := Timeouts [(1%nat, (56 + 20, 496))] 2 |}.
Proof.
  unfold padRightHeld, Dpad.handleTouchStart. simpl.
  rewrite PadMoveFacts.directions_right.
  hypot_is 20. unfold Dpad.CENTER_TOUCH_RADIUS.
  DeadZoneFacts.decide_cmp. reflexivity.
Qed.

(** C2 on the pad with right held after a touch 20 pixels from the
    centre: when the hold timer fires the keyup of right is dispatched, no
    direction stays active and the pad is dragging. *)
Lemma drag_entry_releases_input_witness :
  Dpad.activeDirectionsRef padRightHeld = [Dpad.right]
  /\ Dpad.isDragging (fst (Dpad.holdTimerFires pad false 1 padRightHeld))
     = true
  /\ Dpad.activeDirectionsRef
       (fst (Dpad.holdTimerFires pad false 1 padRightHeld)) = []
  /\ keyEvents (snd (Dpad.holdTimerFires pad false 1 padRightHeld))
     = [dispatch keyup "ArrowRight"].
Proof.
  rewrite padRightHeld_eq. split; [reflexivity |].
  exact (proj1 drag_entry_releases_input pad false (56 + 20) 496
           {| Dpad.activeTouchRef := Some 7%nat;
              Dpad.activeDirectionsRef := [Dpad.right];
              Dpad.isDragging := false; Dpad.dragTimerRef := Some 1%nat;
              Dpad.dragStartRef := Dpad.Build_DragStart 0 0 0 0;
              Dpad.touchStartPosRef := (56 + 20, 496);
              Dpad.holdTimers := Timeouts [] 2 |}).
Defined.

End DragEntryFacts.

(** ** Drag sessions with the button still pressed *)
Module DragEntryScenarios.
Import Js Dom JsFacts KeyboardEvents ButtonSpec ScenarioSpec ContainerSpec
       HookFacts ButtonFacts DragEntryFacts.
Open Scope string_scope.
Open Scope list_scope.

(** A touch 40 pixels or more from the centre of a button of size 100
    registers no hold timer. *)
Lemma land_near_edge (hp : TouchHandlers.Props) (hst : TouchHandlers.State)
    (d : R) :
  TouchHandlers.buttonSize hp = 100 ->
  40 <= d ->
  TouchHandlers.handleTouchStart hp false (touchAt (200 + d) 400)
    (Some rect100) hst
  = (TouchHandlers.set_touchStartPosRef (200 + d, 400) hst,
     startEffects hp false).
Proof.
  intros Hsize Hd. rewrite handleTouchStart_unarmed; [reflexivity |].
  right; right. exists rect100. split; [reflexivity |].
  rewrite distance_button100 by lra. rewrite Hsize. lra.
Qed.

(** The touch then slides 15 pixels: the drag starts. *)
Lemma slide (hp : TouchHandlers.Props) (hst : TouchHandlers.State) :
  TouchHandlers.onPositionChange hp = true ->
  TouchHandlers.isDraggingRef hst = false ->
  TouchHandlers.touchStartPosRef hst = (200 + 45, 400) ->
  TouchHandlers.handleTouchMove hp false (touchAt (200 + 60) 400) hst
  = (fst (TouchHandlers.startDragging hp false (200 + 60) 400
            (TouchHandlers.clearDragTimer hst)),
     snd (TouchHandlers.startDragging hp false (200 + 60) 400
            (TouchHandlers.clearDragTimer hst))
     ++ [reported hp (touchAt (200 + 60) 400)
           (fst (TouchHandlers.startDragging hp false (200 + 60) 400
                   (TouchHandlers.clearDragTimer hst)))]).
Proof.
  intros Hp Hd Hstart.
  apply (handleTouchMove_far hp false (touchAt (200 + 60) 400) hst Hp Hd).
  unfold distanceFromStart. rewrite Hstart. simpl. hypot_is 15. lra.
Qed.

(** C2, as worded, fails on generic buttons.  On the game button "a" a
    second touch-start during the drag presses the button again while the
    drag session stays active; on the start button, a system button, the
    drag starts while the tap is still in the pressed set. *)
Lemma drag_with_button_engaged :
  (exists st,
      VirtualButton.reachable noDefaults someControls button100 false st
      /\ engagedWhileDragging "a" st)
  /\ (exists st,
        VirtualButton.reachable noDefaults someControls startButton false st
        /\ engagedWhileDragging "start" st).
Proof.
  split.
  - exists (fst (VirtualButton.run noDefaults someControls button100 false
                   landSlideAndLandAgain (VirtualButton.initial true))).
    split; [apply wired_reachable_run; constructor |].
    unfold landSlideAndLandAgain, landAndSlide, engagedWhileDragging.
    cbn [app VirtualButton.run VirtualButton.step TouchHandlers.step
         VirtualButton.initial VirtualButton.hook VirtualButton.container].
    rewrite (land_near_edge button100 TouchHandlers.initial 45 eq_refl)
      by lra.
    cbn [startEffects TouchHandlers.haptic app button100
         TouchHandlers.isSystemButton TouchHandlers.onPressDown
         TouchHandlers.buttonType VirtualButton.callbacks
         VirtualButton.callback].
    destruct (VirtualController.run noDefaults someControls
                [VirtualController.PressDown "a"]
                (VirtualController.initial true)) as [c1 out1] eqn:E1.
    cbn [VirtualButton.hook VirtualButton.container].
    rewrite (slide button100
               (TouchHandlers.set_touchStartPosRef (200 + 45, 400)
                  TouchHandlers.initial) eq_refl eq_refl eq_refl).
    cbn [TouchHandlers.startDragging TouchHandlers.haptic app fst snd
         button100 TouchHandlers.isSystemButton negb
         TouchHandlers.buttonType VirtualButton.callbacks
         VirtualButton.callback reported].
    destruct (VirtualController.run noDefaults someControls
                [VirtualController.Release "a"] c1) as [c2 out2] eqn:E2.
    cbn [VirtualButton.hook VirtualButton.container].
    rewrite land_near_edge by (try reflexivity; lra).
    cbn [startEffects TouchHandlers.haptic app button100
         TouchHandlers.isSystemButton TouchHandlers.onPressDown
         TouchHandlers.buttonType VirtualButton.callbacks
         VirtualButton.callback].
    destruct (VirtualController.run noDefaults someControls
                [VirtualController.PressDown "a"] c2) as [c3 out3] eqn:E3.
    cbn [fst VirtualButton.hook VirtualButton.container].
    split; [reflexivity |].
    injection E1 as <- _. vm_compute in E2. injection E2 as <- _.
    vm_compute in E3. injection E3 as <- _. reflexivity.
  - exists (fst (VirtualButton.run noDefaults someControls startButton false
                   landAndSlide (VirtualButton.initial true))).
    split; [apply wired_reachable_run; constructor |].
    unfold landAndSlide, engagedWhileDragging.
    cbn [app VirtualButton.run VirtualButton.step TouchHandlers.step
         VirtualButton.initial VirtualButton.hook VirtualButton.container].
    rewrite (land_near_edge startButton TouchHandlers.initial 45 eq_refl)
      by lra.
    cbn [startEffects TouchHandlers.haptic app startButton
         TouchHandlers.isSystemButton TouchHandlers.onPressDown
         TouchHandlers.buttonType VirtualButton.callbacks
         VirtualButton.callback].
    destruct (VirtualController.run noDefaults someControls
                [VirtualController.Press "start"]
                (VirtualController.initial true)) as [c1 out1] eqn:E1.
    cbn [VirtualButton.hook VirtualButton.container].
    rewrite (slide startButton
               (TouchHandlers.set_touchStartPosRef (200 + 45, 400)
                  TouchHandlers.initial) eq_refl eq_refl eq_refl).
    cbn [TouchHandlers.startDragging TouchHandlers.haptic app fst snd
         startButton TouchHandlers.isSystemButton negb
         TouchHandlers.buttonType VirtualButton.callbacks
         VirtualButton.callback reported].
    cbn [VirtualController.run fst VirtualButton.hook
         VirtualButton.container].
    split; [reflexivity |].
    injection E1 as <- _. reflexivity.
Qed.

End DragEntryScenarios.

(** ** A whole touch on a generic button *)
Module GestureFacts.
Import Js Dom JsFacts TouchHandlers ButtonSpec GestureSpec.
Open Scope list_scope.

Lemma pressCalls_app (a b : list Effect) :
  pressCalls (a ++ b) = pressCalls a ++ pressCalls b.
Proof.
  induction a as [| e a IH]; simpl; [reflexivity |].
  destruct e; simpl; now rewrite IH.
Qed.

Section Hook.
Variable p : Props.
Variable vibrate : bool.

Lemma pressCalls_haptic (pattern : list nat) :
  pressCalls (haptic vibrate pattern) = [].
Proof. unfold haptic. now destruct vibrate. Qed.

Lemma startDragging_calls (touchX touchY : R) (st : State) :
  isDraggingRef (fst (startDragging p vibrate touchX touchY st)) = true
  /\ pressCalls (snd (startDragging p vibrate touchX touchY st))
     = releaseCall p.
Proof.
  unfold startDragging, releaseCall. simpl. split; [reflexivity |].
  rewrite pressCalls_app, pressCalls_haptic.
  now destruct (isSystemButton p).
Qed.

Lemma clearDragTimer_dragging (st : State) :
  isDraggingRef (clearDragTimer st) = isDraggingRef st
  /\ dragTimerRef (clearDragTimer st) = None.
Proof.
  unfold clearDragTimer. destruct (dragTimerRef st) eqn:E; simpl; auto.
Qed.

Lemma run_app (a b : list Event) (st : State) :
  run p vibrate (a ++ b) st
  = (fst (run p vibrate b (fst (run p vibrate a st))),
     snd (run p vibrate a st)
     ++ snd (run p vibrate b (fst (run p vibrate a st)))).
Proof.
  revert st; induction a as [| ev a IH]; intros st; simpl.
  - now destruct (run p vibrate b st).
  - destruct (step p vibrate ev st) as [st1 out1].
    rewrite IH.
    destruct (run p vibrate a st1) as [st2 out2]; simpl.
    now rewrite app_assoc.
Qed.

(** While the finger is down: nothing is called, except the release when
    the drag starts. *)
Lemma during_step (ev : Event) (st : State) :
  duringTouch ev ->
  (isDraggingRef st = true ->
   isDraggingRef (fst (step p vibrate ev st)) = true
   /\ pressCalls (snd (step p vibrate ev st)) = [])
  /\ (isDraggingRef st = false ->
      (isDraggingRef (fst (step p vibrate ev st)) = false
       /\ pressCalls (snd (step p vibrate ev st)) = [])
      \/ (isDraggingRef (fst (step p vibrate ev st)) = true
          /\ pressCalls (snd (step p vibrate ev st)) = releaseCall p)).
Proof.
  destruct ev as [touch target | touch | | | id]; simpl; try contradiction;
    intros _.
  - unfold handleTouchMove. split; intros Hd; rewrite Hd.
    + rewrite andb_false_r. simpl. rewrite Hd. simpl.
      destruct (onPositionChange p); simpl; auto.
    + destruct (onPositionChange p); simpl; [| rewrite Hd; simpl; auto].
      destruct (gtb _ _).
      * right.
        destruct (startDragging_calls (clientX touch) (clientY touch)
                    (clearDragTimer st)) as [H1 H2].
        destruct (startDragging p vibrate (clientX touch) (clientY touch)
                    (clearDragTimer st)) as [st1 out1]; simpl in *.
        rewrite H1. simpl. rewrite pressCalls_app, H2. simpl.
        now rewrite app_nil_r.
      * rewrite Hd. simpl. auto.
  - unfold holdTimerFires.
    destruct (callbackOf id (holdTimers st)) as [[tx ty] |].
    + cbn [isDraggingRef set_timer].
      split; intros Hd; rewrite Hd; cbn [negb fst snd pressCalls];
        [auto |].
      right. apply startDragging_calls.
    + split; intros Hd; simpl; auto.
Qed.

Lemma during_run (mids : list Event) (st : State) :
  Forall duringTouch mids ->
  (isDraggingRef st = true ->
   isDraggingRef (fst (run p vibrate mids st)) = true
   /\ pressCalls (snd (run p vibrate mids st)) = [])
  /\ (isDraggingRef st = false ->
      (isDraggingRef (fst (run p vibrate mids st)) = false
       /\ pressCalls (snd (run p vibrate mids st)) = [])
      \/ (isDraggingRef (fst (run p vibrate mids st)) = true
          /\ pressCalls (snd (run p vibrate mids st)) = releaseCall p)).
Proof.
  intros Hm. revert st. induction Hm as [| ev mids Hev _ IH]; intros st.
  - simpl. auto.
  - simpl. destruct (during_step ev st Hev) as [St Sf].
    destruct (step p vibrate ev st) as [st1 out1]; simpl in *.
    destruct (IH st1) as [It If].
    destruct (run p vibrate mids st1) as [st2 out2]; simpl in *.
    rewrite pressCalls_app.
    split; intros Hd.
    + destruct (St Hd) as [H1 H2]. destruct (It H1) as [H3 H4].
      now rewrite H2, H4.
    + destruct (Sf Hd) as [[H1 H2] | [H1 H2]]; rewrite H2.
      * destruct (If H1) as [[H3 H4] | [H3 H4]]; rewrite H4; simpl; auto.
      * destruct (It H1) as [H3 H4]. rewrite H4, app_nil_r. auto.
Qed.

Lemma end_step (fin : Event) (st : State) :
  endsTouch fin ->
  isDraggingRef (fst (step p vibrate fin st)) = false
  /\ dragTimerRef (fst (step p vibrate fin st)) = None
  /\ (forall id, dragTimerRef st = Some id ->
        isPending id (holdTimers (fst (step p vibrate fin st))) = false)
  /\ pressCalls (snd (step p vibrate fin st))
     = if isDraggingRef st then [] else releaseCall p.
Proof.
  assert (Hp : forall id, dragTimerRef st = Some id ->
                 isPending id (holdTimers (clearDragTimer st)) = false).
  { intros id E. unfold clearDragTimer. rewrite E. simpl.
    apply ButtonFacts.isPending_clearTimeout. }
  destruct (clearDragTimer_dragging st) as [C1 C2].
  destruct fin; simpl; try contradiction; intros _;
    [unfold handleTouchEnd | unfold handleTouchCancel];
    rewrite C1; destruct (isDraggingRef st) eqn:Hd; simpl;
    unfold releaseCall; repeat split; auto;
    destruct (isSystemButton p); reflexivity.
Qed.

Lemma start_step (touch : Touch) (target : option DOMRect) (st : State) :
  isDraggingRef (fst (handleTouchStart p vibrate touch target st))
  = isDraggingRef st
  /\ pressCalls (snd (handleTouchStart p vibrate touch target st))
     = if isSystemButton p then [OnPress (buttonType p)]
       else if onPressDown p then [OnPressDown (buttonType p)] else [].
Proof.
  assert (Hc : pressCalls
                 (haptic vibrate [8%nat]
                  ++ (if isSystemButton p then [OnPress (buttonType p)]
                      else if onPressDown p
                           then [OnPressDown (buttonType p)] else []))
               = if isSystemButton p then [OnPress (buttonType p)]
                 else if onPressDown p then [OnPressDown (buttonType p)]
                      else []).
  { rewrite pressCalls_app, pressCalls_haptic. simpl.
    destruct (isSystemButton p); [reflexivity |].
    now destruct (onPressDown p). }
  unfold handleTouchStart.
  destruct (onPositionChange p); [| now split].
  destruct target as [rect |]; [| now split].
  destruct (ltb _ _); now split.
Qed.

(** After the touch-start: the moves and the hold timers, then the end
    of the touch, make the release call of the button exactly once. *)
Lemma touch_after_start (mids : list Event) (fin : Event) (st : State) :
  isDraggingRef st = false ->
  Forall duringTouch mids ->
  endsTouch fin ->
  pressCalls (snd (run p vibrate (mids ++ [fin]) st)) = releaseCall p
  /\ isDraggingRef (fst (run p vibrate (mids ++ [fin]) st)) = false
  /\ dragTimerRef (fst (run p vibrate (mids ++ [fin]) st)) = None.
Proof.
  intros Hd Hm Hf. rewrite run_app. cbn [run fst snd].
  destruct (during_run mids st Hm) as [_ Hfalse].
  specialize (Hfalse Hd).
  destruct (run p vibrate mids st) as [st2 out2]; simpl in *.
  destruct (end_step fin st2 Hf) as [E1 [E2 [_ E3]]].
  destruct (step p vibrate fin st2) as [st3 out3]; simpl in *.
  rewrite app_nil_r, pressCalls_app, E3.
  split; [| split; assumption].
  destruct Hfalse as [[H1 H2] | [H1 H2]]; rewrite H1, H2;
    [reflexivity | now rewrite app_nil_r].
Qed.

(** X1.  One whole touch on a button that is not dragging (a touch-start,
    then any moves of the finger and hold timers firing, then a touch-end
    or a touch-cancel) calls, in this order and nothing else: the press of
    a system button; or, for another button, the press-down (when
    configured) and exactly one release, whether the touch became a drag
    or not.  The hook is left not dragging, and the timer it held is
    cancelled. *)
Theorem whole_touch_calls (touch : Touch) (target : option DOMRect)
    (mids : list Event) (fin : Event) (st : State) :
  isDraggingRef st = false ->
  Forall duringTouch mids ->
  endsTouch fin ->
  pressCalls
    (snd (run p vibrate (TouchStart touch target :: mids ++ [fin]) st))
  = callsOfTouch p
  /\ isDraggingRef
       (fst (run p vibrate (TouchStart touch target :: mids ++ [fin]) st))
     = false
  /\ dragTimerRef
       (fst (run p vibrate (TouchStart touch target :: mids ++ [fin]) st))
     = None.
Proof.
  intros Hd Hm Hf.
  change (TouchStart touch target :: mids ++ [fin])
    with ([TouchStart touch target] ++ (mids ++ [fin])).
  rewrite run_app. cbn [run step fst snd].
  destruct (start_step touch target st) as [S1 S2].
  rewrite Hd in S1.
  destruct (handleTouchStart p vibrate touch target st) as [st1 out1];
    simpl in *.
  destruct (touch_after_start mids fin st1 S1 Hm Hf) as [A1 [A2 A3]].
  rewrite app_nil_r, pressCalls_app, S2, A1.
  split; [| split; assumption].
  unfold callsOfTouch, releaseCall.
  destruct (isSystemButton p), (onPressDown p); reflexivity.
Qed.

End Hook.

End GestureFacts.

(** ** A whole touch on a button of the container *)
Module WiredTouchFacts.
Import Js Dom JsFacts KeyboardEvents ButtonSpec GestureSpec ContainerSpec
       StopFacts DragEntryFacts GestureFacts.
Open Scope string_scope.
Open Scope list_scope.

(** A whole touch on the button "a" of size 100: the finger lands near
    the edge, slides 15 pixels (the drag starts) and lifts. *)
Lemma whole_touch_calls_witness :
  pressCalls
    (snd (TouchHandlers.run button100 false
            (TouchHandlers.TouchStart (touchAt (200 + 45) 400) (Some rect100)
             :: [TouchHandlers.TouchMove (touchAt (200 + 60) 400)]
                ++ [TouchHandlers.TouchEnd])
            TouchHandlers.initial))
  = [TouchHandlers.OnPressDown "a"; TouchHandlers.OnRelease "a"].
Proof.
  exact (proj1 (whole_touch_calls button100 false
                  (touchAt (200 + 45) 400) (Some rect100)
                  [TouchHandlers.TouchMove (touchAt (200 + 60) 400)]
                  TouchHandlers.TouchEnd TouchHandlers.initial
                  eq_refl
                  (Forall_cons
                     (TouchHandlers.TouchMove (touchAt (200 + 60) 400))
                     I (Forall_nil _)) I)).
Defined.

(** The button component and the container agree on what a system button
    is. *)
Lemma system_button_agrees (config : ButtonComponent.ButtonConfig) :
  VirtualController.includes VirtualController.SYSTEM_BUTTONS
    (ButtonComponent.type config)
  = ButtonComponent.isSystemButton config.
Proof.
  unfold VirtualController.includes, VirtualController.SYSTEM_BUTTONS,
    ButtonComponent.isSystemButton. simpl.
  destruct (ButtonComponent.type config =? "start"),
           (ButtonComponent.type config =? "select"),
           (ButtonComponent.type config =? "menu"); reflexivity.
Qed.

Lemma callbacks_app (a b : list TouchHandlers.Effect) :
  VirtualButton.callbacks (a ++ b)
  = VirtualButton.callbacks a ++ VirtualButton.callbacks b.
Proof.
  induction a as [| e a IH]; simpl; [reflexivity |].
  destruct (VirtualButton.callback e); simpl; now rewrite IH.
Qed.

Lemma callbacks_pressCalls (out : list TouchHandlers.Effect) :
  VirtualButton.callbacks out = VirtualButton.callbacks (pressCalls out).
Proof.
  induction out as [| e out IH]; simpl; [reflexivity |].
  destruct e; simpl; now rewrite ?IH.
Qed.

(** What a whole touch on a button calls in the container. *)
Lemma whole_touch_callbacks (p : TouchHandlers.Props) (vibrate : bool)
    (touch : Touch) (target : option DOMRect)
    (mids : list TouchHandlers.Event) (fin : TouchHandlers.Event)
    (st : TouchHandlers.State) :
  TouchHandlers.isDraggingRef st = false ->
  Forall duringTouch mids ->
  endsTouch fin ->
  VirtualButton.callbacks
    (snd (TouchHandlers.run p vibrate
            (TouchHandlers.TouchStart touch target :: mids ++ [fin]) st))
  = VirtualButton.callbacks (callsOfTouch p)
  /\ TouchHandlers.isDraggingRef
       (fst (TouchHandlers.run p vibrate
               (TouchHandlers.TouchStart touch target :: mids ++ [fin]) st))
     = false.
Proof.
  intros Hd Hm Hf.
  change (TouchHandlers.TouchStart touch target :: mids ++ [fin])
    with ([TouchHandlers.TouchStart touch target] ++ (mids ++ [fin])).
  rewrite run_app. cbn [TouchHandlers.run TouchHandlers.step fst snd].
  destruct (start_step p vibrate touch target st) as [S1 S2].
  rewrite Hd in S1.
  destruct (TouchHandlers.handleTouchStart p vibrate touch target st)
    as [st1 out1]; simpl in *.
  destruct (touch_after_start p vibrate mids fin st1 S1 Hm Hf)
    as [A1 [A2 _]].
  split; [| exact A2].
  rewrite app_nil_r, callbacks_pressCalls, pressCalls_app, S2, A1.
  unfold callsOfTouch, releaseCall.
  destruct (TouchHandlers.isSystemButton p), (TouchHandlers.onPressDown p);
    reflexivity.
Qed.

Section Wired.
Variable DEFAULT_CONTROLS : ControlMapping.
Variable controls : option ControlMapping.
Variable props : TouchHandlers.Props.
Variable vibrate : bool.

Lemma container_run_app (a b : list VirtualController.Event)
    (st : VirtualController.State) :
  VirtualController.run DEFAULT_CONTROLS controls (a ++ b) st
  = (fst (VirtualController.run DEFAULT_CONTROLS controls b
            (fst (VirtualController.run DEFAULT_CONTROLS controls a st))),
     snd (VirtualController.run DEFAULT_CONTROLS controls a st)
     ++ snd (VirtualController.run DEFAULT_CONTROLS controls b
               (fst (VirtualController.run DEFAULT_CONTROLS controls a st)))).
Proof.
  revert st; induction a as [| ev a IH]; intros st; simpl.
  - now destruct (VirtualController.run DEFAULT_CONTROLS controls b st).
  - destruct (VirtualController.step DEFAULT_CONTROLS controls ev st)
      as [st1 out1].
    rewrite IH.
    destruct (VirtualController.run DEFAULT_CONTROLS controls a st1)
      as [st2 out2]; simpl.
    now rewrite app_assoc.
Qed.

(** Gestures run the hook, and the container on what the hook calls. *)
Lemma wired_run_gestures (gs : list TouchHandlers.Event)
    (st : VirtualButton.State) :
  VirtualButton.run DEFAULT_CONTROLS controls props vibrate
    (map VirtualButton.Gesture gs) st
  = ({| VirtualButton.hook :=
          fst (TouchHandlers.run props vibrate gs (VirtualButton.hook st));
        VirtualButton.container :=
          fst (VirtualController.run DEFAULT_CONTROLS controls
                 (VirtualButton.callbacks
                    (snd (TouchHandlers.run props vibrate gs
                            (VirtualButton.hook st))))
                 (VirtualButton.container st)) |},
     snd (VirtualController.run DEFAULT_CONTROLS controls
            (VirtualButton.callbacks
               (snd (TouchHandlers.run props vibrate gs
                       (VirtualButton.hook st))))
            (VirtualButton.container st))).
Proof.
  revert st; induction gs as [| g gs IH]; intros st.
  - simpl. now destruct st.
  - cbn [map VirtualButton.run VirtualButton.step TouchHandlers.run].
    destruct (TouchHandlers.step props vibrate g (VirtualButton.hook st))
      as [h effects].
    destruct (VirtualController.run DEFAULT_CONTROLS controls
                (VirtualButton.callbacks effects)
                (VirtualButton.container st)) as [c out] eqn:Ec.
    rewrite IH. cbn [VirtualButton.hook VirtualButton.container].
    destruct (TouchHandlers.run props vibrate gs h) as [h2 effects2].
    cbn [fst snd].
    rewrite callbacks_app, container_run_app, Ec. reflexivity.
Qed.

(** The effect has nothing to do in a running container, nor in one whose
    pressed set is empty. *)
Lemma effect_idle (st : VirtualController.State) :
  VirtualController.isRunning st = true
  \/ VirtualController.pressedButtons st = [] ->
  VirtualController.releaseAllEffect DEFAULT_CONTROLS controls st = (st, []).
Proof.
  unfold VirtualController.releaseAllEffect.
  intros [H | H]; rewrite H; [reflexivity |].
  now rewrite andb_false_r.
Qed.

End Wired.

End WiredTouchFacts.

(** ** A whole touch on a game button, end to end *)
Module WiredGameButtonFacts.
Import Js Dom JsFacts KeyboardEvents ButtonSpec GestureSpec ContainerSpec
       WiredSpec StopFacts DragEntryFacts GestureFacts WiredTouchFacts.
Open Scope string_scope.
Open Scope list_scope.

Section Container.
Variable DEFAULT_CONTROLS : ControlMapping.
Variable controls : option ControlMapping.

Lemma press_release_running (ev : VirtualController.Event)
    (st : VirtualController.State) :
  (exists b, ev = VirtualController.PressDown b
             \/ ev = VirtualController.Release b) ->
  VirtualController.isRunning
    (fst (VirtualController.step DEFAULT_CONTROLS controls ev st))
  = VirtualController.isRunning st.
Proof.
  intros [b Hev]. unfold VirtualController.step.
  assert (H1 : VirtualController.isRunning
                 (fst (VirtualController.handle
                         DEFAULT_CONTROLS controls ev st))
               = VirtualController.isRunning st).
  { destruct Hev as [-> | ->]; simpl.
    - unfold VirtualController.handlePressDown.
      destruct (VirtualController.isRunning st) eqn:Hr; simpl; [| exact Hr].
      destruct (VirtualController.includes _ b); [exact Hr |].
      destruct (VirtualController.getButtonKeyboardCode _ _ b) as [c |];
        [| exact Hr].
      destruct (truthy c); simpl; exact Hr.
    - unfold VirtualController.handleRelease.
      destruct (VirtualController.includes _ b); [reflexivity |].
      destruct (VirtualController.getButtonKeyboardCode _ _ b) as [c |];
        [| reflexivity].
      destruct (truthy c); reflexivity. }
  destruct (VirtualController.handle DEFAULT_CONTROLS controls ev st)
    as [st1 out1]; simpl in H1.
  destruct (releaseAllEffect_cases DEFAULT_CONTROLS controls st1)
    as [[E _] | [Hr [_ [E _]]]].
  - now rewrite E.
  - destruct (VirtualController.releaseAllEffect
                DEFAULT_CONTROLS controls st1) as [st2 out2].
    simpl in *. congruence.
Qed.

(** The container over the calls of one touch on a game button. *)
Lemma press_release_run (b : string) (st : VirtualController.State) :
  VirtualController.reachable DEFAULT_CONTROLS controls st ->
  VirtualController.includes VirtualController.SYSTEM_BUTTONS b = false ->
  has String.eqb b
      (VirtualController.pressedButtons
         (fst (VirtualController.run DEFAULT_CONTROLS controls
                 [VirtualController.PressDown b; VirtualController.Release b]
                 st))) = false
  /\ VirtualController.isRunning
       (fst (VirtualController.run DEFAULT_CONTROLS controls
               [VirtualController.PressDown b; VirtualController.Release b]
               st))
     = VirtualController.isRunning st
  /\ snd (VirtualController.run DEFAULT_CONTROLS controls
            [VirtualController.PressDown b; VirtualController.Release b] st)
     = dispatchesOfTouch DEFAULT_CONTROLS controls b
         (VirtualController.isRunning st).
Proof.
  intros Hr Hsys.
  pose proof (VirtualController.reachable_step DEFAULT_CONTROLS controls st
                (VirtualController.PressDown b) Hr) as Hr1.
  pose proof (press_release_running (VirtualController.PressDown b) st
                (ex_intro _ b (or_introl eq_refl))) as Hrun1.
  assert (Hout1 :
    snd (VirtualController.step DEFAULT_CONTROLS controls
           (VirtualController.PressDown b) st)
    = match VirtualController.getButtonKeyboardCode
              DEFAULT_CONTROLS controls b with
      | Some code =>
          if (truthy code && VirtualController.isRunning st)%bool
          then [dispatch keydown code] else []
      | None => []
      end
    /\ (VirtualController.isRunning st = false ->
        VirtualController.pressedButtons
          (fst (VirtualController.step DEFAULT_CONTROLS controls
                  (VirtualController.PressDown b) st)) = [])).
  { unfold VirtualController.step. cbn [VirtualController.handle].
    unfold VirtualController.handlePressDown. rewrite Hsys.
    destruct (VirtualController.isRunning st) eqn:Hrun; cbn [negb].
    - destruct (VirtualController.getButtonKeyboardCode
                  DEFAULT_CONTROLS controls b) as [c |];
        [destruct (truthy c); cbn [negb andb] |];
        rewrite effect_idle by (left; exact Hrun);
        (split; [reflexivity | discriminate]).
    - pose proof (reachable_stopped_empty DEFAULT_CONTROLS controls st
                    Hr Hrun) as He.
      rewrite effect_idle by (right; exact He).
      split; [| intros _; exact He].
      destruct (VirtualController.getButtonKeyboardCode
                  DEFAULT_CONTROLS controls b) as [c |]; [| reflexivity].
      now rewrite andb_false_r. }
  destruct Hout1 as [Hout1 Hempty1].
  cbn [VirtualController.run].
  destruct (VirtualController.step DEFAULT_CONTROLS controls
              (VirtualController.PressDown b) st) as [st1 out1];
    simpl in Hr1, Hrun1, Hout1, Hempty1.
  pose proof (release_step_unpresses DEFAULT_CONTROLS controls b st1
                (reachable_coded DEFAULT_CONTROLS controls st1 Hr1) Hsys)
    as Hhas.
  pose proof (press_release_running (VirtualController.Release b) st1
                (ex_intro _ b (or_intror eq_refl))) as Hrun2.
  assert (Hout2 :
    snd (VirtualController.step DEFAULT_CONTROLS controls
           (VirtualController.Release b) st1)
    = match VirtualController.getButtonKeyboardCode
              DEFAULT_CONTROLS controls b with
      | Some code => if truthy code then [dispatch keyup code] else []
      | None => []
      end).
  { unfold VirtualController.step. cbn [VirtualController.handle].
    unfold VirtualController.handleRelease. rewrite Hsys.
    destruct (VirtualController.isRunning st1) eqn:Hrun.
    - destruct (VirtualController.getButtonKeyboardCode
                  DEFAULT_CONTROLS controls b) as [c |];
        [destruct (truthy c); cbn [negb] |];
        now rewrite effect_idle by (left; exact Hrun).
    - specialize (Hempty1 (eq_sym Hrun1)).
      destruct (VirtualController.getButtonKeyboardCode
                  DEFAULT_CONTROLS controls b) as [c |];
        [destruct (truthy c); cbn [negb] |];
        rewrite effect_idle;
        try reflexivity; right; simpl; try exact Hempty1.
      now rewrite Hempty1. }
  destruct (VirtualController.step DEFAULT_CONTROLS controls
              (VirtualController.Release b) st1) as [st2 out2];
    simpl in Hhas, Hrun2, Hout2.
  cbn [fst snd]. split; [exact Hhas |]. split; [congruence |].
  rewrite Hout1, Hout2, app_nil_r. unfold dispatchesOfTouch.
  destruct (VirtualController.getButtonKeyboardCode
              DEFAULT_CONTROLS controls b) as [c |]; [| reflexivity].
  destruct (truthy c), (VirtualController.isRunning st); reflexivity.
Qed.

End Container.

Section Button.
Variable DEFAULT_CONTROLS : ControlMapping.
Variable controls : option ControlMapping.
Variable config : ButtonComponent.ButtonConfig.
Variable customPosition : option (R * R).
Variable containerWidth containerHeight : R.
Variable vibrate : bool.

(** X2.  On a game button rendered by the container, one whole touch (a
    touch-start, any moves and hold timers, a touch-end or touch-cancel)
    from a reachable state that is not dragging leaves the button out of
    the pressed set and the hook not dragging, and dispatches exactly the
    keydown of the button's key (only when the emulator is running)
    followed by its keyup; without a key code it dispatches nothing. *)
Theorem wired_whole_touch (touch : Touch) (target : option DOMRect)
    (mids : list TouchHandlers.Event) (fin : TouchHandlers.Event)
    (st : VirtualButton.State) :
  ButtonComponent.isSystemButton config = false ->
  VirtualButton.reachable DEFAULT_CONTROLS controls
    (wiredProps config customPosition containerWidth containerHeight)
    vibrate st ->
  TouchHandlers.isDraggingRef (VirtualButton.hook st) = false ->
  Forall duringTouch mids ->
  endsTouch fin ->
  has String.eqb (ButtonComponent.type config)
      (VirtualController.pressedButtons
         (VirtualButton.container
            (fst (VirtualButton.run DEFAULT_CONTROLS controls
                    (wiredProps config customPosition containerWidth
                       containerHeight) vibrate
                    (map VirtualButton.Gesture
                       (TouchHandlers.TouchStart touch target
                        :: mids ++ [fin])) st)))) = false
  /\ TouchHandlers.isDraggingRef
       (VirtualButton.hook
          (fst (VirtualButton.run DEFAULT_CONTROLS controls
                  (wiredProps config customPosition containerWidth
                     containerHeight) vibrate
                  (map VirtualButton.Gesture
                     (TouchHandlers.TouchStart touch target
                      :: mids ++ [fin])) st))) = false
  /\ snd (VirtualButton.run DEFAULT_CONTROLS controls
            (wiredProps config customPosition containerWidth
               containerHeight) vibrate
            (map VirtualButton.Gesture
               (TouchHandlers.TouchStart touch target :: mids ++ [fin])) st)
     = dispatchesOfTouch DEFAULT_CONTROLS controls
         (ButtonComponent.type config)
         (VirtualController.isRunning (VirtualButton.container st)).
Proof.
  intros Hsys Hr Hd Hm Hf.
  rewrite wired_run_gestures. cbn [fst snd VirtualButton.hook
                                   VirtualButton.container].
  destruct (whole_touch_callbacks
              (wiredProps config customPosition containerWidth
                 containerHeight) vibrate touch target mids fin
              (VirtualButton.hook st) Hd Hm Hf) as [Hcalls Hdrag].
  rewrite Hcalls.
  assert (Hcb :
    VirtualButton.callbacks
      (callsOfTouch
         (wiredProps config customPosition containerWidth containerHeight))
    = [VirtualController.PressDown (ButtonComponent.type config);
       VirtualController.Release (ButtonComponent.type config)]).
  { unfold callsOfTouch, wiredProps, ButtonComponent.hookProps.
    cbn [TouchHandlers.isSystemButton TouchHandlers.onPressDown
         TouchHandlers.buttonType].
    now rewrite Hsys. }
  rewrite Hcb.
  apply wired_container_reachable in Hr.
  destruct (press_release_run DEFAULT_CONTROLS controls
              (ButtonComponent.type config) (VirtualButton.container st) Hr)
    as [H1 [_ H3]].
  { rewrite system_button_agrees. exact Hsys. }
  split; [exact H1 |]. split; [exact Hdrag | exact H3].
Qed.

End Button.

(** X2 on the button "a" mapped to the key X in a running container: the
    finger lands, slides into a drag and lifts; the key X goes down and
    up, and "a" is not left pressed. *)
Lemma wired_whole_touch_witness :
  snd (VirtualButton.run noDefaults someControls
         (wiredProps configA None 400 800) false
         (map VirtualButton.Gesture
            (TouchHandlers.TouchStart (touchAt (200 + 45) 400) (Some rect100)
             :: [TouchHandlers.TouchMove (touchAt (200 + 60) 400)]
                ++ [TouchHandlers.TouchEnd]))
         (VirtualButton.initial true))
  = [dispatch keydown "KeyX"; dispatch keyup "KeyX"].
Proof.
  exact (proj2 (proj2
           (wired_whole_touch noDefaults someControls configA None 400 800
              false (touchAt (200 + 45) 400) (Some rect100)
              [TouchHandlers.TouchMove (touchAt (200 + 60) 400)]
              TouchHandlers.TouchEnd (VirtualButton.initial true)
              eq_refl
              (VirtualButton.reachable_initial noDefaults someControls
                 (wiredProps configA None 400 800) false true)
              eq_refl
              (Forall_cons
                 (TouchHandlers.TouchMove (touchAt (200 + 60) 400))
                 I (Forall_nil _)) I))).
Defined.

End WiredGameButtonFacts.

(** ** The pad: key events of every handler, and the keys held *)
Module HeldFacts.
Import Js Dom JsFacts KeyboardEvents Dpad PadSpec HeldSpec ScenarioSpec
       DirectionFacts PadInvariant DragEntryFacts.
Open Scope string_scope.
Open Scope list_scope.

Lemma has_nil (d : Direction) : has Direction_eqb d [] = false.
Proof. reflexivity. Qed.

Lemma has_filter (f : Direction -> bool) (d : Direction)
    (l : list Direction) :
  has Direction_eqb d (filter f l)
  = (has Direction_eqb d l && f d)%bool.
Proof.
  unfold has. induction l as [| e l IH]; simpl; [reflexivity |].
  destruct (f e) eqn:Fe; simpl; rewrite IH;
    destruct (Direction_eqb d e) eqn:E; simpl; try reflexivity;
    assert (d = e) by (now destruct d, e); subst e; rewrite Fe;
    simpl; try reflexivity.
  now rewrite andb_false_r.
Qed.

Section Pad.
Variable p : Props.
Variable vibrate : bool.

(** No key event and the same active set: the empty difference. *)
Lemma delta_same (active : list Direction) (out : list Effect) :
  keyEvents out = [] -> deltaOfMapped p active active out.
Proof.
  intros Hk. unfold deltaOfMapped, leaving, entering. rewrite Hk.
  rewrite (filter_none (fun d => negb (has Direction_eqb d active)) active).
  - reflexivity.
  - intros d Hd. apply has_In in Hd. now rewrite Hd.
Qed.

(** A keyup for every active direction with a key code, and the empty
    set: the difference to the empty set. *)
Lemma delta_release (active : list Direction) (out : list Effect) :
  keyEvents out
  = map (fun d => dispatch keyup (getKeyCode p d)) (filter (mapped p) active)
  -> deltaOfMapped p active [] out.
Proof.
  intros Hk. unfold deltaOfMapped, leaving, entering. rewrite Hk.
  rewrite (filter_all (fun d => negb (has Direction_eqb d [])) active)
    by reflexivity.
  simpl. now rewrite app_nil_r.
Qed.

(** Each handler of the pad changes the active set and dispatches the
    difference. *)
Lemma handleTouchStart_delta (first : Touch) (rect : option DOMRect)
    (st : State) :
  deltaOfMapped p (activeDirectionsRef st)
    (activeDirectionsRef (fst (handleTouchStart p vibrate first rect st)))
    (snd (handleTouchStart p vibrate first rect st)).
Proof.
  unfold handleTouchStart.
  destruct (activeTouchRef st); [now apply delta_same |].
  destruct rect as [rect |]; simpl; [| now apply delta_same].
  destruct (ltb _ _ && onPositionChange p)%bool; simpl;
    destruct (isDragging st); simpl;
    try (now apply delta_same);
    match goal with
    | |- deltaOfMapped _ _ ?next (?ups ++ ?downs) =>
        exact (updateDirections_keyEvents p vibrate next st)
    end.
Qed.

Lemma handleTouchMove_delta (touches : list Touch) (rect : option DOMRect)
    (st : State) :
  deltaOfMapped p (activeDirectionsRef st)
    (activeDirectionsRef (fst (handleTouchMove p vibrate touches rect st)))
    (snd (handleTouchMove p vibrate touches rect st)).
Proof.
  destruct (clearDragTimer_fields st) as [_ [F2 _]].
  unfold handleTouchMove.
  destruct (findTouch _ touches); [| now apply delta_same].
  destruct (isDragging st && onPositionChange p)%bool;
    [now apply delta_same |].
  destruct rect as [rect |], (gtb _ 15); simpl;
    try (now apply delta_same);
    try (rewrite F2; now apply delta_same).
  - rewrite <- F2.
    exact (updateDirections_keyEvents p vibrate _ (clearDragTimer st)).
  - exact (updateDirections_keyEvents p vibrate _ st).
Qed.

Lemma handleTouchEnd_delta (touches : list Touch) (st : State) :
  deltaOfMapped p (activeDirectionsRef st)
    (activeDirectionsRef (fst (handleTouchEnd p touches st)))
    (snd (handleTouchEnd p touches st)).
Proof.
  destruct (clearDragTimer_fields st) as [_ [F2 _]].
  unfold handleTouchEnd.
  destruct (findTouch _ touches); simpl;
    [| rewrite F2; now apply delta_same].
  destruct (isDragging (clearDragTimer st)); simpl; rewrite F2;
    [now apply delta_same |].
  apply delta_release. apply keyEvents_releaseAll.
Qed.

Lemma holdTimerFires_delta (id : nat) (st : State) :
  deltaOfMapped p (activeDirectionsRef st)
    (activeDirectionsRef (fst (holdTimerFires p vibrate id st)))
    (snd (holdTimerFires p vibrate id st)).
Proof.
  unfold holdTimerFires.
  destruct (callbackOf id (holdTimers st)) as [[tx ty] |];
    [| now apply delta_same].
  destruct (pad_startDragging p vibrate tx ty
              (set_timer (dragTimerRef st)
                 (clearTimeout id (holdTimers st)) st)) as [_ [H2 H3]].
  rewrite H2. apply delta_release. exact H3.
Qed.

(** X3.  Whatever the event (touch-start, move, end, cancel, hold timer)
    and the state, the key events a handler of the pad dispatches are
    exactly the difference between the active set before and the active
    set after it, over the directions that have a key code: keyups for
    those that left, then keydowns for those that entered. *)
Theorem every_handler_dispatches_the_delta (ev : Event) (st : State) :
  deltaOfMapped p (activeDirectionsRef st)
    (activeDirectionsRef (fst (step p vibrate ev st)))
    (snd (step p vibrate ev st)).
Proof.
  destruct ev as [first rect | touches rect | touches | touches | id];
    simpl.
  - apply handleTouchStart_delta.
  - apply handleTouchMove_delta.
  - apply handleTouchEnd_delta.
  - apply handleTouchEnd_delta.
  - apply holdTimerFires_delta.
Qed.

End Pad.

Lemma heldFrom_app (h : bool) (a b : list Dispatch) (c : string) :
  heldFrom h (a ++ b) c = heldFrom (heldFrom h a c) b c.
Proof.
  revert h; induction a as [| d a IH]; intros h; simpl; [reflexivity |].
  apply IH.
Qed.

Lemma default_keys_distinct (p : Props) :
  controls p = None ->
  (forall d, mapped p d = true)
  /\ (forall d e, getKeyCode p d = getKeyCode p e -> d = e).
Proof.
  intros Hc. split.
  - intros d. now apply (default_keys_mapped p).
  - intros d e. unfold getKeyCode. rewrite Hc.
    destruct d, e; intros H; try reflexivity; discriminate H.
Qed.

Section Keys.
Variable p : Props.
Variable vibrate : bool.
Hypothesis all_mapped : forall d, mapped p d = true.
Hypothesis distinct_codes :
  forall d e, getKeyCode p d = getKeyCode p e -> d = e.

Lemma code_eqb (d e : Direction) :
  String.eqb (getKeyCode p e) (getKeyCode p d) = Direction_eqb d e.
Proof.
  destruct (String.eqb_spec (getKeyCode p e) (getKeyCode p d)) as [E | E].
  - apply distinct_codes in E. subst e. now destruct d.
  - destruct (Direction_eqb d e) eqn:Hde; [| reflexivity].
    assert (d = e) by (now destruct d, e). subst e. now destruct E.
Qed.

(** A run of keyups, or of keydowns, of directions decides the keys of
    those directions and leaves the others as they were. *)
Lemma heldFrom_directions (ty : KeyType) (h : bool) (l : list Direction)
    (d : Direction) :
  heldFrom h (map (fun e => dispatch ty (getKeyCode p e)) l) (getKeyCode p d)
  = if has Direction_eqb d l
    then match ty with keydown => true | keyup => false end
    else h.
Proof.
  revert h; induction l as [| e l IH]; intros h; simpl; [reflexivity |].
  rewrite IH, code_eqb. unfold has. simpl.
  destruct (Direction_eqb d e); simpl; [| reflexivity].
  now destruct (existsb (Direction_eqb d) l).
Qed.

(** A handler keeps: the key of a direction is down exactly when the
    direction is active. *)
Lemma delta_keeps_held (prev next : list Direction) (out : list Effect)
    (calls : list Dispatch) :
  deltaOfMapped p prev next out ->
  (forall d, held calls (getKeyCode p d) = has Direction_eqb d prev) ->
  forall d, held (calls ++ keyEvents out) (getKeyCode p d)
            = has Direction_eqb d next.
Proof.
  intros Hdelta Hheld d. unfold held in *.
  rewrite heldFrom_app, Hheld. unfold deltaOfMapped in Hdelta.
  rewrite Hdelta, heldFrom_app, !heldFrom_directions.
  rewrite !(filter_all (mapped p)) by exact all_mapped.
  unfold leaving, entering. rewrite !has_filter.
  destruct (has Direction_eqb d prev), (has Direction_eqb d next);
    reflexivity.
Qed.

Lemma run_keeps_held (evs : list Event) (st : State)
    (calls : list Dispatch) :
  (forall d, held calls (getKeyCode p d)
             = has Direction_eqb d (activeDirectionsRef st)) ->
  forall d,
    held (calls ++ keyEvents (snd (run p vibrate evs st))) (getKeyCode p d)
    = has Direction_eqb d (activeDirectionsRef (fst (run p vibrate evs st))).
Proof.
  revert st calls; induction evs as [| ev evs IH]; intros st calls Hheld d.
  - simpl. rewrite app_nil_r. apply Hheld.
  - assert (Hstep : deltaOfMapped p (activeDirectionsRef st)
                      (activeDirectionsRef (fst (step p vibrate ev st)))
                      (snd (step p vibrate ev st))).
    { destruct ev; simpl;
        [apply handleTouchStart_delta | apply handleTouchMove_delta
         | apply handleTouchEnd_delta | apply handleTouchEnd_delta
         | apply holdTimerFires_delta]. }
    simpl.
    pose proof (delta_keeps_held _ _ _ calls Hstep Hheld) as H1.
    destruct (step p vibrate ev st) as [st1 out1]; simpl in H1.
    specialize (IH st1 (calls ++ keyEvents out1) H1 d).
    destruct (run p vibrate evs st1) as [st2 out2]; simpl in *.
    now rewrite keyEvents_app, app_assoc.
Qed.

(** X4.  On a pad whose four directions have distinct key codes (the
    default keys are such), after any sequence of events from the initial
    state the key of a direction is down exactly when the direction is in
    the active set. *)
Theorem held_keys_are_the_active_directions (evs : list Event)
    (d : Direction) :
  held (keyEvents (snd (run p vibrate evs initial))) (getKeyCode p d)
  = has Direction_eqb d
        (activeDirectionsRef (fst (run p vibrate evs initial))).
Proof.
  exact (run_keeps_held evs initial [] (fun _ => eq_refl) d).
Qed.

(** X5.  On such a pad no key is left down: after any sequence of events
    from the initial state, when no touch is tracked, or when the pad is
    dragging, the key of every direction is up. *)
Theorem no_key_down_when_idle_or_dragging (evs : list Event)
    (d : Direction) :
  activeTouchRef (fst (run p vibrate evs initial)) = None
  \/ isDragging (fst (run p vibrate evs initial)) = true ->
  held (keyEvents (snd (run p vibrate evs initial))) (getKeyCode p d)
  = false.
Proof.
  intros Hst.
  pose proof (run_keeps_held evs initial [] (fun _ => eq_refl) d) as Hrun.
  simpl app in Hrun. rewrite Hrun.
  pose proof (reachable_Inv p vibrate _
                (reachable_run p vibrate evs initial
                   (reachable_initial p vibrate))) as HI.
  destruct Hst as [Ha | Hd].
  - destruct (inv_idle p _ HI Ha) as [E _]. now rewrite E.
  - destruct (inv_drag p _ HI Hd) as [E _]. now rewrite E.
Qed.

End Keys.

(** X4 on the default pad: a touch lands 20 pixels right of the centre;
    the key of right is down and right is active. *)
Lemma held_keys_are_the_active_directions_witness :
  held (keyEvents
          (snd (run pad false
                  [TouchStart (finger (56 + 20) 496) (Some padRect)]
                  initial)))
       "ArrowRight"
  = has Direction_eqb right
        (activeDirectionsRef
           (fst (run pad false
                   [TouchStart (finger (56 + 20) 496) (Some padRect)]
                   initial))).
Proof.
  exact (held_keys_are_the_active_directions pad false
           (proj1 (default_keys_distinct pad eq_refl))
           (proj2 (default_keys_distinct pad eq_refl))
           [TouchStart (finger (56 + 20) 496) (Some padRect)] right).
Defined.

(** X5 on the default pad: the touch lands right of the centre and
    lifts; the key of right is up again. *)
Lemma no_key_down_when_idle_or_dragging_witness :
  held (keyEvents
          (snd (run pad false
                  [TouchStart (finger (56 + 20) 496) (Some padRect);
                   TouchEnd [finger (56 + 20) 496]]
                  initial)))
       "ArrowRight"
  = false.
Proof.
  apply (no_key_down_when_idle_or_dragging pad false
           (proj1 (default_keys_distinct pad eq_refl))
           (proj2 (default_keys_distinct pad eq_refl))
           [TouchStart (finger (56 + 20) 496) (Some padRect);
            TouchEnd [finger (56 + 20) 496]] right).
  left. cbn [run step].
  destruct (handleTouchStart pad false (finger (56 + 20) 496)
              (Some padRect) initial) as [st1 out1] eqn:E1.
  assert (Ha : activeTouchRef st1 = Some 7%nat).
  { change st1 with (fst (st1, out1)). rewrite <- E1.
    fold padRightHeld. now rewrite padRightHeld_eq. }
  unfold handleTouchEnd.
  destruct (clearDragTimer_fields st1) as [F1 _].
  rewrite F1, Ha. cbn [findTouch find finger identifier Nat.eqb].
  now destruct (isDragging _).
Defined.

End HeldFacts.

(** ** The container: keys down and buttons pressed *)
Module ContainerKeyFacts.
Import Js JsFacts KeyboardEvents VirtualController ContainerSpec HeldSpec
       ContainerKeySpec StopFacts.
Open Scope string_scope.
Open Scope list_scope.

Lemma has_cons (b a : string) (s : list string) :
  has String.eqb b (a :: s) = (String.eqb b a || has String.eqb b s)%bool.
Proof. reflexivity. Qed.

Lemma has_add_same (b : string) (s : list string) :
  has String.eqb b (add String.eqb b s) = true.
Proof.
  unfold add. destruct (has String.eqb b s) eqn:E; [exact E |].
  unfold has. rewrite existsb_app. simpl. rewrite String.eqb_refl.
  now rewrite orb_true_r.
Qed.

Lemma has_add_other (b a : string) (s : list string) :
  String.eqb b a = false ->
  has String.eqb b (add String.eqb a s) = has String.eqb b s.
Proof.
  intros Hba. unfold add. destruct (has String.eqb a s); [reflexivity |].
  unfold has. rewrite existsb_app. simpl. rewrite Hba.
  now rewrite !orb_false_r.
Qed.

Lemma has_delete_other (b a : string) (s : list string) :
  String.eqb b a = false ->
  has String.eqb b (delete String.eqb a s) = has String.eqb b s.
Proof.
  intros Hba. unfold has, delete.
  induction s as [| e s IH]; simpl; [reflexivity |].
  destruct (String.eqb a e) eqn:Eae; simpl.
  - apply String.eqb_eq in Eae. subst e. now rewrite Hba.
  - now rewrite IH.
Qed.

Lemma held_snoc (calls : list Dispatch) (d : Dispatch) (c : string) :
  held (calls ++ [d]) c
  = if String.eqb (d_code d) c
    then match d_type d with keydown => true | keyup => false end
    else held calls c.
Proof. unfold held. now rewrite HeldFacts.heldFrom_app. Qed.

Section Owned.
Variable DEFAULT_CONTROLS : ControlMapping.
Variable controls : option ControlMapping.
Variables b c : string.
Hypothesis owns : ownsCode DEFAULT_CONTROLS controls b c.

(** A button type has the code [c] exactly when it is [b]. *)
Lemma code_of_other (b' k : string) :
  getButtonKeyboardCode DEFAULT_CONTROLS controls b' = Some k ->
  String.eqb k c = String.eqb b b'.
Proof.
  destruct owns as [_ [Hb [_ Honly]]]. intros Hk.
  destruct (String.eqb_spec k c) as [-> | Hne].
  - rewrite (Honly b' Hk). now rewrite String.eqb_refl.
  - destruct (String.eqb_spec b b') as [<- | _]; [| reflexivity].
    rewrite Hb in Hk. injection Hk as ->. now destruct Hne.
Qed.

(** The keyups of the release-all effect put the key [c] up when [b] is
    among the released buttons, and leave it otherwise. *)
Lemma heldFrom_releases (h : bool) (l : list string) :
  heldFrom h (flat_map (releaseOut DEFAULT_CONTROLS controls) l) c
  = (h && negb (has String.eqb b l))%bool.
Proof.
  revert h; induction l as [| a l IH]; intros h.
  - simpl. now rewrite andb_true_r.
  - cbn [flat_map].
    rewrite HeldFacts.heldFrom_app, IH, has_cons. unfold releaseOut.
    destruct (String.eqb_spec b a) as [<- | Hne].
    + destruct owns as [Hs [Hb [Ht _]]]. rewrite Hs, Hb, Ht. simpl.
      rewrite String.eqb_refl. simpl. now rewrite andb_false_r.
    + simpl. destruct (includes SYSTEM_BUTTONS a); [reflexivity |].
      destruct (getButtonKeyboardCode DEFAULT_CONTROLS controls a)
        as [k |] eqn:Hk; [| reflexivity].
      destruct (truthy k); [| reflexivity]. simpl.
      rewrite (code_of_other a k Hk).
      destruct (String.eqb_spec b a) as [E | _]; [now destruct Hne |].
      reflexivity.
Qed.

(** A keydown of a button that enters the pressed set, and a keyup of a
    button that leaves it, keep: [c] is down exactly when [b] is
    pressed. *)
Lemma keydown_keeps (b' k : string) (s : list string)
    (calls : list Dispatch) :
  getButtonKeyboardCode DEFAULT_CONTROLS controls b' = Some k ->
  held calls c = has String.eqb b s ->
  held (calls ++ [dispatch keydown k]) c
  = has String.eqb b (add String.eqb b' s).
Proof.
  intros Hk Hheld. rewrite held_snoc. simpl.
  rewrite (code_of_other b' k Hk).
  destruct (String.eqb_spec b b') as [<- | Hne].
  - now rewrite has_add_same.
  - rewrite has_add_other; [exact Hheld |].
    now apply String.eqb_neq.
Qed.

Lemma keyup_keeps (b' k : string) (s : list string)
    (calls : list Dispatch) :
  getButtonKeyboardCode DEFAULT_CONTROLS controls b' = Some k ->
  held calls c = has String.eqb b s ->
  held (calls ++ [dispatch keyup k]) c
  = has String.eqb b (delete String.eqb b' s).
Proof.
  intros Hk Hheld. rewrite held_snoc. simpl.
  rewrite (code_of_other b' k Hk).
  destruct (String.eqb_spec b b') as [<- | Hne].
  - now rewrite DragEntryFacts.has_delete.
  - rewrite has_delete_other; [exact Hheld |].
    now apply String.eqb_neq.
Qed.

Lemma tapsCoded_clear (id : nat) (st : State) :
  tapsCoded DEFAULT_CONTROLS controls st ->
  tapsCoded DEFAULT_CONTROLS controls
    (set_tapTimers (clearTimeout id (tapTimers st)) st).
Proof.
  intros Ht q Hq. apply Ht. simpl in Hq.
  now apply filter_In in Hq as [Hq _].
Qed.

Lemma handle_keeps (ev : Event) (st : State) (calls : list Dispatch) :
  tapsCoded DEFAULT_CONTROLS controls st ->
  held calls c = has String.eqb b (pressedButtons st) ->
  tapsCoded DEFAULT_CONTROLS controls
    (fst (handle DEFAULT_CONTROLS controls ev st))
  /\ held (calls ++ snd (handle DEFAULT_CONTROLS controls ev st)) c
     = has String.eqb b
         (pressedButtons (fst (handle DEFAULT_CONTROLS controls ev st))).
Proof.
  intros Ht Hheld.
  assert (Hsame : tapsCoded DEFAULT_CONTROLS controls st
                  /\ held (calls ++ []) c
                     = has String.eqb b (pressedButtons st))
    by (now rewrite app_nil_r).
  destruct ev as [b' | b' | b' | r | id]; simpl.
  - unfold handlePress.
    destruct (negb (includes SYSTEM_BUTTONS b') && negb (isRunning st))%bool;
      [exact Hsame |].
    destruct (getButtonKeyboardCode DEFAULT_CONTROLS controls b')
      as [k |] eqn:Hk; [| exact Hsame].
    destruct (truthy k); simpl; [| exact Hsame].
    split.
    + intros q Hq. simpl in Hq. apply in_app_or in Hq as [Hq | [<- | []]].
      * now apply Ht.
      * exact Hk.
    + now apply keydown_keeps.
  - unfold handlePressDown.
    destruct (isRunning st); simpl; [| exact Hsame].
    destruct (includes SYSTEM_BUTTONS b'); [exact Hsame |].
    destruct (getButtonKeyboardCode DEFAULT_CONTROLS controls b')
      as [k |] eqn:Hk; [| exact Hsame].
    destruct (truthy k); simpl; [| exact Hsame].
    split; [exact Ht |].
    destruct (has String.eqb b' (pressedButtons st)) eqn:Hp.
    + pose proof (keydown_keeps b' k _ calls Hk Hheld) as H.
      unfold add in H. now rewrite Hp in H.
    + now apply keydown_keeps.
  - unfold handleRelease.
    destruct (includes SYSTEM_BUTTONS b'); [exact Hsame |].
    destruct (getButtonKeyboardCode DEFAULT_CONTROLS controls b')
      as [k |] eqn:Hk; [| exact Hsame].
    destruct (truthy k); simpl; [| exact Hsame].
    split; [exact Ht |].
    destruct (has String.eqb b' (pressedButtons st)) eqn:Hp; simpl.
    + now apply keyup_keeps.
    + rewrite held_snoc. simpl. rewrite (code_of_other b' k Hk).
      destruct (String.eqb_spec b b') as [<- | _]; [| exact Hheld].
      now rewrite Hp.
  - exact Hsame.
  - unfold tapTimerFires.
    destruct (callbackOf id (tapTimers st)) as [[k b'] |] eqn:Hcb;
      [| exact Hsame].
    simpl. split; [now apply tapsCoded_clear |].
    apply keyup_keeps; [| exact Hheld].
    exact (Ht _ (PadInvariant.callbackOf_In id _ _ Hcb)).
Qed.

Lemma step_keeps (ev : Event) (st : State) (calls : list Dispatch) :
  tapsCoded DEFAULT_CONTROLS controls st ->
  held calls c = has String.eqb b (pressedButtons st) ->
  tapsCoded DEFAULT_CONTROLS controls
    (fst (step DEFAULT_CONTROLS controls ev st))
  /\ held (calls ++ snd (step DEFAULT_CONTROLS controls ev st)) c
     = has String.eqb b
         (pressedButtons (fst (step DEFAULT_CONTROLS controls ev st))).
Proof.
  intros Ht Hheld.
  destruct (handle_keeps ev st calls Ht Hheld) as [Ht1 Hheld1].
  unfold step.
  destruct (handle DEFAULT_CONTROLS controls ev st) as [st1 out1].
  simpl in Ht1, Hheld1.
  destruct (releaseAllEffect_cases DEFAULT_CONTROLS controls st1)
    as [[E _] | [_ [Hp [_ [Htm Hout]]]]].
  - rewrite E. simpl. now rewrite app_nil_r.
  - destruct (releaseAllEffect DEFAULT_CONTROLS controls st1)
      as [st2 out2]. simpl in *. split.
    + intros q Hq. rewrite Htm in Hq. now apply Ht1.
    + rewrite Hp, Hout, app_assoc. unfold held in *.
      rewrite HeldFacts.heldFrom_app, Hheld1, heldFrom_releases.
      now destruct (has String.eqb b (pressedButtons st1)).
Qed.

Lemma run_keeps (evs : list Event) (st : State) (calls : list Dispatch) :
  tapsCoded DEFAULT_CONTROLS controls st ->
  held calls c = has String.eqb b (pressedButtons st) ->
  held (calls ++ snd (run DEFAULT_CONTROLS controls evs st)) c
  = has String.eqb b
      (pressedButtons (fst (run DEFAULT_CONTROLS controls evs st))).
Proof.
  revert st calls; induction evs as [| ev evs IH];
    intros st calls Ht Hheld; simpl.
  - now rewrite app_nil_r.
  - destruct (step_keeps ev st calls Ht Hheld) as [Ht1 Hheld1].
    destruct (step DEFAULT_CONTROLS controls ev st) as [st1 out1].
    simpl in Ht1, Hheld1.
    specialize (IH st1 (calls ++ out1) Ht1 Hheld1).
    destruct (run DEFAULT_CONTROLS controls evs st1) as [st2 out2].
    simpl in *. now rewrite app_assoc.
Qed.

Lemma initial_tapsCoded (running : bool) :
  tapsCoded DEFAULT_CONTROLS controls (initial running).
Proof. intros q []. Qed.

(** X6.  For a game button whose key code no other button type shares:
    after any sequence of callbacks, changes of the running flag and tap
    timers from the initial state of the container, the key is down
    exactly when the button is in the pressed set. *)
Theorem owned_key_down_iff_pressed (running : bool) (evs : list Event) :
  held (snd (run DEFAULT_CONTROLS controls evs (initial running))) c
  = has String.eqb b
      (pressedButtons
         (fst (run DEFAULT_CONTROLS controls evs (initial running)))).
Proof.
  exact (run_keeps evs (initial running) [] (initial_tapsCoded running)
           eq_refl).
Qed.

(** X7.  For such a button no key stays down over a stop: after any
    sequence of events from the initial state that leaves the emulator
    stopped, the key of the button is up. *)
Theorem owned_key_up_when_stopped (running : bool) (evs : list Event) :
  isRunning (fst (run DEFAULT_CONTROLS controls evs (initial running)))
  = false ->
  held (snd (run DEFAULT_CONTROLS controls evs (initial running))) c
  = false.
Proof.
  intros Hstop.
  pose proof (run_keeps evs (initial running) []
                (initial_tapsCoded running) eq_refl) as H.
  simpl app in H. rewrite H.
  rewrite (reachable_stopped_empty DEFAULT_CONTROLS controls _
             (DragEntryFacts.container_reachable_run
                DEFAULT_CONTROLS controls evs _
                (reachable_initial DEFAULT_CONTROLS controls running))
             Hstop).
  reflexivity.
Qed.

End Owned.

(** With the mapping of "a" to the key X and of start to Enter, the
    button "a" alone has the key X. *)
Lemma a_owns_KeyX : ownsCode noDefaults someControls "a" "KeyX".
Proof.
  unfold ownsCode. repeat split.
  intros b'. unfold getButtonKeyboardCode, getKeyboardCode. simpl.
  destruct (String.eqb_spec b' "a") as [-> | _]; [reflexivity |].
  destruct (String.eqb b' "start"); simpl; discriminate.
Qed.

(** X6 on that mapping: "a" goes down, start is tapped, and the emulator
    stops; the key X is up and "a" is no longer pressed. *)
Lemma owned_key_down_iff_pressed_witness :
  held (snd (run noDefaults someControls
               [PressDown "a"; Press "start"; Running false]
               (initial true))) "KeyX"
  = has String.eqb "a"
      (pressedButtons
         (fst (run noDefaults someControls
                 [PressDown "a"; Press "start"; Running false]
                 (initial true)))).
Proof.
  exact (owned_key_down_iff_pressed noDefaults someControls "a" "KeyX"
           a_owns_KeyX true [PressDown "a"; Press "start"; Running false]).
Defined.

(** X7 on the same sequence. *)
Lemma owned_key_up_when_stopped_witness :
  held (snd (run noDefaults someControls
               [PressDown "a"; Press "start"; Running false]
               (initial true))) "KeyX"
  = false.
Proof.
  apply (owned_key_up_when_stopped noDefaults someControls "a" "KeyX"
           a_owns_KeyX true [PressDown "a"; Press "start"; Running false]).
  reflexivity.
Defined.

End ContainerKeyFacts.

(** ** The container: taps and the stopped emulator *)
Module TapFacts.
Import Js JsFacts KeyboardEvents VirtualController ContainerSpec
       ContainerKeySpec StopFacts.
Open Scope string_scope.
Open Scope list_scope.

Lemma callbackOf_setTimeout {A : Type} (id : nat) (a v : A)
    (ts : timeouts A) :
  callbackOf id ts = Some v ->
  callbackOf id (snd (setTimeout a ts)) = Some v.
Proof.
  unfold callbackOf, setTimeout. simpl.
  induction (pending ts) as [| q l IH]; simpl; [discriminate |].
  destruct (Nat.eqb (fst q) id); [trivial | exact IH].
Qed.

Lemma callbackOf_clearTimeout {A : Type} (id id' : nat) (ts : timeouts A) :
  id' <> id ->
  callbackOf id (clearTimeout id' ts) = callbackOf id ts.
Proof.
  intros Hne. unfold callbackOf, clearTimeout. simpl.
  induction (pending ts) as [| q l IH]; simpl; [reflexivity |].
  destruct (Nat.eqb_spec (fst q) id') as [E | E]; simpl.
  - destruct (Nat.eqb_spec (fst q) id) as [E' | _]; [| exact IH].
    now destruct Hne; rewrite <- E, <- E'.
  - destruct (Nat.eqb (fst q) id); [reflexivity | exact IH].
Qed.

(** A timer registered with a fresh identifier is pending under it. *)
Lemma callbackOf_fresh {A : Type} (a : A) (ts : timeouts A) :
  (forall q, In q (pending ts) -> (fst q < nextId ts)%nat) ->
  callbackOf (nextId ts) (snd (setTimeout a ts)) = Some a.
Proof.
  intros Hf. unfold callbackOf, setTimeout. simpl.
  induction (pending ts) as [| q l IH]; simpl.
  - now rewrite Nat.eqb_refl.
  - destruct (Nat.eqb_spec (fst q) (nextId ts)) as [E | _].
    + pose proof (Hf q (or_introl eq_refl)). lia.
    + apply IH. intros r Hr. apply Hf. now right.
Qed.

Section Container.
Variable DEFAULT_CONTROLS : ControlMapping.
Variable controls : option ControlMapping.

Lemma releaseOut_keyup (d : Dispatch) (l : list string) :
  In d (flat_map (releaseOut DEFAULT_CONTROLS controls) l) ->
  d_type d = keyup.
Proof.
  intros Hd. apply in_flat_map in Hd as [a [_ Hd]].
  unfold releaseOut in Hd.
  destruct (includes SYSTEM_BUTTONS a); [destruct Hd |].
  destruct (getButtonKeyboardCode DEFAULT_CONTROLS controls a) as [k |];
    [| destruct Hd].
  destruct (truthy k); [| destruct Hd].
  destruct Hd as [<- | []]. reflexivity.
Qed.

Lemma effect_keyup (d : Dispatch) (st : State) :
  In d (snd (releaseAllEffect DEFAULT_CONTROLS controls st)) ->
  d_type d = keyup.
Proof.
  destruct (releaseAllEffect_cases DEFAULT_CONTROLS controls st)
    as [[E _] | [_ [_ [_ [_ Hout]]]]].
  - rewrite E. intros [].
  - rewrite Hout. apply releaseOut_keyup.
Qed.

(** X8.  While the emulator is stopped the container dispatches no
    keydown for a game button: a keydown dispatched from a stopped state
    is that of the tap of a system button. *)
Theorem stopped_keydown_is_system_tap (ev : Event) (st : State)
    (d : Dispatch) :
  isRunning st = false ->
  In d (snd (step DEFAULT_CONTROLS controls ev st)) ->
  d_type d = keydown ->
  exists b,
    ev = Press b
    /\ includes SYSTEM_BUTTONS b = true
    /\ getButtonKeyboardCode DEFAULT_CONTROLS controls b = Some (d_code d).
Proof.
  intros Hstop Hin Hdown. unfold step in Hin.
  destruct (handle DEFAULT_CONTROLS controls ev st) as [st1 out1] eqn:Eh.
  pose proof (effect_keyup d st1) as Heff.
  destruct (releaseAllEffect DEFAULT_CONTROLS controls st1) as [st2 out2].
  simpl in Hin, Heff. apply in_app_or in Hin as [Hin | Hin].
  2:{ rewrite (Heff Hin) in Hdown. discriminate. }
  assert (Eout : out1 = snd (handle DEFAULT_CONTROLS controls ev st))
    by now rewrite Eh.
  subst out1. clear Eh Heff.
  destruct ev as [b | b | b | r | id]; simpl in Hin.
  - exists b. split; [reflexivity |]. unfold handlePress in Hin.
    rewrite Hstop in Hin.
    destruct (includes SYSTEM_BUTTONS b); simpl in Hin; [| destruct Hin].
    split; [reflexivity |].
    destruct (getButtonKeyboardCode DEFAULT_CONTROLS controls b) as [k |];
      [| destruct Hin].
    destruct (truthy k); simpl in Hin; [| destruct Hin].
    destruct Hin as [<- | []]. reflexivity.
  - unfold handlePressDown in Hin. rewrite Hstop in Hin. destruct Hin.
  - unfold handleRelease in Hin.
    destruct (includes SYSTEM_BUTTONS b); [destruct Hin |].
    destruct (getButtonKeyboardCode DEFAULT_CONTROLS controls b) as [k |];
      [| destruct Hin].
    destruct (truthy k); simpl in Hin; [| destruct Hin].
    destruct Hin as [<- | []]. discriminate.
  - destruct Hin.
  - unfold tapTimerFires in Hin.
    destruct (callbackOf id (tapTimers st)) as [[k b] |]; [| destruct Hin].
    destruct Hin as [<- | []]. discriminate.
Qed.

(** The identifiers of the pending tap timers stay below the next one. *)
Lemma handle_fresh (ev : Event) (st : State) :
  tapsFresh st -> tapsFresh (fst (handle DEFAULT_CONTROLS controls ev st)).
Proof.
  intros Hf. destruct ev as [b | b | b | r | id]; simpl.
  - unfold handlePress.
    destruct (negb (includes SYSTEM_BUTTONS b) && negb (isRunning st))%bool;
      [exact Hf |].
    destruct (getButtonKeyboardCode DEFAULT_CONTROLS controls b) as [k |];
      [| exact Hf].
    destruct (truthy k); simpl; [| exact Hf].
    intros q Hq. simpl in *. apply in_app_or in Hq as [Hq | [<- | []]].
    + specialize (Hf q Hq). lia.
    + simpl. lia.
  - unfold handlePressDown.
    destruct (isRunning st); simpl; [| exact Hf].
    destruct (includes SYSTEM_BUTTONS b); [exact Hf |].
    destruct (getButtonKeyboardCode DEFAULT_CONTROLS controls b) as [k |];
      [| exact Hf].
    destruct (truthy k); simpl; exact Hf.
  - destruct (handleRelease_frame DEFAULT_CONTROLS controls b st)
      as [_ [E _]].
    unfold tapsFresh. now rewrite E.
  - exact Hf.
  - unfold tapTimerFires.
    destruct (callbackOf id (tapTimers st)) as [[k b] |]; [| exact Hf].
    intros q Hq. simpl in *. apply filter_In in Hq as [Hq _].
    now apply Hf.
Qed.

Lemma step_tapTimers (ev : Event) (st : State) :
  tapTimers (fst (step DEFAULT_CONTROLS controls ev st))
  = tapTimers (fst (handle DEFAULT_CONTROLS controls ev st)).
Proof.
  unfold step.
  destruct (handle DEFAULT_CONTROLS controls ev st) as [st1 out1].
  destruct (releaseAllEffect_cases DEFAULT_CONTROLS controls st1)
    as [[E _] | [_ [_ [_ [Htm _]]]]].
  - now rewrite E.
  - destruct (releaseAllEffect DEFAULT_CONTROLS controls st1)
      as [st2 out2]. simpl in *. exact Htm.
Qed.

Lemma reachable_fresh (st : State) :
  reachable DEFAULT_CONTROLS controls st -> tapsFresh st.
Proof.
  induction 1 as [running | st ev _ IH].
  - intros q [].
  - unfold tapsFresh. rewrite step_tapTimers.
    exact (handle_fresh ev st IH).
Qed.

(** A pending tap timer stays pending over every event but its own
    firing. *)
Lemma step_keeps_timer (ev : Event) (st : State) (id : nat)
    (v : string * string) :
  ev <> TapTimer id ->
  callbackOf id (tapTimers st) = Some v ->
  callbackOf id (tapTimers (fst (step DEFAULT_CONTROLS controls ev st)))
  = Some v.
Proof.
  intros Hev Hcb. rewrite step_tapTimers.
  destruct ev as [b | b | b | r | id']; simpl.
  - unfold handlePress.
    destruct (negb (includes SYSTEM_BUTTONS b) && negb (isRunning st))%bool;
      [exact Hcb |].
    destruct (getButtonKeyboardCode DEFAULT_CONTROLS controls b) as [k |];
      [| exact Hcb].
    destruct (truthy k); simpl; [| exact Hcb].
    exact (callbackOf_setTimeout id (k, b) v (tapTimers st) Hcb).
  - unfold handlePressDown.
    destruct (isRunning st); simpl; [| exact Hcb].
    destruct (includes SYSTEM_BUTTONS b); [exact Hcb |].
    destruct (getButtonKeyboardCode DEFAULT_CONTROLS controls b) as [k |];
      [| exact Hcb].
    destruct (truthy k); simpl; exact Hcb.
  - destruct (handleRelease_frame DEFAULT_CONTROLS controls b st)
      as [_ [E _]].
    now rewrite E.
  - exact Hcb.
  - unfold tapTimerFires.
    destruct (callbackOf id' (tapTimers st)) as [[k b] |]; [| exact Hcb].
    simpl. rewrite callbackOf_clearTimeout; [exact Hcb |].
    intros ->. now destruct Hev.
Qed.

Lemma run_keeps_timer (evs : list Event) (st : State) (id : nat)
    (v : string * string) :
  ~ In (TapTimer id) evs ->
  callbackOf id (tapTimers st) = Some v ->
  callbackOf id (tapTimers (fst (run DEFAULT_CONTROLS controls evs st)))
  = Some v.
Proof.
  revert st; induction evs as [| ev evs IH]; intros st Hno Hcb; simpl;
    [exact Hcb |].
  assert (Hev : ev <> TapTimer id) by (intros ->; apply Hno; now left).
  pose proof (step_keeps_timer ev st id v Hev Hcb) as H1.
  destruct (step DEFAULT_CONTROLS controls ev st) as [st1 out1].
  simpl in H1.
  assert (Hno' : ~ In (TapTimer id) evs)
    by (intros Hin; apply Hno; now right).
  specialize (IH st1 Hno' H1).
  destruct (run DEFAULT_CONTROLS controls evs st1) as [st2 out2].
  exact IH.
Qed.

(** A tap timer that fires in a reachable state dispatches the keyup it
    holds, and the step dispatches nothing else. *)
Lemma tap_timer_step (st : State) (id : nat) (k b : string) :
  reachable DEFAULT_CONTROLS controls st ->
  callbackOf id (tapTimers st) = Some (k, b) ->
  snd (step DEFAULT_CONTROLS controls (TapTimer id) st)
  = [dispatch keyup k].
Proof.
  intros Hr Hcb. unfold step. simpl. unfold tapTimerFires. rewrite Hcb.
  unfold releaseAllEffect. simpl.
  destruct (isRunning st) eqn:Hrun; simpl; [reflexivity |].
  rewrite (reachable_stopped_empty DEFAULT_CONTROLS controls st Hr Hrun).
  reflexivity.
Qed.

(** A press that dispatches a keydown registers the timer of its keyup
    under the next identifier. *)
Lemma press_registers (b c : string) (st : State) :
  reachable DEFAULT_CONTROLS controls st ->
  snd (handlePress DEFAULT_CONTROLS controls b st) = [dispatch keydown c] ->
  callbackOf (nextId (tapTimers st))
    (tapTimers (fst (step DEFAULT_CONTROLS controls (Press b) st)))
  = Some (c, b).
Proof.
  intros Hr Hdown. rewrite step_tapTimers. simpl.
  pose proof (reachable_fresh st Hr) as Hf.
  unfold handlePress in *.
  destruct (negb (includes SYSTEM_BUTTONS b) && negb (isRunning st))%bool;
    [discriminate Hdown |].
  destruct (getButtonKeyboardCode DEFAULT_CONTROLS controls b) as [k |];
    [| discriminate Hdown].
  destruct (truthy k); simpl in *; [| discriminate Hdown].
  injection Hdown as ->.
  exact (callbackOf_fresh (c, b) (tapTimers st) Hf).
Qed.

(** The tap of a system button with a key code dispatches its keydown,
    whether the emulator is running or not, and nothing else. *)
Lemma system_press_step (b c : string) (st : State) :
  reachable DEFAULT_CONTROLS controls st ->
  includes SYSTEM_BUTTONS b = true ->
  getButtonKeyboardCode DEFAULT_CONTROLS controls b = Some c ->
  truthy c = true ->
  snd (handlePress DEFAULT_CONTROLS controls b st) = [dispatch keydown c]
  /\ snd (step DEFAULT_CONTROLS controls (Press b) st)
     = [dispatch keydown c].
Proof.
  intros Hr Hs Hc Ht.
  assert (Hp : handlePress DEFAULT_CONTROLS controls b st
               = (set_tapTimers
                    (snd (setTimeout (c, b) (tapTimers st)))
                    (setPressedButtons
                       (fun prev => add String.eqb b prev) st),
                  [dispatch keydown c])).
  { unfold handlePress. rewrite Hs, Hc, Ht. reflexivity. }
  split; [now rewrite Hp |].
  unfold step. simpl handle. rewrite Hp.
  destruct (releaseAllEffect_cases DEFAULT_CONTROLS controls
              (set_tapTimers
                 (snd (setTimeout (c, b) (tapTimers st)))
                 (setPressedButtons
                    (fun prev => add String.eqb b prev) st)))
    as [[E _] | [Hrun [_ [_ [_ Hout]]]]].
  - now rewrite E.
  - destruct (releaseAllEffect DEFAULT_CONTROLS controls _)
      as [st2 out2]. simpl in *. rewrite Hout.
    rewrite (reachable_stopped_empty DEFAULT_CONTROLS controls st Hr Hrun).
    unfold add. simpl. unfold releaseOut. now rewrite Hs.
Qed.

(** X9.  Every tap is released: when a press of a button dispatches a
    keydown in a reachable state, the timer it registers stays pending
    over every later event but its own firing, and when it fires the
    keyup of the same key code is dispatched, and nothing else. *)
Theorem tap_is_released (b c : string) (st : State) (evs : list Event) :
  reachable DEFAULT_CONTROLS controls st ->
  snd (handlePress DEFAULT_CONTROLS controls b st) = [dispatch keydown c] ->
  ~ In (TapTimer (nextId (tapTimers st))) evs ->
  snd (step DEFAULT_CONTROLS controls (TapTimer (nextId (tapTimers st)))
         (fst (run DEFAULT_CONTROLS controls evs
                 (fst (step DEFAULT_CONTROLS controls (Press b) st)))))
  = [dispatch keyup c].
Proof.
  intros Hr Hdown Hno.
  apply (tap_timer_step _ _ c b).
  - apply DragEntryFacts.container_reachable_run.
    now apply reachable_step.
  - apply run_keeps_timer; [exact Hno |].
    now apply press_registers.
Qed.

End Container.

(** X8 on the stopped container: the tap of start dispatches the keydown
    of Enter, and start is a system button. *)
Lemma stopped_keydown_is_system_tap_witness :
  exists b,
    Press "start" = Press b
    /\ includes SYSTEM_BUTTONS b = true
    /\ getButtonKeyboardCode noDefaults someControls b = Some "Enter".
Proof.
  apply (stopped_keydown_is_system_tap noDefaults someControls
           (Press "start") (initial false) (dispatch keydown "Enter")).
  - reflexivity.
  - simpl. now left.
  - reflexivity.
Defined.

(** X9 on the running container: start is tapped, "a" goes down and the
    emulator stops before the timer of the tap fires; the keyup of Enter
    is still dispatched. *)
Lemma tap_is_released_witness :
  snd (step noDefaults someControls (TapTimer 1)
         (fst (run noDefaults someControls [PressDown "a"; Running false]
                 (fst (step noDefaults someControls (Press "start")
                         (initial true))))))
  = [dispatch keyup "Enter"].
Proof.
  apply (tap_is_released noDefaults someControls "start" "Enter"
           (initial true) [PressDown "a"; Running false]).
  - apply reachable_initial.
  - reflexivity.
  - simpl. intros [H | [H | []]]; discriminate H.
Defined.

End TapFacts.

(** ** The pad: shape of the active set, touches it does not track *)
Module PadShapeFacts.
Import Js Dom JsFacts KeyboardEvents Dpad PadSpec ScenarioSpec PadShapeSpec
       AngleFacts PadInvariant.
Open Scope list_scope.

Lemma wellFormed_nil : wellFormed [].
Proof.
  repeat split; [constructor | simpl; lia | |]; intros [[] _].
Qed.

(** The angle ranges of opposite directions do not meet. *)
Lemma up_down_apart (angle : R) :
  ((geb angle (-150) && leb angle (-30))
   && (geb angle 30 && leb angle 150))%bool = false.
Proof.
  destruct (geb angle (-150) && leb angle (-30))%bool eqn:Hu;
    [| reflexivity].
  destruct (geb angle 30 && leb angle 150)%bool eqn:Hd; [| reflexivity].
  apply andb_true_iff in Hu as [_ Hu]. apply leb_true_iff in Hu.
  apply andb_true_iff in Hd as [Hd _]. apply geb_true_iff in Hd. lra.
Qed.

Lemma left_right_apart (angle : R) :
  ((geb angle 120 || leb angle (-120))
   && (geb angle (-60) && leb angle 60))%bool = false.
Proof.
  destruct (geb angle 120 || leb angle (-120))%bool eqn:Hl; [| reflexivity].
  destruct (geb angle (-60) && leb angle 60)%bool eqn:Hr; [| reflexivity].
  apply andb_true_iff in Hr as [Hr1 Hr2].
  apply geb_true_iff in Hr1. apply leb_true_iff in Hr2.
  apply orb_true_iff in Hl as [Hl | Hl];
    [apply geb_true_iff in Hl | apply leb_true_iff in Hl]; lra.
Qed.

Lemma getDirectionsFromTouch_wellFormed (touchX touchY : R)
    (rect : DOMRect) :
  wellFormed (getDirectionsFromTouch touchX touchY rect).
Proof.
  rewrite getDirectionsFromTouch_unfold.
  destruct (ltb _ _); [exact wellFormed_nil |]. cbv zeta.
  pose proof (up_down_apart (padAngle touchX touchY rect)) as Hud.
  pose proof (left_right_apart (padAngle touchX touchY rect)) as Hlr.
  destruct (geb _ (-150) && leb _ (-30))%bool;
    destruct (geb _ 30 && leb _ 150)%bool; try discriminate Hud;
    destruct (geb _ 120 || leb _ (-120))%bool;
    destruct (geb _ (-60) && leb _ 60)%bool; try discriminate Hlr;
    unfold wellFormed; cbn;
    (split; [repeat constructor; simpl; intuition discriminate |]);
    (split; [lia |]); split; intros [H1 H2]; simpl in *;
    intuition discriminate.
Qed.

(** X13.  The four sectors leave no gap: a touch outside the dead zone
    always gives at least one direction. *)
Theorem sectors_cover_the_pad (touchX touchY : R) (rect : DOMRect) :
  deadZone rect <= padDistance touchX touchY rect ->
  getDirectionsFromTouch touchX touchY rect <> [].
Proof.
  intros Hd.
  destruct (directions_membership touchX touchY rect Hd)
    as [Hu [Hdn [Hl Hr]]].
  pose proof (padAngle_range touchX touchY rect) as Hrange.
  intros E. rewrite E in Hu, Hdn, Hl, Hr. simpl in *.
  destruct (Rle_dec (padAngle touchX touchY rect) (-120)) as [H1 | H1];
    [apply Hl; now right |].
  destruct (Rle_dec (padAngle touchX touchY rect) (-30)) as [H2 | H2];
    [apply Hu; lra |].
  destruct (Rle_dec (padAngle touchX touchY rect) 60) as [H3 | H3];
    [apply Hr; lra |].
  destruct (Rle_dec (padAngle touchX touchY rect) 150) as [H4 | H4];
    [apply Hdn; lra |].
  apply Hl. left. lra.
Qed.

Section Pad.
Variable p : Props.
Variable vibrate : bool.

Lemma updateDirections_active (next : list Direction) (st : State) :
  activeDirectionsRef (fst (updateDirections p vibrate next st)) = next.
Proof. reflexivity. Qed.

Lemma step_wellFormed (ev : Event) (st : State) :
  wellFormed (activeDirectionsRef st) ->
  wellFormed (activeDirectionsRef (fst (step p vibrate ev st))).
Proof.
  intros Hw.
  destruct (clearDragTimer_fields st) as [_ [F2 _]].
  assert (Hend : forall touches,
             wellFormed
               (activeDirectionsRef (fst (handleTouchEnd p touches st)))).
  { intros touches. unfold handleTouchEnd.
    destruct (findTouch _ touches); simpl; [| now rewrite F2].
    destruct (isDragging (clearDragTimer st)); simpl;
      [now rewrite F2 | exact wellFormed_nil]. }
  destruct ev as [first rect | touches rect | touches | touches | id];
    simpl; try apply Hend.
  - unfold handleTouchStart.
    destruct (activeTouchRef st); [exact Hw |].
    destruct rect as [rect |]; simpl; [| exact Hw].
    destruct (ltb _ _ && onPositionChange p)%bool; simpl;
      destruct (isDragging st); simpl;
      try exact Hw; apply getDirectionsFromTouch_wellFormed.
  - unfold handleTouchMove.
    destruct (findTouch _ touches); [| exact Hw].
    destruct (isDragging st && onPositionChange p)%bool; [exact Hw |].
    destruct rect as [rect |], (gtb _ 15); simpl;
      try exact Hw; try (now rewrite F2);
      apply getDirectionsFromTouch_wellFormed.
  - unfold holdTimerFires.
    destruct (callbackOf id (holdTimers st)) as [[tx ty] |]; [| exact Hw].
    exact wellFormed_nil.
Qed.

(** X14.  In every state the pad can reach, the active set is well
    formed: it holds no direction twice, at most two directions, never
    both up and down, and never both left and right. *)
Theorem active_directions_well_formed (st : State) :
  reachable p vibrate st -> wellFormed (activeDirectionsRef st).
Proof.
  induction 1 as [| st ev _ IH]; [exact wellFormed_nil |].
  now apply step_wellFormed.
Qed.

Lemma findTouch_foreign (id : nat) (touches : list Touch) :
  foreignTo id touches -> findTouch (Some id) touches = None.
Proof.
  intros Hf. simpl. induction touches as [| t touches IH];
    simpl; [reflexivity |].
  destruct (Nat.eqb_spec (identifier t) id) as [E | _].
  - now destruct (Hf t (or_introl eq_refl)).
  - apply IH. intros u Hu. apply Hf. now right.
Qed.

Lemma clearDragTimer_twice (st : State) :
  clearDragTimer (clearDragTimer st) = clearDragTimer st.
Proof.
  destruct (clearDragTimer_fields st) as [_ [_ [_ F4]]].
  unfold clearDragTimer at 1. now rewrite F4.
Qed.

Lemma foreign_step (id : nat) (ev : Event) (st : State) :
  activeTouchRef st = Some id ->
  foreignEvent id ev ->
  step p vibrate ev st = (st, [])
  \/ step p vibrate ev st = (clearDragTimer st, []).
Proof.
  intros Ha Hf.
  destruct (clearDragTimer_fields st) as [F1 _].
  assert (Hend : forall touches,
             foreignTo id touches ->
             handleTouchEnd p touches st = (clearDragTimer st, [])).
  { intros touches Ht. unfold handleTouchEnd.
    rewrite F1, Ha, (findTouch_foreign id touches Ht). reflexivity. }
  destruct ev as [first rect | touches rect | touches | touches | tid];
    simpl in *.
  - left. unfold handleTouchStart. now rewrite Ha.
  - left. unfold handleTouchMove.
    now rewrite Ha, (findTouch_foreign id touches Hf).
  - right. now apply Hend.
  - right. now apply Hend.
  - destruct Hf.
Qed.

(** X15.  While a touch is tracked, the pad ignores the others: a
    sequence of touch-starts and of moves, ends and cancels that do not
    include the tracked touch has no effect at all, and leaves the state
    as it was but for the hold timer, which an end or a cancel among them
    clears. *)
Theorem foreign_touches_ignored (id : nat) (evs : list Event)
    (st : State) :
  activeTouchRef st = Some id ->
  Forall (foreignEvent id) evs ->
  snd (run p vibrate evs st) = []
  /\ (fst (run p vibrate evs st) = st
      \/ fst (run p vibrate evs st) = clearDragTimer st).
Proof.
  intros Ha Hall. revert st Ha.
  induction Hall as [| ev evs Hev _ IH]; intros st Ha; simpl.
  - split; [reflexivity | now left].
  - destruct (clearDragTimer_fields st) as [F1 _].
    destruct (foreign_step id ev st Ha Hev) as [E | E]; rewrite E.
    + destruct (IH st Ha) as [Hout Hst].
      destruct (run p vibrate evs st) as [st2 out2]. simpl in *.
      now split.
    + assert (Ha' : activeTouchRef (clearDragTimer st) = Some id)
        by now rewrite F1.
      destruct (IH (clearDragTimer st) Ha') as [Hout Hst].
      destruct (run p vibrate evs (clearDragTimer st)) as [st2 out2].
      simpl in *. split; [exact Hout |]. right.
      destruct Hst as [-> | ->]; [reflexivity | apply clearDragTimer_twice].
Qed.

End Pad.

Lemma padRightHeld_reachable : reachable pad false padRightHeld.
Proof.
  exact (reachable_step pad false initial
           (TouchStart (finger (56 + 20) 496) (Some padRect))
           (reachable_initial pad false)).
Qed.

(** X13 on a touch 20 pixels right of the centre of the pad, whose dead
    zone is 13.5 pixels. *)
Lemma sectors_cover_the_pad_witness :
  getDirectionsFromTouch (56 + 20) 496 padRect <> [].
Proof.
  apply sectors_cover_the_pad.
  rewrite PadMoveFacts.padDistance_right by lra.
  unfold deadZone, padRect; simpl. lra.
Defined.

(** X14 on the pad with right held. *)
Lemma active_directions_well_formed_witness :
  wellFormed (activeDirectionsRef padRightHeld).
Proof.
  exact (active_directions_well_formed pad false padRightHeld
           padRightHeld_reachable).
Defined.

(** X15 on the pad with right held by the touch 7: a second finger lands
    on the pad, moves and lifts; nothing is dispatched. *)
Lemma foreign_touches_ignored_witness :
  snd (run pad false
         [TouchStart (otherFinger 60 400) (Some padRect);
          TouchMove [otherFinger 60 420] (Some padRect);
          TouchEnd [otherFinger 60 420]] padRightHeld) = []
  /\ (fst (run pad false
             [TouchStart (otherFinger 60 400) (Some padRect);
              TouchMove [otherFinger 60 420] (Some padRect);
              TouchEnd [otherFinger 60 420]] padRightHeld) = padRightHeld
      \/ fst (run pad false
                [TouchStart (otherFinger 60 400) (Some padRect);
                 TouchMove [otherFinger 60 420] (Some padRect);
                 TouchEnd [otherFinger 60 420]] padRightHeld)
         = clearDragTimer padRightHeld).
Proof.
  apply (foreign_touches_ignored pad false 7%nat).
  - rewrite DragEntryFacts.padRightHeld_eq. reflexivity.
  - repeat constructor; intros t [<- | []]; simpl; discriminate.
Defined.

End PadShapeFacts.

(** ** The hook: the callbacks it calls *)
Module HookCallFacts.
Import Js Dom JsFacts TouchHandlers ButtonSpec GestureSpec HookCallSpec.
Open Scope list_scope.

Section Hook.
Variable p : Props.
Variable vibrate : bool.

Lemma haptic_allowed (pattern : list nat) :
  Forall (allowed p vibrate) (haptic vibrate pattern).
Proof.
  unfold haptic. destruct vibrate; repeat constructor.
Qed.

Lemma dragEffects_allowed :
  Forall (allowed p vibrate)
    (haptic vibrate [10; 30; 10]%nat
     ++ (if negb (isSystemButton p) then [OnRelease (buttonType p)]
         else [])).
Proof.
  apply Forall_app. split.
  - apply haptic_allowed.
  - destruct (isSystemButton p) eqn:Hs; simpl; repeat constructor;
      assumption.
Qed.

Lemma release_allowed :
  Forall (allowed p vibrate)
    (if negb (isSystemButton p) then [OnRelease (buttonType p)] else []).
Proof.
  destruct (isSystemButton p) eqn:Hs; simpl; repeat constructor;
    assumption.
Qed.

Lemma step_allowed (ev : Event) (st : State) :
  Forall (allowed p vibrate) (snd (step p vibrate ev st)).
Proof.
  destruct ev as [touch target | touch | | | id]; simpl.
  - assert (He : Forall (allowed p vibrate) (startEffects p vibrate)).
    { unfold startEffects. apply Forall_app. split.
      - apply haptic_allowed.
      - destruct (isSystemButton p) eqn:Hs;
          [repeat constructor; assumption |].
        destruct (onPressDown p) eqn:Hd; repeat constructor;
          assumption. }
    unfold handleTouchStart. fold (startEffects p vibrate).
    destruct (onPositionChange p); [| exact He].
    destruct target as [rect |]; [| exact He].
    destruct (ltb _ _); exact He.
  - unfold handleTouchMove.
    destruct (onPositionChange p) eqn:Hp; simpl.
    + destruct (isDraggingRef st) eqn:Hd; simpl.
      * rewrite Hd. repeat constructor; assumption.
      * destruct (gtb _ _); simpl.
        -- apply Forall_app. split.
           ++ apply dragEffects_allowed.
           ++ repeat constructor; assumption.
        -- rewrite Hd. constructor.
    + rewrite andb_false_r. constructor.
  - unfold handleTouchEnd.
    destruct (isDraggingRef (clearDragTimer st)); simpl;
      [constructor | apply release_allowed].
  - unfold handleTouchCancel.
    destruct (isDraggingRef (clearDragTimer st)); simpl;
      [constructor | apply release_allowed].
  - unfold holdTimerFires.
    destruct (callbackOf id (holdTimers st)) as [[tx ty] |];
      [| constructor].
    simpl. destruct (isDraggingRef st); simpl;
      [constructor | apply dragEffects_allowed].
Qed.

(** X16.  Whatever the events and the state, the hook of a button calls
    only what its kind allows: a system button is only pressed, another
    button is only pressed down (when that callback is given) and
    released, always with the button's own type; a position is reported
    only when the position callback is given, and the device vibrates
    only when it can. *)
Theorem hook_calls_allowed (evs : list Event) (st : State) :
  Forall (allowed p vibrate) (snd (run p vibrate evs st)).
Proof.
  revert st; induction evs as [| ev evs IH]; intros st; simpl;
    [constructor |].
  pose proof (step_allowed ev st) as H1.
  destruct (step p vibrate ev st) as [st1 out1].
  specialize (IH st1).
  destruct (run p vibrate evs st1) as [st2 out2]. simpl in *.
  apply Forall_app. now split.
Qed.

(** Without the position callback no hold timer is registered and no
    drag starts. *)
Lemma step_fixed (ev : Event) (st : State) :
  onPositionChange p = false ->
  isDraggingRef st = false /\ pending (holdTimers st) = [] ->
  isDraggingRef (fst (step p vibrate ev st)) = false
  /\ pending (holdTimers (fst (step p vibrate ev st))) = [].
Proof.
  intros Hp [Hd Ht].
  assert (Hc : clearDragTimer st = st
               \/ (isDraggingRef (clearDragTimer st) = false
                   /\ pending (holdTimers (clearDragTimer st)) = [])).
  { unfold clearDragTimer. destruct (dragTimerRef st); [| now left].
    right. simpl. rewrite Ht. now split. }
  assert (Hend : isDraggingRef (clearDragTimer st) = false
                 /\ pending (holdTimers (clearDragTimer st)) = [])
    by (destruct Hc as [-> | Hc]; [now split | exact Hc]).
  destruct ev as [touch target | touch | | | id]; simpl.
  - unfold handleTouchStart. rewrite Hp. simpl. now split.
  - unfold handleTouchMove. rewrite Hp. simpl.
    rewrite andb_false_r. simpl. now split.
  - unfold handleTouchEnd. destruct Hend as [E1 E2]. rewrite E1. simpl.
    now split.
  - unfold handleTouchCancel. destruct Hend as [E1 E2]. rewrite E1. simpl.
    now split.
  - unfold holdTimerFires, callbackOf. rewrite Ht. simpl. now split.
Qed.

Lemma reachable_fixed (st : State) :
  onPositionChange p = false ->
  reachable p vibrate st ->
  isDraggingRef st = false /\ pending (holdTimers st) = [].
Proof.
  intros Hp Hr. induction Hr as [| st ev _ IH]; [now split |].
  now apply step_fixed.
Qed.

Lemma hook_reachable_run (evs : list Event) (st : State) :
  reachable p vibrate st -> reachable p vibrate (fst (run p vibrate evs st)).
Proof.
  revert st; induction evs as [| ev evs IH]; intros st Hr; simpl;
    [exact Hr |].
  pose proof (reachable_step p vibrate st ev Hr) as H1.
  destruct (step p vibrate ev st) as [st1 out1]; simpl in H1.
  specialize (IH st1 H1).
  destruct (run p vibrate evs st1) as [st2 out2]; simpl in *. exact IH.
Qed.

End Hook.

(** X17.  Without a position callback neither a button nor the pad ever
    drags: in every reachable state the control is not dragging and no
    hold timer is pending; and the end of a touch on such a button always
    makes the release call of its kind. *)
Theorem no_drag_without_position_callback :
  (forall (p : Props) (vibrate : bool) (st : State),
      onPositionChange p = false ->
      reachable p vibrate st ->
      isDraggingRef st = false
      /\ pending (holdTimers st) = []
      /\ snd (step p vibrate TouchEnd st) = releaseCall p
      /\ snd (step p vibrate TouchCancel st) = releaseCall p)
  /\ (forall (q : Dpad.Props) (vibrate : bool) (sq : Dpad.State),
         Dpad.onPositionChange q = false ->
         Dpad.reachable q vibrate sq ->
         Dpad.isDragging sq = false
         /\ pending (Dpad.holdTimers sq) = []).
Proof.
  split.
  - intros p vibrate st Hp Hr.
    destruct (reachable_fixed p vibrate st Hp Hr) as [Hd Ht].
    split; [exact Hd |]. split; [exact Ht |].
    assert (Hc : isDraggingRef (clearDragTimer st) = false).
    { unfold clearDragTimer. destruct (dragTimerRef st); exact Hd. }
    simpl. unfold handleTouchEnd, handleTouchCancel, releaseCall.
    rewrite Hc. simpl. now destruct (isSystemButton p).
  - intros q vibrate sq Hq Hr.
    pose proof (PadInvariant.reachable_Inv q vibrate sq Hr) as HI.
    split.
    + destruct (Dpad.isDragging sq) eqn:Hd; [| reflexivity].
      destruct (PadSpec.inv_drag q sq HI Hd) as [_ [Hp _]]. congruence.
    + destruct (pending (Dpad.holdTimers sq)) as [| t l] eqn:E;
        [reflexivity |].
      destruct (PadSpec.inv_timers q sq HI t) as [Hp _];
        [rewrite E; now left | congruence].
Qed.

(** X17 on the button "a" without a position callback, after a touch
    landed on it and the finger moved 60 pixels. *)
Lemma no_drag_without_position_callback_witness :
  isDraggingRef
    (fst (run fixedButton false
            [TouchStart (touchAt 200 400) (Some rect100);
             TouchMove (touchAt 260 400)] initial)) = false
  /\ pending
       (holdTimers
          (fst (run fixedButton false
                  [TouchStart (touchAt 200 400) (Some rect100);
                   TouchMove (touchAt 260 400)] initial))) = []
  /\ snd (step fixedButton false TouchEnd
            (fst (run fixedButton false
                    [TouchStart (touchAt 200 400) (Some rect100);
                     TouchMove (touchAt 260 400)] initial)))
     = releaseCall fixedButton
  /\ snd (step fixedButton false TouchCancel
            (fst (run fixedButton false
                    [TouchStart (touchAt 200 400) (Some rect100);
                     TouchMove (touchAt 260 400)] initial)))
     = releaseCall fixedButton.
Proof.
  apply (proj1 no_drag_without_position_callback fixedButton false).
  - reflexivity.
  - apply hook_reachable_run. apply reachable_initial.
Defined.

End HookCallFacts.

(** ** The layout lock *)
Module LockFacts.
Import ControllerLayout LockSpec.
Open Scope nat_scope.
Open Scope list_scope.

Lemma pauses_app (a b : list Effect) :
  pauses (a ++ b) = pauses a + pauses b.
Proof.
  induction a as [| e a IH]; simpl; [reflexivity |].
  destruct e; simpl; now rewrite IH.
Qed.

Lemma resumes_app (a b : list Effect) :
  resumes (a ++ b) = resumes a + resumes b.
Proof.
  induction a as [| e a IH]; simpl; [reflexivity |].
  destruct e; simpl; now rewrite IH.
Qed.

Lemma toggles_from (n : nat) (isLocked : bool) :
  fst (toggles n isLocked)
  = (if Nat.even n then isLocked else negb isLocked)
  /\ pauses (snd (toggles n isLocked))
     + (if fst (toggles n isLocked) then 1 else 0)
     = resumes (snd (toggles n isLocked)) + (if isLocked then 1 else 0).
Proof.
  revert isLocked; induction n as [| n IH]; intros isLocked.
  - simpl. split; [reflexivity | lia].
  - cbn [toggles]. unfold toggleLock.
    destruct (IH (negb isLocked)) as [H1 H2].
    destruct (toggles n (negb isLocked)) as [l2 out2]. simpl fst in *.
    simpl snd in *. split.
    + rewrite H1, Nat.even_succ, <- Nat.negb_even.
      destruct (Nat.even n), isLocked; reflexivity.
    + rewrite pauses_app, resumes_app.
      destruct isLocked; simpl in *; lia.
Qed.

(** X18.  The layout starts locked; after [n] toggles it is locked
    exactly when [n] is even, and the emulator has been paused as often
    as resumed when the layout is locked, and once more when it is
    unlocked. *)
Theorem toggles_pause_and_resume (n : nat) :
  fst (toggles n initial) = Nat.even n
  /\ pauses (snd (toggles n initial))
     = resumes (snd (toggles n initial))
       + (if fst (toggles n initial) then 0 else 1).
Proof.
  destruct (toggles_from n initial) as [H1 H2]. unfold initial in *.
  split.
  - rewrite H1. now destruct (Nat.even n).
  - destruct (fst (toggles n true)); lia.
Qed.

End LockFacts.

(** ** Keys of the pad and keys of the buttons *)
Module PadKeyFacts.
Import Js JsFacts KeyboardEvents Dpad PadSpec KeyTextSpec.
Open Scope string_scope.
Open Scope list_scope.

(** X19.  With a control mapping, the pad and the buttons agree on the
    key of a direction that the mapping gives a key; for a direction the
    mapping leaves without one, the buttons' lookup falls back to the
    default table while the pad has no key. *)
Theorem pad_key_and_button_key (DEFAULT_CONTROLS : ControlMapping)
    (p : Props) (c : ControlMapping) (d : Direction) :
  controls p = Some c ->
  (mapped p d = true ->
   getKeyboardCode DEFAULT_CONTROLS (directionName d) (controls p)
   = Some (getKeyCode p d))
  /\ (mapped p d = false ->
      getKeyCode p d = ""
      /\ getKeyboardCode DEFAULT_CONTROLS (directionName d) (controls p)
         = prop (directionName d) DEFAULT_CONTROLS).
Proof.
  intros Hc. unfold mapped, getKeyCode, getKeyboardCode. rewrite Hc.
  destruct (prop (directionName d) c) as [v |]; simpl.
  - destruct v as [| a v]; simpl; split; intros H;
      try discriminate H; auto.
  - split; intros H; [discriminate H | auto].
Qed.

(** X19 on the pad whose mapping leaves "up" without a key, for the
    direction down. *)
Lemma pad_key_and_button_key_witness :
  getKeyboardCode [("up", "ArrowUp")] "down" (controls padWithoutUp)
  = Some "KeyS"
  /\ (getKeyCode padWithoutUp up = ""
      /\ getKeyboardCode [("up", "ArrowUp")] "up" (controls padWithoutUp)
         = Some "ArrowUp").
Proof.
  split.
  - exact (proj1 (pad_key_and_button_key [("up", "ArrowUp")] padWithoutUp
                    _ down eq_refl) eq_refl).
  - exact (proj2 (pad_key_and_button_key [("up", "ArrowUp")] padWithoutUp
                    _ up eq_refl) eq_refl).
Defined.

Lemma length_toLowerCase (s : string) :
  String.length (toLowerCase s) = String.length s.
Proof. induction s as [| a s IH]; simpl; [reflexivity | now rewrite IH]. Qed.

Lemma lowerChar_ascii (c : ascii) :
  Nat.ltb (nat_of_ascii c) 128 = true ->
  Nat.ltb (nat_of_ascii (lowerChar c)) 128 = true.
Proof.
  intros Hc. unfold lowerChar.
  destruct (Nat.leb 65 (nat_of_ascii c) && Nat.leb (nat_of_ascii c) 90)%bool
    eqn:E; [| exact Hc].
  apply andb_true_iff in E as [_ E]. apply Nat.leb_le in E.
  rewrite nat_ascii_embedding by lia. apply Nat.ltb_lt. lia.
Qed.

Lemma asciiOnly_toLowerCase (s : string) :
  asciiOnly s = true -> asciiOnly (toLowerCase s) = true.
Proof.
  induction s as [| a s IH]; simpl; [reflexivity |].
  intros H. apply andb_true_iff in H as [Ha Hs].
  now rewrite (lowerChar_ascii a Ha), (IH Hs).
Qed.

Lemma asciiOnly_slice (n : nat) (s : string) :
  asciiOnly s = true -> asciiOnly (slice n s) = true.
Proof.
  revert s; induction n as [| n IH]; intros s H; simpl; [exact H |].
  destruct s as [| a s]; [reflexivity |].
  simpl in H. apply andb_true_iff in H as [_ Hs]. now apply IH.
Qed.

Lemma length_slice (n : nat) (s : string) :
  (String.length (slice n s) <= String.length s)%nat.
Proof.
  revert s; induction n as [| n IH]; intros s; simpl; [lia |].
  destruct s as [| a s]; simpl; [lia |]. specialize (IH s). lia.
Qed.

(** X20.  For a code made of ASCII characters only, the key name is
    made of ASCII characters only and is never longer than the code. *)
Theorem getKeyName_not_longer (code : string) :
  asciiOnly code = true ->
  asciiOnly (getKeyName code) = true
  /\ (String.length (getKeyName code) <= String.length code)%nat.
Proof.
  intros Ha. unfold getKeyName.
  destruct (startsWith "Key" code).
  { split.
    - now apply asciiOnly_toLowerCase, asciiOnly_slice.
    - rewrite length_toLowerCase. apply length_slice. }
  destruct (startsWith "Arrow" code).
  { split; [now apply asciiOnly_slice | apply length_slice]. }
  destruct (String.eqb_spec code "Enter") as [-> | _];
    [split; [reflexivity | simpl; lia] |].
  destruct (String.eqb_spec code "ShiftRight") as [-> | _];
    [split; [reflexivity | simpl; lia] |].
  destruct (String.eqb_spec code "ShiftLeft") as [-> | _];
    [split; [reflexivity | simpl; lia] |].
  simpl. split; [exact Ha | lia].
Qed.

(** X20 on the code "KeyZ", whose key name is "z". *)
Lemma getKeyName_not_longer_witness :
  asciiOnly (getKeyName "KeyZ") = true
  /\ (String.length (getKeyName "KeyZ") <= String.length "KeyZ")%nat.
Proof.
  apply (getKeyName_not_longer "KeyZ"). reflexivity.
Defined.

End PadKeyFacts.

(** ** The pad: coming to rest *)
Module PadRestFacts.
Import Js Dom JsFacts KeyboardEvents Dpad PadSpec ScenarioSpec PadInvariant.
Open Scope list_scope.

Section Pad.
Variable p : Props.
Variable vibrate : bool.

Lemma findTouch_present (t : Touch) (touches : list Touch) :
  In t touches ->
  findTouch (Some (identifier t)) touches <> None.
Proof.
  intros Hin Hnone. simpl in Hnone.
  pose proof (find_none _ _ Hnone t Hin) as H. simpl in H.
  now rewrite Nat.eqb_refl in H.
Qed.

Lemma rest_without_touch (st : State) :
  reachable p vibrate st ->
  activeTouchRef st = None ->
  activeDirectionsRef st = []
  /\ isDragging st = false
  /\ pending (holdTimers st) = [].
Proof.
  intros Hr Ha. pose proof (reachable_Inv p vibrate st Hr) as HI.
  destruct (inv_idle p st HI Ha) as [E1 E2].
  split; [exact E1 |]. split; [| exact E2].
  destruct (isDragging st) eqn:Hd; [| reflexivity].
  destruct (inv_drag p st HI Hd) as [_ [_ Hn]]. now destruct Hn.
Qed.

(** X21.  The end, or the cancel, of the tracked touch brings the pad to
    rest: from every reachable state, after the handler no touch is
    tracked, no direction is active, the pad is not dragging and no hold
    timer is pending. *)
Theorem tracked_touch_end_brings_rest (t : Touch) (touches : list Touch)
    (st : State) :
  reachable p vibrate st ->
  activeTouchRef st = Some (identifier t) ->
  In t touches ->
  activeTouchRef (fst (step p vibrate (TouchEnd touches) st)) = None
  /\ activeDirectionsRef (fst (step p vibrate (TouchEnd touches) st)) = []
  /\ isDragging (fst (step p vibrate (TouchEnd touches) st)) = false
  /\ pending (holdTimers (fst (step p vibrate (TouchEnd touches) st))) = []
  /\ step p vibrate (TouchCancel touches) st
     = step p vibrate (TouchEnd touches) st.
Proof.
  intros Hr Ha Hin.
  assert (Hnone : activeTouchRef (fst (step p vibrate (TouchEnd touches) st))
                  = None).
  { simpl. unfold handleTouchEnd.
    destruct (clearDragTimer_fields st) as [F1 _]. rewrite F1, Ha.
    destruct (findTouch (Some (identifier t)) touches) eqn:Ef;
      [| now destruct (findTouch_present t touches Hin)].
    now destruct (isDragging _). }
  split; [exact Hnone |].
  destruct (rest_without_touch _ (reachable_step p vibrate st
                                    (TouchEnd touches) Hr) Hnone)
    as [E1 [E2 E3]].
  repeat split; assumption.
Qed.

(** X22.  Unmounting the pad leaves no timer behind: from every reachable
    state, the cleanup of the listeners' effect, which clears the drag
    timer, leaves no hold timer pending. *)
Theorem unmount_leaves_no_hold_timer (st : State) :
  reachable p vibrate st ->
  pending (holdTimers (clearDragTimer st)) = [].
Proof.
  intros Hr. apply (clearDragTimer_pending p).
  exact (reachable_Inv p vibrate st Hr).
Qed.

End Pad.

(** X21 on the pad with right held by the touch 7. *)
Lemma tracked_touch_end_brings_rest_witness :
  activeTouchRef
    (fst (step pad false (TouchEnd [finger 90 496]) padRightHeld)) = None
  /\ activeDirectionsRef
       (fst (step pad false (TouchEnd [finger 90 496]) padRightHeld)) = []
  /\ isDragging
       (fst (step pad false (TouchEnd [finger 90 496]) padRightHeld)) = false
  /\ pending
       (holdTimers
          (fst (step pad false (TouchEnd [finger 90 496]) padRightHeld)))
     = []
  /\ step pad false (TouchCancel [finger 90 496]) padRightHeld
     = step pad false (TouchEnd [finger 90 496]) padRightHeld.
Proof.
  apply (tracked_touch_end_brings_rest pad false (finger 90 496)).
  - exact PadShapeFacts.padRightHeld_reachable.
  - rewrite DragEntryFacts.padRightHeld_eq. reflexivity.
  - now left.
Defined.

(** X22 on the pad with right held, whose hold timer is pending. *)
Lemma unmount_leaves_no_hold_timer_witness :
  pending (holdTimers (clearDragTimer padRightHeld)) = [].
Proof.
  exact (unmount_leaves_no_hold_timer pad false padRightHeld
           PadShapeFacts.padRightHeld_reachable).
Defined.

End PadRestFacts.

(** ** A whole touch on a system button, end to end *)
Module WiredSystemButtonFacts.
Import Js Dom JsFacts KeyboardEvents ButtonSpec GestureSpec ContainerSpec
       WiredSpec WiredSystemSpec StopFacts DragEntryFacts GestureFacts
       WiredTouchFacts.
Open Scope string_scope.
Open Scope list_scope.

Section Button.
Variable DEFAULT_CONTROLS : ControlMapping.
Variable controls : option ControlMapping.
Variable config : ButtonComponent.ButtonConfig.
Variable customPosition : option (R * R).
Variable containerWidth containerHeight : R.
Variable vibrate : bool.

(** X23.  On a system button with a key code rendered by the container,
    one whole touch (a touch-start, any moves and hold timers, a
    touch-end or touch-cancel) from a reachable state that is not
    dragging dispatches exactly the keydown of the button's key, whether
    the emulator is running or not; the keyup is dispatched when the
    timer the tap registered fires. *)
Theorem wired_system_touch (code : string) (touch : Touch)
    (target : option DOMRect) (mids : list TouchHandlers.Event)
    (fin : TouchHandlers.Event) (st : VirtualButton.State) :
  ButtonComponent.isSystemButton config = true ->
  VirtualController.getButtonKeyboardCode DEFAULT_CONTROLS controls
    (ButtonComponent.type config) = Some code ->
  truthy code = true ->
  VirtualButton.reachable DEFAULT_CONTROLS controls
    (wiredProps config customPosition containerWidth containerHeight)
    vibrate st ->
  TouchHandlers.isDraggingRef (VirtualButton.hook st) = false ->
  Forall duringTouch mids ->
  endsTouch fin ->
  snd (VirtualButton.run DEFAULT_CONTROLS controls
         (wiredProps config customPosition containerWidth containerHeight)
         vibrate
         (map VirtualButton.Gesture
            (TouchHandlers.TouchStart touch target :: mids ++ [fin])) st)
  = [dispatch keydown code]
  /\ snd (VirtualButton.step DEFAULT_CONTROLS controls
            (wiredProps config customPosition containerWidth
               containerHeight) vibrate
            (VirtualButton.Container
               (VirtualController.TapTimer
                  (nextId (VirtualController.tapTimers
                             (VirtualButton.container st)))))
            (fst (VirtualButton.run DEFAULT_CONTROLS controls
                    (wiredProps config customPosition containerWidth
                       containerHeight) vibrate
                    (map VirtualButton.Gesture
                       (TouchHandlers.TouchStart touch target
                        :: mids ++ [fin])) st)))
     = [dispatch keyup code].
Proof.
  intros Hsys Hcode Ht Hr Hd Hm Hf.
  rewrite wired_run_gestures. cbn [fst snd VirtualButton.hook
                                   VirtualButton.container].
  destruct (whole_touch_callbacks
              (wiredProps config customPosition containerWidth
                 containerHeight) vibrate touch target mids fin
              (VirtualButton.hook st) Hd Hm Hf) as [Hcalls _].
  rewrite Hcalls.
  assert (Hcb :
    VirtualButton.callbacks
      (callsOfTouch
         (wiredProps config customPosition containerWidth containerHeight))
    = [VirtualController.Press (ButtonComponent.type config)]).
  { unfold callsOfTouch, wiredProps, ButtonComponent.hookProps. simpl.
    now rewrite Hsys. }
  rewrite Hcb.
  pose proof (wired_container_reachable DEFAULT_CONTROLS controls _ vibrate
                st Hr) as Hrc.
  assert (Hinc : VirtualController.includes VirtualController.SYSTEM_BUTTONS
                   (ButtonComponent.type config) = true)
    by now rewrite system_button_agrees.
  destruct (TapFacts.system_press_step DEFAULT_CONTROLS controls
              (ButtonComponent.type config) code
              (VirtualButton.container st) Hrc Hinc Hcode Ht)
    as [Hpress Hstep].
  pose proof (TapFacts.press_registers DEFAULT_CONTROLS controls
                (ButtonComponent.type config) code
                (VirtualButton.container st) Hrc Hpress) as Hreg.
  pose proof (VirtualController.reachable_step DEFAULT_CONTROLS controls
                (VirtualButton.container st)
                (VirtualController.Press (ButtonComponent.type config)) Hrc)
    as Hr1.
  cbn [VirtualController.run].
  destruct (VirtualController.step DEFAULT_CONTROLS controls
              (VirtualController.Press (ButtonComponent.type config))
              (VirtualButton.container st)) as [c1 out1].
  simpl in Hstep, Hreg, Hr1. simpl. rewrite app_nil_r.
  split; [exact Hstep |].
  pose proof (TapFacts.tap_timer_step DEFAULT_CONTROLS controls c1 _ _ _
                Hr1 Hreg) as Htap.
  destruct (VirtualController.step DEFAULT_CONTROLS controls
              (VirtualController.TapTimer _) c1) as [c2 out2].
  exact Htap.
Qed.

End Button.

(** X23 on the start button mapped to Enter in a stopped container: the
    finger lands and lifts; Enter goes down, and up when the timer
    fires. *)
Lemma wired_system_touch_witness :
  snd (VirtualButton.run noDefaults someControls
         (wiredProps configStart None 400 800) false
         (map VirtualButton.Gesture
            (TouchHandlers.TouchStart (touchAt 200 720) None
             :: [] ++ [TouchHandlers.TouchEnd]))
         (VirtualButton.initial false))
  = [dispatch keydown "Enter"]
  /\ snd (VirtualButton.step noDefaults someControls
            (wiredProps configStart None 400 800) false
            (VirtualButton.Container (VirtualController.TapTimer 1))
            (fst (VirtualButton.run noDefaults someControls
                    (wiredProps configStart None 400 800) false
                    (map VirtualButton.Gesture
                       (TouchHandlers.TouchStart (touchAt 200 720) None
                        :: [] ++ [TouchHandlers.TouchEnd]))
                    (VirtualButton.initial false))))
     = [dispatch keyup "Enter"].
Proof.
  apply (wired_system_touch noDefaults someControls configStart None
           400 800 false "Enter" (touchAt 200 720) None []
           TouchHandlers.TouchEnd (VirtualButton.initial false)).
  - reflexivity.
  - reflexivity.
  - reflexivity.
  - apply VirtualButton.reachable_initial.
  - reflexivity.
  - constructor.
  - exact I.
Defined.

End WiredSystemButtonFacts.

(** ** The container: what holds of the pressed set in every state *)
Module PressedSetFacts.
Import Js JsFacts KeyboardEvents VirtualController ContainerSpec StopFacts.
Open Scope string_scope.
Open Scope list_scope.

Lemma NoDup_snoc (b : string) (s : list string) :
  NoDup s -> ~ In b s -> NoDup (s ++ [b]).
Proof.
  induction 1 as [| a s Ha Hn IH]; intros Hb; simpl.
  - constructor; [intros [] | constructor].
  - constructor.
    + rewrite in_app_iff. intros [H | [H | []]]; [now apply Ha |].
      subst. apply Hb. now left.
    + apply IH. intros H. apply Hb. now right.
Qed.

Lemma NoDup_add (b : string) (s : list string) :
  NoDup s -> NoDup (add String.eqb b s).
Proof.
  intros Hn. unfold add. destruct (has String.eqb b s) eqn:E; [exact Hn |].
  apply NoDup_snoc; [exact Hn |].
  intros Hin. apply DragEntryFacts.has_In_string in Hin. congruence.
Qed.

Lemma NoDup_delete (b : string) (s : list string) :
  NoDup s -> NoDup (delete String.eqb b s).
Proof. intros Hn. unfold delete. now apply NoDup_filter. Qed.

Section Container.
Variable DEFAULT_CONTROLS : ControlMapping.
Variable controls : option ControlMapping.

Lemma handle_NoDup (ev : Event) (st : State) :
  NoDup (pressedButtons st) ->
  NoDup (pressedButtons (fst (handle DEFAULT_CONTROLS controls ev st))).
Proof.
  intros Hn. destruct ev as [b | b | b | r | id]; simpl.
  - unfold handlePress.
    destruct (negb (includes SYSTEM_BUTTONS b) && negb (isRunning st))%bool;
      [exact Hn |].
    destruct (getButtonKeyboardCode DEFAULT_CONTROLS controls b) as [k |];
      [| exact Hn].
    destruct (truthy k); simpl; [| exact Hn].
    now apply NoDup_add.
  - unfold handlePressDown.
    destruct (isRunning st); simpl; [| exact Hn].
    destruct (includes SYSTEM_BUTTONS b); [exact Hn |].
    destruct (getButtonKeyboardCode DEFAULT_CONTROLS controls b) as [k |];
      [| exact Hn].
    destruct (truthy k); simpl; [| exact Hn].
    destruct (has String.eqb b (pressedButtons st));
      [exact Hn | now apply NoDup_add].
  - unfold handleRelease.
    destruct (includes SYSTEM_BUTTONS b); [exact Hn |].
    destruct (getButtonKeyboardCode DEFAULT_CONTROLS controls b) as [k |];
      [| exact Hn].
    destruct (truthy k); simpl; [| exact Hn].
    destruct (has String.eqb b (pressedButtons st)); simpl;
      [now apply NoDup_delete | exact Hn].
  - exact Hn.
  - unfold tapTimerFires.
    destruct (callbackOf id (tapTimers st)) as [[k b] |]; [| exact Hn].
    simpl. now apply NoDup_delete.
Qed.

Lemma reachable_pressed_NoDup (st : State) :
  reachable DEFAULT_CONTROLS controls st -> NoDup (pressedButtons st).
Proof.
  induction 1 as [running | st ev _ IH]; [constructor |].
  pose proof (handle_NoDup ev st IH) as H1. unfold step.
  destruct (handle DEFAULT_CONTROLS controls ev st) as [st1 out1].
  simpl in H1.
  destruct (releaseAllEffect_cases DEFAULT_CONTROLS controls st1)
    as [[E _] | [_ [Hp _]]].
  - now rewrite E.
  - destruct (releaseAllEffect DEFAULT_CONTROLS controls st1)
      as [st2 out2]. simpl in *. rewrite Hp. constructor.
Qed.

(** X24.  In every state the container can reach (the effect of each
    render having run), the pressed set holds no button twice, it is empty
    while the emulator is stopped, and every button in it has a non-empty
    key code. *)
Theorem pressed_set_invariant (st : State) :
  reachable DEFAULT_CONTROLS controls st ->
  NoDup (pressedButtons st)
  /\ (isRunning st = false -> pressedButtons st = [])
  /\ (forall b, In b (pressedButtons st) ->
        exists code,
          getButtonKeyboardCode DEFAULT_CONTROLS controls b = Some code
          /\ truthy code = true).
Proof.
  intros Hr. split; [now apply reachable_pressed_NoDup |]. split.
  - now apply (reachable_stopped_empty DEFAULT_CONTROLS controls).
  - intros b Hb.
    pose proof (reachable_coded DEFAULT_CONTROLS controls st Hr b Hb) as Hc.
    destruct (getButtonKeyboardCode DEFAULT_CONTROLS controls b) as [k |];
      [| discriminate Hc].
    exists k. split; [reflexivity |]. simpl in Hc.
    now destruct (truthy k).
Qed.

End Container.

(** X24 on the running container with "a" held and start tapped. *)
Lemma pressed_set_invariant_witness :
  NoDup (pressedButtons holdingA_tappedStart)
  /\ (isRunning holdingA_tappedStart = false ->
      pressedButtons holdingA_tappedStart = [])
  /\ (forall b, In b (pressedButtons holdingA_tappedStart) ->
        exists code,
          getButtonKeyboardCode noDefaults someControls b = Some code
          /\ truthy code = true).
Proof.
  exact (pressed_set_invariant noDefaults someControls holdingA_tappedStart
           holdingA_tappedStart_reachable).
Defined.

End PressedSetFacts.

(** ** The pad while it is dragged *)
Module PadDragFacts.
Import Js Dom JsFacts KeyboardEvents Dpad PadSpec ScenarioSpec PadInvariant
       DragEntryFacts.
Open Scope list_scope.

Section Pad.
Variable p : Props.
Variable vibrate : bool.

(** X25.  While the pad is dragged it dispatches no key event: from a
    reachable state that is dragging, no handler (touch-start, move, end,
    cancel, hold timer) dispatches a keydown or a keyup; and the pad stays
    dragging until the handler that ends the tracked touch. *)
Theorem dragged_pad_dispatches_no_key (ev : Event) (st : State) :
  reachable p vibrate st ->
  isDragging st = true ->
  keyEvents (snd (step p vibrate ev st)) = []
  /\ (isDragging (fst (step p vibrate ev st)) = true
      \/ activeTouchRef (fst (step p vibrate ev st)) = None).
Proof.
  intros Hr Hd.
  pose proof (reachable_Inv p vibrate st Hr) as HI.
  destruct (inv_drag p st HI Hd) as [Ha [Hp Ht]].
  destruct (clearDragTimer_fields st) as [_ [_ [F3 _]]].
  assert (Hend : forall touches,
             keyEvents (snd (handleTouchEnd p touches st)) = []
             /\ (isDragging (fst (handleTouchEnd p touches st)) = true
                 \/ activeTouchRef (fst (handleTouchEnd p touches st))
                    = None)).
  { intros touches. unfold handleTouchEnd.
    destruct (findTouch _ touches); simpl.
    - rewrite F3, Hd. simpl. split; [reflexivity | now right].
    - split; [reflexivity | left; now rewrite F3]. }
  destruct ev as [first rect | touches rect | touches | touches | id];
    simpl; try apply Hend.
  - unfold handleTouchStart.
    destruct (activeTouchRef st); [| now destruct Ht].
    split; [reflexivity | now left].
  - unfold handleTouchMove.
    destruct (findTouch _ touches); [| split; [reflexivity | now left]].
    rewrite Hd, Hp. simpl. split; [reflexivity | now left].
  - unfold holdTimerFires.
    destruct (callbackOf id (holdTimers st)) as [[tx ty] |];
      [| split; [reflexivity | now left]].
    destruct (pad_startDragging p vibrate tx ty
                (set_timer (dragTimerRef st)
                   (clearTimeout id (holdTimers st)) st)) as [H1 [_ H3]].
    split; [| now left].
    rewrite H3. simpl. now rewrite Ha.
Qed.

End Pad.

(** X25 on the pad dragged after the hold timer of a touch fired: a move
    of the finger dispatches no key event. *)
Lemma dragged_pad_dispatches_no_key_witness :
  keyEvents
    (snd (step pad false (TouchMove [finger 120 496] (Some padRect))
            (fst (step pad false (HoldTimer 1) padRightHeld)))) = []
  /\ (isDragging
        (fst (step pad false (TouchMove [finger 120 496] (Some padRect))
                (fst (step pad false (HoldTimer 1) padRightHeld)))) = true
      \/ activeTouchRef
           (fst (step pad false (TouchMove [finger 120 496] (Some padRect))
                   (fst (step pad false (HoldTimer 1) padRightHeld))))
         = None).
Proof.
  apply (dragged_pad_dispatches_no_key pad false).
  - apply reachable_step. exact PadShapeFacts.padRightHeld_reachable.
  - rewrite padRightHeld_eq. reflexivity.
Defined.

End PadDragFacts.
